(** * Cultured-Downloader-CLI: the request package

    A shallow embedding of [src/request/request.go] (package [request]):
    [CallRequest], [DownloadURL] and [DownloadURLsParallel], together with
    the parts of the Go standard library they call ([strings], [net/url],
    [path/filepath], [os], [io], channels and wait groups), and the
    properties of the download engine proved on that embedding.

    Go strings are byte strings: they are modelled by [string], whose
    characters are the 256 values of [ascii].  Paths follow the Unix
    flavour of [path/filepath] (separator [/], no volume names). *)

From Stdlib Require Import ZArith Ascii String List Bool Lia.
From stdpp Require Import base option list strings gmap fin_maps pretty.

Local Open Scope string_scope.
Local Open Scope Z_scope.

(** ** Package [strings] *)

Module strings.

(** [strings.HasPrefix(s, prefix)]. *)
Fixpoint HasPrefix (s prefix : string) {struct prefix} : bool :=
  match prefix, s with
  | EmptyString, _ => true
  | String _ _, EmptyString => false
  | String c p, String d s' => Ascii.eqb c d && HasPrefix s' p
  end.

(** [strings.Contains(s, substr)]: some position of [s] starts with
    [substr]. *)
Fixpoint Contains (s substr : string) : bool :=
  HasPrefix s substr ||
  match s with
  | EmptyString => false
  | String _ s' => Contains s' substr
  end.

(** [strings.HasSuffix(s, suffix)]. *)
Fixpoint HasSuffix (s suffix : string) : bool :=
  String.eqb s suffix ||
  match s with
  | EmptyString => false
  | String _ s' => HasSuffix s' suffix
  end.

(** [strings.TrimSuffix(s, suffix)]: [s[:len(s)-len(suffix)]] when [s] ends
    with [suffix], and [s] otherwise. *)
Definition TrimSuffix (s suffix : string) : string :=
  if HasSuffix s suffix
  then String.substring 0 (String.length s - String.length suffix) s
  else s.

(** The ASCII path of [strings.ToLower]: [c += 'a' - 'A'] for
    ['A' <= c <= 'Z']. *)
Definition lowerByte (c : ascii) : ascii :=
  let n := N_of_ascii c in
  if ((65 <=? n) && (n <=? 90))%N then ascii_of_N (n + 32) else c.

Fixpoint lowerBytes (s : string) : string :=
  match s with
  | EmptyString => EmptyString
  | String c s' => String (lowerByte c) (lowerBytes s')
  end.

(** [c < utf8.RuneSelf] for every byte of [s]. *)
Fixpoint isASCII (s : string) : bool :=
  match s with
  | EmptyString => true
  | String c s' => (N_of_ascii c <? 128)%N && isASCII s'
  end.

(** [strings.ToLower(s)].  An ASCII-only string is lowered byte by byte;
    any other string goes through [strings.Map(unicode.ToLower, s)], whose
    Unicode tables are not part of this development and are taken as the
    parameter [unicodeLower]. *)
Definition ToLower (unicodeLower : string -> string) (s : string) : string :=
  if isASCII s then lowerBytes s else unicodeLower s.

End strings.

(** ** Package [net/url]: unescaping *)

Module url.

Definition ishex (c : ascii) : bool :=
  let n := N_of_ascii c in
  (((48 <=? n) && (n <=? 57)) || ((97 <=? n) && (n <=? 102))
   || ((65 <=? n) && (n <=? 70)))%N.

Definition unhex (c : ascii) : N :=
  let n := N_of_ascii c in
  (if (48 <=? n) && (n <=? 57) then n - 48
   else if (97 <=? n) && (n <=? 102) then n - 97 + 10
   else if (65 <=? n) && (n <=? 70) then n - 65 + 10
   else 0)%N.

(** [url.PathUnescape(s)]: every [%XY] with two hexadecimal digits becomes
    the byte [XY]; a [%] that is not followed by two hexadecimal digits is
    an [EscapeError] ([None]).  In this mode [+] stays a [+]. *)
Fixpoint PathUnescape (s : string) : option string :=
  match s with
  | EmptyString => Some EmptyString
  | String c rest =>
      if Ascii.eqb c "%" then
        match rest with
        | String a (String b rest') =>
            if ishex a && ishex b
            then option_map (String (ascii_of_N (unhex a * 16 + unhex b)))
                            (PathUnescape rest')
            else None
        | _ => None
        end
      else option_map (String c) (PathUnescape rest)
  end.

End url.

(** ** Package [path/filepath] (Unix) *)

Module filepath.

Definition isPathSeparator (c : ascii) : bool := Ascii.eqb c "/".

(** The loop of [filepath.Ext]: [i] runs from the last byte downwards, here
    over the reversed path, and [seen] holds [path[i+1:]]:
    [for i := len(path)-1; i >= 0 && !os.IsPathSeparator(path[i]); i--
       { if path[i] == '.' { return path[i:] } }], then the empty string. *)
Fixpoint extScan (rpath : list ascii) (seen : list ascii) : string :=
  match rpath with
  | [] => EmptyString
  | c :: r =>
      if isPathSeparator c then EmptyString
      else if Ascii.eqb c "." then string_of_list_ascii (c :: seen)
      else extScan r (c :: seen)
  end.

Definition Ext (path : string) : string :=
  extScan (rev (list_ascii_of_string path)) [].

(** The elements of a path between its separators, empty ones included
    (as [strings.Split(path, "/")]). *)
Fixpoint elements (path : string) : list string :=
  match path with
  | EmptyString => [EmptyString]
  | String c rest =>
      if isPathSeparator c then EmptyString :: elements rest
      else match elements rest with
           | e :: es => String c e :: es
           | [] => [String c EmptyString]
           end
  end.

Fixpoint joinElements (es : list string) : string :=
  match es with
  | [] => EmptyString
  | [e] => e
  | e :: es' => e +:+ "/" +:+ joinElements es'
  end.

(** One element of the scan of [filepath.Clean].  [out] is the output
    buffer as a stack of elements (innermost first) and [dotdot] the number
    of elements at its bottom that a [..] may not remove. *)
Definition cleanStep (rooted : bool) (st : list string * nat) (e : string)
  : list string * nat :=
  let '(out, dotdot) := st in
  if String.eqb e "" then st                      (* empty path element *)
  else if String.eqb e "." then st                (* . element *)
  else if String.eqb e ".." then
    if (dotdot <? length out)%nat then (tail out, dotdot)   (* can backtrack *)
    else if rooted then st
    else (".." :: out, S (length out))            (* cannot backtrack *)
  else (e :: out, dotdot).                        (* real path element *)

(** [filepath.Clean(path)]. *)
Definition Clean (path : string) : string :=
  let rooted := match path with
                | String c _ => isPathSeparator c
                | EmptyString => false
                end in
  let out := fst (fold_left (cleanStep rooted) (elements path) ([], 0%nat)) in
  if rooted then "/" +:+ joinElements (rev out)
  else match out with
       | [] => "."
       | _ => joinElements (rev out)
       end.

(** [filepath.Join(a, b)]: the first non-empty element onwards, joined by
    the separator and cleaned; the empty string when both are empty. *)
Definition Join (a b : string) : string :=
  if negb (String.eqb a "") then Clean (a +:+ "/" +:+ b)
  else if negb (String.eqb b "") then Clean b
  else "".

(** [path[:i+1]] for the last separator [i] of [path] (empty without one). *)
Fixpoint uptoLastSeparator (path : string) : string :=
  match path with
  | EmptyString => EmptyString
  | String c rest =>
      if isPathSeparator c || strings.Contains rest "/"
      then String c (uptoLastSeparator rest)
      else EmptyString
  end.

(** [filepath.Dir(path)]. *)
Definition Dir (path : string) : string := Clean (uptoLastSeparator path).

End filepath.

(** ** Data model *)

(** A Go [error] value, by its message; [option Error] is an [error] that
    may be [nil]. *)
Definition Error : Type := string.

(** The fields of [http.Cookie] that the package reads or sends. *)
Record Cookie := { Name : string; Value : string; Domain : string }.

(** [req.URL.RawQuery]: what [http.NewRequest] parsed out of the URL, or
    [query.Encode()] of a [url.Values] (a [map[string][]string]). *)
Inductive Query :=
| Unchanged
| Encoded (query : gmap string (list string)).

(** The request that [CallRequest] builds.  [Cookies] lists the cookies
    given to [req.AddCookie] and [Header] the pairs given to
    [req.Header.Add], both in call order. *)
Record Request := {
  Method : string;
  URL : string;
  Cookies : list Cookie;
  Header : list (string * string);
  RawQuery : Query
}.

(** [http.Client]; [Timeout] is a [time.Duration], an [int64] count of
    nanoseconds. *)
Record Client := { Timeout : Z }.

(** What the package reads of an [*http.Response]: the status code, the
    final (redirect-resolved) [res.Request.URL.String()], and the body
    stream.  [BodyErr = Some (n, e)] is a stream that [io.Copy] cannot
    drain: the copy stops with error [e] after [n] bytes reached the file
    (a read error of the connection or a write error of the disk). *)
Record Response := {
  StatusCode : Z;
  RequestURL : string;
  Body : list Byte.byte;
  BodyErr : option (nat * Error)
}.

(** What the outside world answers, and the constants of package [utils]
    (its source, [constants.go], is not part of the sources at hand). *)
Record Env := {
  RETRY_COUNTER : Z;                                (* utils.RETRY_COUNTER *)
  USER_AGENT : string;                              (* utils.USER_AGENT *)
  unicodeLower : string -> string;                  (* strings.Map(unicode.ToLower, _) *)
  NewRequestErr : string -> string -> option Error; (* the error of http.NewRequest(method, url, nil) *)
  URLQuery : string -> gmap string (list string);   (* req.URL.Query() of the request for url *)
  clientDo : Client -> Request -> Z -> Error + Response; (* the i-th client.Do(req) *)
  createErr : string -> option Error;               (* the error of os.Create(path) *)
  removeErr : string -> option Error                (* the error of os.Remove(path) *)
}.

(** Observable actions, in the order they happen. *)
Inductive Event :=
| EvDo (client : Client) (req : Request) (i : Z)   (* client.Do(req), attempt i *)
| EvSleep                                          (* time.Sleep(utils.GetRandomDelay()) *)
| EvLog (err : option Error) (msg : string) (exit : bool)  (* utils.LogError *)
| EvMkdirAll (path : string)                       (* os.MkdirAll(path, 0755) *)
| EvBodyClose.                                     (* res.Body.Close() *)

(** The state the package acts on: the regular files on disk by path, the
    number of files this process holds open, and the trace of actions so
    far. *)
Record World := {
  files : gmap string (list Byte.byte);
  handles : nat;
  trace : list Event
}.

(** ** Control: a state monad with panics *)

Inductive Abort :=
| Panicked (v : string)     (* a panic that nothing recovers *)
| Exited (code : Z).        (* os.Exit *)

Inductive Outcome (A : Type) :=
| Ret (a : A)
| Stop (a : Abort).
Arguments Ret {A} a.
Arguments Stop {A} a.

Definition M (A : Type) : Type := World -> Outcome A * World.

Definition ret {A} (a : A) : M A := fun w => (Ret a, w).

Definition bind {A B} (m : M A) (k : A -> M B) : M B :=
  fun w => match m w with
           | (Ret a, w') => k a w'
           | (Stop a, w') => (Stop a, w')
           end.

Definition panic {A} (v : string) : M A := fun w => (Stop (Panicked v), w).

Definition emit (e : Event) : M unit :=
  fun w => (Ret tt, {| files := files w; handles := handles w;
                       trace := (trace w ++ [e])%list |}).

(** [defer d; body]: [d] runs when [body] returns and when it panics, not
    when the process exits. *)
Definition defer {A} (d : M unit) (body : M A) : M A :=
  fun w => match body w with
           | (Stop (Exited c), w') => (Stop (Exited c), w')
           | (o, w') => (o, snd (d w'))
           end.

Notation "'do' x <- m ; k" := (bind m (fun x => k))
  (at level 10, x name, m at level 100, k at level 200).
Notation "'do' ' p <- m ; k" := (bind m (fun x => match x with p => k end))
  (at level 10, p pattern, m at level 100, k at level 200).
Notation "'run' m ; k" := (bind m (fun _ => k))
  (at level 10, m at level 100, k at level 200).

(** ** Package [os], [io] and [time] *)

Module os.

(** [os.MkdirAll(path, 0755)].  Both callers discard its error, and
    directories are not part of [World]: whether the directory exists
    afterwards shows only in what [createErr] answers. *)
Definition MkdirAll (path : string) : M unit := emit (EvMkdirAll path).

(** [os.Create(path)]: the error the environment raises, or the file
    created or truncated to length zero and opened. *)
Definition Create (E : Env) (path : string) : M (Error + string) :=
  fun w => match createErr E path with
           | Some e => (Ret (inl e), w)
           | None => (Ret (inr path),
                      {| files := <[path := []]> (files w);
                         handles := S (handles w);
                         trace := trace w |})
           end.

(** [file.Close()]. *)
Definition Close (file : string) : M unit :=
  fun w => (Ret tt, {| files := files w;
                       handles := pred (handles w);
                       trace := trace w |}).

(** [os.Remove(path)] of a regular file: the error the environment
    raises, the file staying as it is, or the file removed. *)
Definition Remove (E : Env) (path : string) : M (option Error) :=
  fun w => match removeErr E path with
           | Some e => (Ret (Some e), w)
           | None => (Ret None, {| files := delete path (files w);
                                   handles := handles w;
                                   trace := trace w |})
           end.

End os.

Module io.

(** [io.Copy(file, res.Body)] into a file opened at offset zero: the whole
    body when the stream holds, its first [n] bytes and the error when it
    breaks. *)
Definition Copy (file : string) (res : Response) : M (option Error) :=
  fun w =>
    let '(written, err) := match BodyErr res with
                           | None => (Body res, None)
                           | Some (n, e) => (firstn n (Body res), Some e)
                           end in
    (Ret err, {| files := <[file := written]> (files w);
                 handles := handles w;
                 trace := trace w |}).

End io.

Module time.

(** An [int64] product, wrapped. *)
Definition wrap64 (z : Z) : Z := (z + 2 ^ 63) mod 2 ^ 64 - 2 ^ 63.

Definition Second : Z := 1000000000.

Definition Sleep : M unit := emit EvSleep.

End time.

(** ** Package [utils]

    Its sources are not at hand; the helpers below are modelled from the
    specification of the engine. *)

Module utils.

(** The URL up to its query or fragment: what comes before the first
    [?] or [#]. *)
Fixpoint beforeQuery (u : string) : string :=
  match u with
  | EmptyString => EmptyString
  | String c u' =>
      if Ascii.eqb c "?" || Ascii.eqb c "#" then EmptyString
      else String c (beforeQuery u')
  end.

(** A character of a URL scheme: a letter, a digit, [+], [-] or [.]. *)
Definition isSchemeChar (c : ascii) : bool :=
  let n := N_of_ascii c in
  ((97 <=? n) && (n <=? 122) || (65 <=? n) && (n <=? 90)
   || (48 <=? n) && (n <=? 57)
   || Ascii.eqb c "+" || Ascii.eqb c "-" || Ascii.eqb c ".")%N.

(** What follows [scheme://], for a URL that starts with a scheme. *)
Fixpoint afterScheme (u : string) : option string :=
  match u with
  | EmptyString => None
  | String c u' =>
      if isSchemeChar c then afterScheme u'
      else if Ascii.eqb c ":" then
        match u' with
        | String a (String b rest) =>
            if Ascii.eqb a "/" && Ascii.eqb b "/" then Some rest else None
        | _ => None
        end
      else None
  end.

(** The string from its first [/] on; empty when it has none. *)
Fixpoint fromSeparator (s : string) : string :=
  match s with
  | EmptyString => EmptyString
  | String c s' => if filepath.isPathSeparator c then s else fromSeparator s'
  end.

(** The path of a URL [scheme://authority/path?query#fragment]: the query
    and the fragment are cut off, and so are the scheme and the
    authority, up to the [/] that starts the path.  A string without
    scheme is a path up to its query. *)
Definition pathOf (u : string) : string :=
  let u := beforeQuery u in
  match afterScheme u with
  | Some rest => fromSeparator rest
  | None => u
  end.

(** Modelled from the spec: [utils.GetLastPartOfURL], missing from the
    sources.  The specification has the filename derived from the URL
    "by taking its last path segment": what follows the last [/] of the
    path of the URL.  The query and the fragment are no part of it, and a
    URL without path has the empty segment. *)
Definition GetLastPartOfURL (u : string) : string :=
  List.last (filepath.elements (pathOf u)) EmptyString.

(** Modelled from the spec: [utils.RemoveExtFromFilename], missing from the
    sources.  The specification has it "strip any existing extension":
    the suffix that [filepath.Ext] returns is cut off. *)
Definition RemoveExtFromFilename (filename : string) : string :=
  strings.TrimSuffix filename (filepath.Ext filename).

(** Modelled from the spec: [utils.CheckIfFileIsEmpty], missing from the
    sources.  The specification treats a file that "already exists at the
    resolved path and is non-empty" as a completed download: the answer is
    [false] for exactly those files, [true] for an absent or zero-byte one.
    (The second result, an [error], is discarded by the only caller.) *)
Definition CheckIfFileIsEmpty (path : string) : M bool :=
  fun w => (Ret match files w !! path with
                | Some (_ :: _) => false
                | Some [] | None => true
                end, w).

(** Modelled from the spec: [utils.LogError], missing from the sources.
    The specification asks of the logging sink to "record a non-fatal
    error with an optional user-facing message" and to "record a fatal
    error that terminates the process": the entry is recorded, and the
    process exits when [exit] is set. *)
Definition LogError (err : option Error) (errorMsg : string) (exit : bool)
  : M unit :=
  run emit (EvLog err errorMsg exit);
  if exit then (fun w => (Stop (Exited 1), w)) else ret tt.

(** Modelled from the spec: the progress bar of [utils.GetProgressBar],
    missing from the sources.  The specification describes a "stateful
    counter with a total and a current completed count" that is set up
    with the total and offers "increment by one". *)
Record ProgressBar := { total : Z; count : Z }.

Definition GetProgressBar (n : Z) : ProgressBar := {| total := n; count := 0 |}.

Definition Add (bar : ProgressBar) (n : Z) : ProgressBar :=
  {| total := total bar; count := count bar + n |}.

End utils.

(** ** Package [request] *)

(** [query.Add(key, value)] on a [url.Values]: the value is appended to the
    values of the key. *)
Definition ValuesAdd (key value : string) (query : gmap string (list string))
  : gmap string (list string) :=
  <[key := (default [] (query !! key) ++ [value])%list]> query.

(** [for key, value := range params { query.Add(key, value) }], for the
    order [kvs] in which the range visits the map. *)
Definition addParams (kvs : list (string * string))
    (query : gmap string (list string)) : gmap string (list string) :=
  fold_left (fun q kv => ValuesAdd (fst kv) (snd kv) q) kvs query.

(** Lines 22-49 of [CallRequest]: the request, once [http.NewRequest] has
    succeeded.  Go ranges over a map in an unspecified order;
    [map_to_list] is one such order. *)
Definition buildRequest (E : Env) (method url : string) (cookies : list Cookie)
    (additionalHeaders params : gmap string string) : Request :=
  {| Method := if String.eqb method "" then "GET" else method;
     URL := url;
     Cookies := List.filter (fun cookie => strings.Contains url (Domain cookie))
                            cookies;
     Header := (map_to_list additionalHeaders
                ++ [("User-Agent", USER_AGENT E)])%list;
     RawQuery := if (0 <? size params)%nat
                 then Encoded (addParams (map_to_list params) (URLQuery E url))
                 else Unchanged |}.

(** [client.Do(req)], recorded in the trace. *)
Definition Do (E : Env) (client : Client) (req : Request) (i : Z)
  : M (Error + Response) :=
  run emit (EvDo client req i);
  ret (clientDo E client req i).

(** The loop of lines 54-64, [for i := 1; i <= utils.RETRY_COUNTER; i++],
    with [n] iterations left.  It returns the response it would return
    from [CallRequest], or [None] when it runs out.  Its [resp, err :=]
    declares an [err] of its own, local to the body of the loop: the error
    of a failed attempt does not leave the iteration. *)
Fixpoint attempts (E : Env) (client : Client) (req : Request)
    (checkStatus : bool) (n : nat) (i : Z) : M (option Response) :=
  match n with
  | O => ret None
  | S n' =>
      do r <- Do E client req i;
      match r with
      | inr resp =>
          if negb checkStatus then ret (Some resp)
          else if StatusCode resp =? 200 then ret (Some resp)
          else run time.Sleep; attempts E client req checkStatus n' (i + 1)
      | inl _ =>
          run time.Sleep; attempts E client req checkStatus n' (i + 1)
      end
  end.

(** [CallRequest(method, url, timeout, cookies, additionalHeaders, params,
    checkStatus)]; the result pairs the [*http.Response] with the [error]. *)
Definition CallRequest (E : Env) (method url : string) (timeout : Z)
    (cookies : list Cookie) (additionalHeaders params : gmap string string)
    (checkStatus : bool) : M (option Response * option Error) :=
  match NewRequestErr E method url with
  | Some e => ret (None, Some e)
  | None =>
      (* req, err := http.NewRequest(...) left err nil *)
      let err : option Error := None in
      let req := buildRequest E method url cookies additionalHeaders params in
      let client := {| Timeout := time.wrap64 (timeout * time.Second) |} in
      do r <- attempts E client req checkStatus (Z.to_nat (RETRY_COUNTER E)) 1;
      match r with
      | Some resp => ret (Some resp, None)
      | None =>
          let errorMessage :=
            "failed to send a request to " +:+ url +:+ " after "
            +:+ pretty (RETRY_COUNTER E) +:+ " retries" in
          run utils.LogError err errorMessage false;
          ret (None, err)
      end
  end.

(** Lines 85-99 of [DownloadURL]: the path of the file, from the
    destination and the response. *)
Definition resolvePath (E : Env) (filePath : string) (res : Response)
  : M string :=
  if String.eqb (filepath.Ext filePath) "" then
    run os.MkdirAll filePath;
    match url.PathUnescape (RequestURL res) with
    | None => panic "invalid URL escape"
    | Some filename =>
        let filename := utils.GetLastPartOfURL filename in
        let filenameWithoutExt := utils.RemoveExtFromFilename filename in
        ret (filepath.Join filePath
               (filenameWithoutExt
                +:+ strings.ToLower (unicodeLower E) (filepath.Ext filename)))
    end
  else
    let filePathDir := filepath.Dir filePath in
    run os.MkdirAll filePathDir;
    let filePathWithoutExt := utils.RemoveExtFromFilename filePath in
    ret (filePathWithoutExt
         +:+ strings.ToLower (unicodeLower E) (filepath.Ext filePath)).

(** Lines 101-123 of [DownloadURL]: the check for a finished download and
    the write of the body. *)
Definition writeBody (E : Env) (fileURL filePath : string) (res : Response)
  : M (option Error) :=
  do empty <- utils.CheckIfFileIsEmpty filePath;
  if negb empty then ret None
  else
    do created <- os.Create E filePath;
    match created with
    | inl e => panic e
    | inr file =>
        do err <- io.Copy file res;
        match err with
        | Some e =>
            run os.Close file;
            run os.Remove E filePath;   (* its error is discarded *)
            let errorMsg :=
              "failed to download " +:+ fileURL +:+ " due to " +:+ e in
            run utils.LogError (Some e) errorMsg false;
            ret None
        | None =>
            run os.Close file;
            ret None
        end
    end.

(** [DownloadURL(fileURL, filePath, cookies, headers, params)]. *)
Definition DownloadURL (E : Env) (fileURL filePath : string)
    (cookies : list Cookie) (headers params : gmap string string)
  : M (option Error) :=
  let downloadTimeout := 25 * 60 in
  do '(res, err) <- CallRequest E "GET" fileURL downloadTimeout cookies
                                headers params true;
  match err with
  | Some e => ret (Some e)
  | None =>
      match res with
      | None =>
          (* defer res.Body.Close() evaluates res.Body on a nil res *)
          panic "invalid memory address or nil pointer dereference"
      | Some res =>
          defer (emit EvBodyClose)
            (do filePath <- resolvePath E filePath res;
             writeBody E fileURL filePath res)
      end
  end.

(** [DownloadURLsParallel(urls, maxConcurrency, cookies, headers, params)]
    starts one goroutine per job.  It is modelled by the interleavings of
    the main goroutine and its workers: a transition system whose steps
    are the statements that synchronise (channel send and receive, the
    wait group, the progress bar) and the call of [DownloadURL], which
    acts on the shared [World] in one step. *)

(** Where a worker stands in
    [defer wg.Done(); DownloadURL(...); bar.Add(1); <-queue].  A panic of
    [DownloadURL] unwinds the goroutine: its deferred [wg.Done()] runs,
    and then, nothing having recovered the panic, the runtime ends the
    process; the other goroutines run on until it has. *)
Inductive Stage :=
| Fetching                 (* in DownloadURL(fileUrl, filePath, cookies, headers, params) *)
| Ticking                  (* before bar.Add(1) *)
| Releasing                (* before <-queue *)
| Finishing                (* before the deferred wg.Done() *)
| Panicking (v : string)   (* DownloadURL has panicked: before the deferred wg.Done() *)
| Dying (v : string).      (* the deferred call has run: before the runtime ends the process *)

Record Worker := { fileUrl : string; filePath : string; stage : Stage }.

(** Where the main goroutine stands. *)
Inductive Main :=
| Looping (urls : list (gmap string string))  (* in the range loop, these jobs left *)
| Waiting                                     (* queue closed, in wg.Wait() *)
| Returned.

Record System := {
  world : World;
  bar : utils.ProgressBar;
  wg : Z;                    (* the counter of the sync.WaitGroup *)
  queueCap : nat;            (* cap(queue) *)
  queueLen : nat;            (* len(queue) *)
  queueClosed : bool;
  main : Main;
  workers : list Worker;
  crashed : option Abort     (* the process died of a panic *)
}.

Definition setWorld (w : World) (s : System) : System :=
  {| world := w; bar := bar s; wg := wg s; queueCap := queueCap s;
     queueLen := queueLen s; queueClosed := queueClosed s; main := main s;
     workers := workers s; crashed := crashed s |}.

Definition setBar (b : utils.ProgressBar) (s : System) : System :=
  {| world := world s; bar := b; wg := wg s; queueCap := queueCap s;
     queueLen := queueLen s; queueClosed := queueClosed s; main := main s;
     workers := workers s; crashed := crashed s |}.

Definition setWg (n : Z) (s : System) : System :=
  {| world := world s; bar := bar s; wg := n; queueCap := queueCap s;
     queueLen := queueLen s; queueClosed := queueClosed s; main := main s;
     workers := workers s; crashed := crashed s |}.

Definition setQueueLen (n : nat) (s : System) : System :=
  {| world := world s; bar := bar s; wg := wg s; queueCap := queueCap s;
     queueLen := n; queueClosed := queueClosed s; main := main s;
     workers := workers s; crashed := crashed s |}.

Definition setQueueClosed (b : bool) (s : System) : System :=
  {| world := world s; bar := bar s; wg := wg s; queueCap := queueCap s;
     queueLen := queueLen s; queueClosed := b; main := main s;
     workers := workers s; crashed := crashed s |}.

Definition setMain (m : Main) (s : System) : System :=
  {| world := world s; bar := bar s; wg := wg s; queueCap := queueCap s;
     queueLen := queueLen s; queueClosed := queueClosed s; main := m;
     workers := workers s; crashed := crashed s |}.

Definition setWorkers (ws : list Worker) (s : System) : System :=
  {| world := world s; bar := bar s; wg := wg s; queueCap := queueCap s;
     queueLen := queueLen s; queueClosed := queueClosed s; main := main s;
     workers := ws; crashed := crashed s |}.

Definition setCrashed (a : option Abort) (s : System) : System :=
  {| world := world s; bar := bar s; wg := wg s; queueCap := queueCap s;
     queueLen := queueLen s; queueClosed := queueClosed s; main := main s;
     workers := workers s; crashed := a |}.

Definition setStage (st : Stage) (wk : Worker) : Worker :=
  {| fileUrl := fileUrl wk; filePath := filePath wk; stage := st |}.

(** [url["url"]] and [url["filepath"]]: a missing key reads as the empty
    string. *)
Definition jobWorker (u : gmap string string) : Worker :=
  {| fileUrl := default "" (u !! "url");
     filePath := default "" (u !! "filepath");
     stage := Fetching |}.

(** One iteration of the range loop, once the send on [queue] went
    through: [wg.Add(1); queue <- struct{}{}; go func(...){...}(...)]. *)
Definition started (u : gmap string string) (rest : list (gmap string string))
    (len : nat) (ws : list Worker) (s : System) : System :=
  setMain (Looping rest)
    (setWorkers (ws ++ [jobWorker u])%list
       (setQueueLen len (setWg (wg s + 1) s))).

(** The state before the loop: the concurrency is capped by the number of
    jobs, the bar is created for all of them, and [make(chan struct{}, n)]
    panics for a negative [n]. *)
Definition DownloadURLsParallel (urls : list (gmap string string))
    (maxConcurrency : Z) (w : World) : System :=
  let maxConcurrency :=
    if Z.of_nat (length urls) <? maxConcurrency
    then Z.of_nat (length urls) else maxConcurrency in
  {| world := w;
     bar := utils.GetProgressBar (Z.of_nat (length urls));
     wg := 0;
     queueCap := Z.to_nat maxConcurrency;
     queueLen := 0;
     queueClosed := false;
     main := Looping urls;
     workers := [];
     crashed := if maxConcurrency <? 0
                then Some (Panicked "makechan: size out of range")
                else None |}.

(** The steps of the goroutines.  A send goes through while the buffer has
    room, or straight to a receiver that waits on an empty buffer; a
    receive takes from the buffer, or returns at once on a closed and
    empty channel; both block otherwise.  A worker whose [DownloadURL]
    panics skips [bar.Add(1)] and [<-queue], runs its deferred
    [wg.Done()] and then brings the process down; [os.Exit] brings it
    down at once, without the deferred call. *)
Inductive step (E : Env) (cookies : list Cookie)
    (headers params : gmap string string) : System -> System -> Prop :=
| step_start s u rest :
    crashed s = None -> main s = Looping (u :: rest) ->
    (queueLen s < queueCap s)%nat ->
    step E cookies headers params s
      (started u rest (S (queueLen s)) (workers s) s)
| step_handoff s u rest ws1 wk ws2 :
    crashed s = None -> main s = Looping (u :: rest) ->
    queueLen s = 0%nat ->
    workers s = (ws1 ++ wk :: ws2)%list -> stage wk = Releasing ->
    step E cookies headers params s
      (started u rest 0 (ws1 ++ setStage Finishing wk :: ws2)%list s)
| step_close s :
    crashed s = None -> main s = Looping [] ->
    step E cookies headers params s (setMain Waiting (setQueueClosed true s))
| step_return s :
    crashed s = None -> main s = Waiting -> wg s = 0 ->
    step E cookies headers params s (setMain Returned s)
| step_fetch s ws1 wk ws2 err w' :
    crashed s = None ->
    workers s = (ws1 ++ wk :: ws2)%list -> stage wk = Fetching ->
    DownloadURL E (fileUrl wk) (filePath wk) cookies headers params (world s)
    = (Ret err, w') ->
    step E cookies headers params s
      (setWorld w' (setWorkers (ws1 ++ setStage Ticking wk :: ws2)%list s))
| step_panic s ws1 wk ws2 v w' :
    crashed s = None ->
    workers s = (ws1 ++ wk :: ws2)%list -> stage wk = Fetching ->
    DownloadURL E (fileUrl wk) (filePath wk) cookies headers params (world s)
    = (Stop (Panicked v), w') ->
    step E cookies headers params s
      (setWorld w' (setWorkers (ws1 ++ setStage (Panicking v) wk :: ws2)%list s))
| step_exit s ws1 wk ws2 code w' :
    crashed s = None ->
    workers s = (ws1 ++ wk :: ws2)%list -> stage wk = Fetching ->
    DownloadURL E (fileUrl wk) (filePath wk) cookies headers params (world s)
    = (Stop (Exited code), w') ->
    step E cookies headers params s
      (setWorld w' (setCrashed (Some (Exited code)) s))
| step_unwind s ws1 wk ws2 v :
    crashed s = None ->
    workers s = (ws1 ++ wk :: ws2)%list -> stage wk = Panicking v ->
    step E cookies headers params s
      (setWg (wg s - 1)
         (setWorkers (ws1 ++ setStage (Dying v) wk :: ws2)%list s))
| step_die s ws1 wk ws2 v :
    crashed s = None ->
    workers s = (ws1 ++ wk :: ws2)%list -> stage wk = Dying v ->
    step E cookies headers params s (setCrashed (Some (Panicked v)) s)
| step_tick s ws1 wk ws2 :
    crashed s = None ->
    workers s = (ws1 ++ wk :: ws2)%list -> stage wk = Ticking ->
    step E cookies headers params s
      (setBar (utils.Add (bar s) 1)
         (setWorkers (ws1 ++ setStage Releasing wk :: ws2)%list s))
| step_release s ws1 wk ws2 :
    crashed s = None ->
    workers s = (ws1 ++ wk :: ws2)%list -> stage wk = Releasing ->
    (0 < queueLen s)%nat ->
    step E cookies headers params s
      (setQueueLen (pred (queueLen s))
         (setWorkers (ws1 ++ setStage Finishing wk :: ws2)%list s))
| step_release_closed s ws1 wk ws2 :
    crashed s = None ->
    workers s = (ws1 ++ wk :: ws2)%list -> stage wk = Releasing ->
    queueLen s = 0%nat -> queueClosed s = true ->
    step E cookies headers params s
      (setWorkers (ws1 ++ setStage Finishing wk :: ws2)%list s)
| step_done s ws1 wk ws2 :
    crashed s = None ->
    workers s = (ws1 ++ wk :: ws2)%list -> stage wk = Finishing ->
    step E cookies headers params s
      (setWg (wg s - 1) (setWorkers (ws1 ++ ws2)%list s)).

(** The number of workers whose stage satisfies [P]. *)
Definition inStage (P : Stage -> bool) (ws : list Worker) : nat :=
  length (List.filter (fun wk => P (stage wk)) ws).

Definition isFetching (st : Stage) : bool :=
  match st with Fetching => true | _ => false end.

Definition notTicked (st : Stage) : bool :=
  match st with Fetching | Ticking => true | _ => false end.

Definition holdsSlot (st : Stage) : bool :=
  match st with Finishing => false | _ => true end.

Definition isPanicked (st : Stage) : bool :=
  match st with Panicking _ | Dying _ => true | _ => false end.

(** The workers the wait group still counts: those that have not run
    their [wg.Done()]. *)
Definition inWaitGroup (st : Stage) : bool :=
  match st with Dying _ => false | _ => true end.

(** The jobs the loop has not started yet. *)
Definition pending (m : Main) : list (gmap string string) :=
  match m with Looping urls => urls | _ => [] end.

(** ** Vocabulary of the statements *)

(** An attempt counts as failed when the transport returns an error, or a
    status other than 200 while the status is checked. *)
Definition failed (checkStatus : bool) (r : Error + Response) : bool :=
  match r with
  | inl _ => true
  | inr resp => checkStatus && negb (StatusCode resp =? 200)
  end.

(** The world after more events. *)
Definition after (w : World) (evs : list Event) : World :=
  {| files := files w; handles := handles w; trace := (trace w ++ evs)%list |}.

(** The requests among some events. *)
Definition requestsOf (evs : list Event) : list Request :=
  flat_map (fun ev => match ev with EvDo _ req _ => [req] | _ => [] end) evs.

(** The file name as the specification words it: the last path segment of
    the response URL is taken, then unescaped, then its extension is
    stripped, and the extension of the response URL is appended
    lower-cased. *)
Definition specFilename (E : Env) (requestURL : string) : option string :=
  option_map
    (fun name => utils.RemoveExtFromFilename name
                 +:+ strings.ToLower (unicodeLower E) (filepath.Ext requestURL))
    (url.PathUnescape (utils.GetLastPartOfURL requestURL)).

(** A run of [DownloadURL] after which no file is at [p], as the
    specification has it for a write that broke. *)
Definition leavesNoFile (E : Env) (fileURL filePath : string)
    (cookies : list Cookie) (headers params : gmap string string) (w : World)
    (p : string) : Prop :=
  files (snd (DownloadURL E fileURL filePath cookies headers params w)) !! p
  = None.

(** A run of [DownloadURL] that skips the job the way the specification
    words it: success, no file touched, and no request sent. *)
Definition skipsWithoutRequest (E : Env) (fileURL filePath : string)
    (cookies : list Cookie) (headers params : gmap string string) (w : World)
  : Prop :=
  let r := DownloadURL E fileURL filePath cookies headers params w in
  fst r = Ret None /\ files (snd r) = files w
  /\ requestsOf (trace (snd r)) = requestsOf (trace w).

(** A merge of the parameters in which a supplied key overwrites the
    values the URL had for it. *)
Definition overwritesByKey (params : gmap string string) (q : Query) : Prop :=
  exists query, q = Encoded query
    /\ forall key value, params !! key = Some value ->
                         query !! key = Some [value].

(** What holds of every state of [DownloadURLsParallel] for [K] jobs: the
    wait group counts the workers that have not run their [wg.Done()],
    the queue holds one token per worker that has not received from it,
    and every job is pending, or not yet ticked, or panicked, or counted
    by the bar. *)
Definition coherent (K : nat) (s : System) : Prop :=
  wg s = Z.of_nat (inStage inWaitGroup (workers s))
  /\ queueLen s = inStage holdsSlot (workers s)
  /\ (queueLen s <= queueCap s)%nat
  /\ utils.total (bar s) = Z.of_nat K
  /\ utils.count (bar s) + Z.of_nat (inStage notTicked (workers s))
     + Z.of_nat (inStage isPanicked (workers s))
     + Z.of_nat (length (pending (main s))) = Z.of_nat K
  /\ (main s = Returned -> inStage inWaitGroup (workers s) = 0%nat)
  /\ 0 <= utils.count (bar s).

(** The steps a worker has left, and those the whole call has left. *)
Definition stageWeight (st : Stage) : nat :=
  match st with
  | Fetching => 4 | Ticking => 3 | Releasing => 2 | Finishing => 1
  | Panicking _ => 2 | Dying _ => 1
  end.

Fixpoint workersLeft (ws : list Worker) : nat :=
  match ws with
  | [] => 0
  | wk :: ws' => stageWeight (stage wk) + workersLeft ws'
  end.

Definition workLeft (s : System) : nat :=
  (5 * length (pending (main s)) + workersLeft (workers s)
   + match main s with Looping _ => 2 | Waiting => 1 | Returned => 0 end)%nat.

(** A worker whose call of [DownloadURL] returns, whatever the state of
    the world. *)
Definition returnsOn (E : Env) (cookies : list Cookie)
    (headers params : gmap string string) (wk : Worker) : Prop :=
  forall w,
    exists err w',
      DownloadURL E (fileUrl wk) (filePath wk) cookies headers params w
      = (Ret err, w').

(** A batch whose bar has counted every job whenever the call has
    returned, as the specification has it. *)
Definition countsEveryJob (E : Env) (cookies : list Cookie)
    (headers params : gmap string string) (urls : list (gmap string string))
    (maxConcurrency : Z) (w : World) : Prop :=
  forall s,
    rtc (step E cookies headers params)
        (DownloadURLsParallel urls maxConcurrency w) s ->
    main s = Returned ->
    utils.count (bar s) = Z.of_nat (length urls).

(** A batch of one job. *)
Definition oneJob : list (gmap string string) :=
  [ {[ "url" := "https://example.com/a.jpg"; "filepath" := "/out/" ]} ].

(** The state in which the call for [oneJob] has returned although the
    download of the job, run under [E] from the world [w], panicked with
    [v]: the worker has run its [wg.Done()], holds its slot, and has not
    yet brought the process down. *)
Definition oneJobAbandoned (E : Env) (w : World) (v : string) : System :=
  {| world := snd (DownloadURL E "https://example.com/a.jpg" "/out/"
                     [] ∅ ∅ w);
     bar := {| utils.total := 1; utils.count := 0 |};
     wg := 0; queueCap := 1; queueLen := 1; queueClosed := true;
     main := Returned;
     workers := List.map (fun u => setStage (Dying v) (jobWorker u)) oneJob;
     crashed := None |}.

(** ** Vocabulary of the further properties *)

(** The events of [k] failed attempts in a row, the first of them attempt
    [i]: each request is followed by the sleep of line 63. *)
Fixpoint attemptEvents (client : Client) (req : Request) (k : nat) (i : Z)
  : list Event :=
  match k with
  | O => []
  | S k' => EvDo client req i :: EvSleep
            :: attemptEvents client req k' (i + 1)
  end.

(** The number of sleeps among some events. *)
Definition sleepsOf (evs : list Event) : nat :=
  length (List.filter (fun ev => match ev with EvSleep => true | _ => false end)
                      evs).

(** The first attempt meets a transport error, the second a status 503,
    the third is answered by [res]. *)
Definition flaky (res : Response) : Env := {|
  RETRY_COUNTER := 3;
  USER_AGENT := "Mozilla/5.0";
  unicodeLower := fun s => s;
  NewRequestErr := fun _ _ => None;
  URLQuery := fun _ => ∅;
  clientDo := fun _ _ i =>
    if i =? 1 then inl "net/http: timeout awaiting response headers"
    else if i =? 2
         then inr {| StatusCode := 503; RequestURL := RequestURL res;
                     Body := []; BodyErr := None |}
         else inr res;
  createErr := fun _ => None;
  removeErr := fun _ => None
|}.

(** [http.NewRequest] rejects the URL [:], and every file is out of
    reach of [os.Create]. *)
Definition hostile (res : Response) : Env := {|
  RETRY_COUNTER := 3;
  USER_AGENT := "Mozilla/5.0";
  unicodeLower := fun s => s;
  NewRequestErr := fun _ url => if String.eqb url ":"
                                then Some "missing protocol scheme" else None;
  URLQuery := fun _ => ∅;
  clientDo := fun _ _ _ => inr res;
  createErr := fun _ => Some "permission denied";
  removeErr := fun _ => None
|}.

(** Every attempt is answered by [res], and no file can be removed: the
    directories do not allow it. *)
Definition sticky (res : Response) : Env := {|
  RETRY_COUNTER := 3;
  USER_AGENT := "Mozilla/5.0";
  unicodeLower := fun s => s;
  NewRequestErr := fun _ _ => None;
  URLQuery := fun _ => ∅;
  clientDo := fun _ _ _ => inr res;
  createErr := fun _ => None;
  removeErr := fun _ => Some "operation not permitted"
|}.

(** The number of requests a world has seen. *)
Definition requestCount (w : World) : nat := length (requestsOf (trace w)).

(** ** Sample environments *)

(** Every attempt meets a transport error. *)
Definition refusing : Env := {|
  RETRY_COUNTER := 3;
  USER_AGENT := "Mozilla/5.0";
  unicodeLower := fun s => s;
  NewRequestErr := fun _ _ => None;
  URLQuery := fun _ => ∅;
  clientDo := fun _ _ _ => inl "dial tcp: connection refused";
  createErr := fun _ => None;
  removeErr := fun _ => None
|}.

(** Every attempt is answered by [res]; a URL that ends its path with
    [?page=1] carries that query. *)
Definition serving (res : Response) : Env := {|
  RETRY_COUNTER := 3;
  USER_AGENT := "Mozilla/5.0";
  unicodeLower := fun s => s;
  NewRequestErr := fun _ _ => None;
  URLQuery := fun url => if strings.Contains url "?page=1"
                         then {[ "page" := ["1"] ]} else ∅;
  clientDo := fun _ _ _ => inr res;
  createErr := fun _ => None;
  removeErr := fun _ => None
|}.

Definition emptyWorld : World := {| files := ∅; handles := 0; trace := [] |}.

Definition twoBytes : list Byte.byte := [Byte.x4a; Byte.x46].

(** A response with status 200 whose body streams to its end. *)
Definition okResponse (requestURL : string) : Response :=
  {| StatusCode := 200; RequestURL := requestURL; Body := twoBytes;
     BodyErr := None |}.

(** A session cookie scoped to [example.com]. *)
Definition sessionCookie : Cookie :=
  {| Name := "FANBOXSESSID"; Value := "0123_abcdef"; Domain := "example.com" |}.

(** A response with status 200 whose stream breaks after one byte. *)
Definition brokenResponse (requestURL : string) : Response :=
  {| StatusCode := 200; RequestURL := requestURL; Body := twoBytes;
     BodyErr := Some (1%nat, "unexpected EOF") |}.

(** A disk on which [/out/report.pdf] holds [content]. *)
Definition reportWorld (content : list Byte.byte) : World :=
  {| files := {[ "/out/report.pdf" := content ]}; handles := 0; trace := [] |}.

(** The state in which the call for [oneJob] has returned, its download
    having run under [E] from the world [w]. *)
Definition oneJobReturned (E : Env) (w : World) : System :=
  {| world := snd (DownloadURL E "https://example.com/a.jpg" "/out/"
                     [] ∅ ∅ w);
     bar := {| utils.total := 1; utils.count := 1 |};
     wg := 0; queueCap := 1; queueLen := 0; queueClosed := true;
     main := Returned; workers := []; crashed := None |}.

(** A run whose name follows [specFilename]. *)
Definition followsSpecFilename (E : Env) (filePath : string) (res : Response)
    (w : World) : Prop :=
  exists name, specFilename E (RequestURL res) = Some name
    /\ fst (resolvePath E filePath res w) = Ret (filepath.Join filePath name).

(** * Properties *)

(** ** The library functions on sample inputs *)

Example Contains_notexample :
  strings.Contains "https://notexample.com/a" "example.com" = true.
Proof. reflexivity. Qed.

Example TrimSuffix_gz : strings.TrimSuffix "a.tar.gz" ".gz" = "a.tar".
Proof. reflexivity. Qed.

Example ToLower_JPG : strings.ToLower (fun s => s) ".JPG" = ".jpg".
Proof. reflexivity. Qed.

Example PathUnescape_space :
  url.PathUnescape "My%20File.final.JPG" = Some "My File.final.JPG".
Proof. reflexivity. Qed.

Example PathUnescape_malformed : url.PathUnescape "a.jpg?rate=100%" = None.
Proof. reflexivity. Qed.

Example Ext_file : filepath.Ext "/out/report.PDF" = ".PDF".
Proof. reflexivity. Qed.

Example Ext_directory : filepath.Ext "/out.d/report" = "".
Proof. reflexivity. Qed.

Example Ext_trailing_separator : filepath.Ext "/out/" = "".
Proof. reflexivity. Qed.

Example Clean_double_separator :
  filepath.Clean "/out//My File.final.jpg" = "/out/My File.final.jpg".
Proof. reflexivity. Qed.

Example Clean_dotdot : filepath.Clean "a/../../b/./c/" = "../b/c".
Proof. reflexivity. Qed.

Example Clean_rooted_dotdot : filepath.Clean "/../a/b/../.." = "/".
Proof. reflexivity. Qed.

Example Clean_empty : filepath.Clean "" = ".".
Proof. reflexivity. Qed.

Example Join_directory :
  filepath.Join "/out/" "My File.final.jpg" = "/out/My File.final.jpg".
Proof. reflexivity. Qed.

Example Dir_file : filepath.Dir "/out/report.PDF" = "/out".
Proof. reflexivity. Qed.

Example Dir_bare : filepath.Dir "report.PDF" = ".".
Proof. reflexivity. Qed.

Example GetLastPartOfURL_query :
  utils.GetLastPartOfURL "https://cdn.example.com/media/a.JPG?sig=ab/cd#top"
  = "a.JPG".
Proof. reflexivity. Qed.

Example GetLastPartOfURL_no_path :
  utils.GetLastPartOfURL "https://cdn.example.com" = "".
Proof. reflexivity. Qed.

Example GetLastPartOfURL_relative :
  utils.GetLastPartOfURL "media/a.JPG" = "a.JPG".
Proof. reflexivity. Qed.

Example GetLastPartOfURL_segment :
  utils.GetLastPartOfURL "https://cdn.example.com/media/a.JPG" = "a.JPG".
Proof. reflexivity. Qed.

Example wrap64_timeout : time.wrap64 (25 * 60 * time.Second) = 1500000000000.
Proof. reflexivity. Qed.

(** ** Strings and paths *)

Lemma string_app_cons (c : ascii) (s t : string) :
  String c s +:+ t = String c (s +:+ t).
Proof. reflexivity. Qed.

Lemma string_app_empty_r (s : string) : s +:+ "" = s.
Proof. induction s as [|c s IH]; [reflexivity|]. now rewrite string_app_cons, IH. Qed.

Lemma string_app_assoc (s t u : string) : (s +:+ t) +:+ u = s +:+ (t +:+ u).
Proof.
  induction s as [|c s IH]; [reflexivity|]. now rewrite !string_app_cons, IH.
Qed.

Lemma string_length_app (s t : string) :
  String.length (s +:+ t) = (String.length s + String.length t)%nat.
Proof.
  induction s as [|c s IH]; [reflexivity|].
  rewrite string_app_cons. simpl. now rewrite IH.
Qed.

Lemma string_of_list_ascii_app (l k : list ascii) :
  string_of_list_ascii (l ++ k)
  = string_of_list_ascii l +:+ string_of_list_ascii k.
Proof.
  induction l as [|c l IH]; [reflexivity|].
  simpl. now rewrite IH, string_app_cons.
Qed.

(** [HasPrefix] and [Contains] decide what their names say. *)
Lemma HasPrefix_spec (s p : string) :
  strings.HasPrefix s p = true <-> exists t, s = p +:+ t.
Proof.
  revert s. induction p as [|c p IH]; intros s; simpl.
  - split; [intros _; now exists s | reflexivity].
  - destruct s as [|d s].
    + split; [discriminate | intros [t Ht]; discriminate].
    + rewrite andb_true_iff, Ascii.eqb_eq, IH. split.
      * intros [-> [t ->]]. now exists t.
      * intros [t Ht]. rewrite string_app_cons in Ht. injection Ht as -> ->. eauto.
Qed.

Lemma Contains_spec (s substr : string) :
  strings.Contains s substr = true <-> exists a b, s = a +:+ substr +:+ b.
Proof.
  induction s as [|c s IH]; simpl.
  - rewrite orb_false_r, HasPrefix_spec. split.
    + intros [t Ht]. now exists "", t.
    + intros [a [b Hab]]. destruct a; [now exists b | discriminate].
  - rewrite orb_true_iff, HasPrefix_spec, IH. split.
    + intros [[t Ht] | [a [b Hab]]].
      * now exists "", t.
      * exists (String c a), b. now rewrite string_app_cons, Hab.
    + intros [a [b Hab]]. destruct a as [|d a].
      * left. now exists b.
      * right. rewrite string_app_cons in Hab. injection Hab as _ ->. eauto.
Qed.

(** [filepath.Ext] returns a suffix of the path. *)
Lemma extScan_suffix (rpath seen : list ascii) :
  exists stem,
    string_of_list_ascii (rev rpath ++ seen)
    = stem +:+ filepath.extScan rpath seen.
Proof.
  revert seen. induction rpath as [|c r IH]; intros seen; simpl.
  - eexists. now rewrite string_app_empty_r.
  - rewrite <- List.app_assoc. simpl.
    destruct (filepath.isPathSeparator c).
    { eexists. now rewrite string_app_empty_r. }
    destruct (Ascii.eqb c ".").
    { exists (string_of_list_ascii (rev r)). apply string_of_list_ascii_app. }
    apply IH.
Qed.

Lemma Ext_suffix (path : string) :
  exists stem, path = stem +:+ filepath.Ext path.
Proof.
  destruct (extScan_suffix (rev (list_ascii_of_string path)) []) as [stem H].
  exists stem. unfold filepath.Ext. rewrite <- H.
  now rewrite rev_involutive, app_nil_r, string_of_list_ascii_of_string.
Qed.

Lemma HasSuffix_app (stem suffix : string) :
  strings.HasSuffix (stem +:+ suffix) suffix = true.
Proof.
  induction stem as [|c stem IH].
  - destruct suffix; simpl; now rewrite ?Ascii.eqb_refl, ?String.eqb_refl.
  - rewrite string_app_cons. simpl. rewrite IH. apply orb_true_r.
Qed.

Lemma substring_app (stem suffix : string) :
  String.substring 0 (String.length stem) (stem +:+ suffix) = stem.
Proof.
  induction stem as [|c stem IH].
  - now destruct suffix.
  - rewrite string_app_cons. simpl. now rewrite IH.
Qed.

Lemma TrimSuffix_app (stem suffix : string) :
  strings.TrimSuffix (stem +:+ suffix) suffix = stem.
Proof.
  unfold strings.TrimSuffix. rewrite HasSuffix_app, string_length_app.
  replace (String.length stem + String.length suffix - String.length suffix)%nat
    with (String.length stem) by lia.
  apply substring_app.
Qed.

(** Cutting the extension off and putting it back gives the path. *)
Lemma RemoveExt_Ext (path : string) :
  utils.RemoveExtFromFilename path +:+ filepath.Ext path = path.
Proof.
  destruct (Ext_suffix path) as [stem H].
  unfold utils.RemoveExtFromFilename.
  rewrite H at 1. rewrite TrimSuffix_app. now rewrite <- H.
Qed.

Lemma RemoveExt_stem (stem path : string) :
  path = stem +:+ filepath.Ext path ->
  utils.RemoveExtFromFilename path = stem.
Proof.
  intros H. unfold utils.RemoveExtFromFilename.
  rewrite H at 1. apply TrimSuffix_app.
Qed.

(** ** The dispatcher *)

Section Dispatcher.

Variable E : Env.

(** The retry loop never panics and touches neither files nor handles. *)
Lemma attempts_returns client req checkStatus n i w :
  exists r w', attempts E client req checkStatus n i w = (Ret r, w')
               /\ files w' = files w /\ handles w' = handles w.
Proof.
  revert i w. induction n as [|n IH]; intros i w; simpl.
  - now exists None, w.
  - unfold bind, Do, emit, ret, time.Sleep; simpl.
    destruct (clientDo E client req i) as [e|resp].
    + match goal with
      | |- context [attempts E client req _ n ?j ?W] =>
          destruct (IH j W) as (r & w' & -> & Hf & Hh)
      end.
      now exists r, w'.
    + destruct checkStatus; simpl.
      * destruct (StatusCode resp =? 200).
        { eexists _, _. split; [reflexivity|]. now split. }
        match goal with
        | |- context [attempts E client req _ n ?j ?W] =>
            destruct (IH j W) as (r & w' & -> & Hf & Hh)
        end.
        now exists r, w'.
      * eexists _, _. split; [reflexivity|]. now split.
Qed.

(** When every attempt fails, the loop runs out. *)
Lemma attempts_exhausted client req checkStatus n i w :
  (forall j, i <= j < i + Z.of_nat n ->
             failed checkStatus (clientDo E client req j) = true) ->
  fst (attempts E client req checkStatus n i w) = Ret None.
Proof.
  revert i w. induction n as [|n IH]; intros i w Hall; simpl; [reflexivity|].
  unfold bind, Do, emit, ret, time.Sleep; simpl.
  assert (Hi : failed checkStatus (clientDo E client req i) = true)
    by (apply Hall; lia).
  assert (Hrest : forall j, i + 1 <= j < i + 1 + Z.of_nat n ->
                            failed checkStatus (clientDo E client req j) = true)
    by (intros j Hj; apply Hall; lia).
  destruct (clientDo E client req i) as [e|resp]; simpl in Hi.
  - now apply IH.
  - destruct checkStatus; [|discriminate]. simpl in *.
    destruct (StatusCode resp =? 200); [discriminate|]. now apply IH.
Qed.

(** Whatever the attempts did, the [error] that [CallRequest] returns once
    the request is built is [nil]: the [err] it returns is the one of
    [http.NewRequest]. *)
Lemma CallRequest_returns method url timeout cookies additionalHeaders params
    checkStatus w :
  NewRequestErr E method url = None ->
  exists r w',
    CallRequest E method url timeout cookies additionalHeaders params
                checkStatus w = (Ret (r, None), w')
    /\ files w' = files w /\ handles w' = handles w.
Proof.
  intros Hnew. unfold CallRequest. rewrite Hnew. unfold bind.
  match goal with
  | |- context [attempts E ?c ?rq ?cs ?n ?i w] =>
      destruct (attempts_returns c rq cs n i w) as (r & w' & -> & Hf & Hh)
  end.
  destruct r as [resp|].
  - exists (Some resp), w'. now split.
  - unfold utils.LogError, bind, emit, ret; simpl.
    eexists None, _. split; [reflexivity|]. now split.
Qed.

Lemma CallRequest_files method url timeout cookies additionalHeaders params
    checkStatus w :
  files (snd (CallRequest E method url timeout cookies additionalHeaders params
                          checkStatus w)) = files w
  /\ handles (snd (CallRequest E method url timeout cookies additionalHeaders
                               params checkStatus w)) = handles w.
Proof.
  destruct (NewRequestErr E method url) as [e|] eqn:Hnew.
  - unfold CallRequest. rewrite Hnew. now split.
  - destruct (CallRequest_returns method url timeout cookies additionalHeaders
                params checkStatus w Hnew) as (r & w' & -> & Hf & Hh).
    now split.
Qed.

(** Exhausted retries: a [nil] response with a [nil] error, and one
    non-fatal entry in the log. *)
Lemma CallRequest_exhausted method url timeout cookies additionalHeaders params
    checkStatus w :
  NewRequestErr E method url = None ->
  (forall j, 1 <= j <= RETRY_COUNTER E ->
     failed checkStatus
       (clientDo E {| Timeout := time.wrap64 (timeout * time.Second) |}
          (buildRequest E method url cookies additionalHeaders params) j)
     = true) ->
  exists w',
    CallRequest E method url timeout cookies additionalHeaders params
                checkStatus w = (Ret (None, None), w')
    /\ files w' = files w /\ handles w' = handles w
    /\ exists msg, last (trace w') = Some (EvLog None msg false).
Proof.
  intros Hnew Hall. unfold CallRequest. rewrite Hnew. unfold bind.
  match goal with
  | |- context [attempts E ?c ?rq ?cs ?n ?i w] =>
      pose proof (attempts_exhausted c rq cs n i w) as Hex;
      destruct (attempts_returns c rq cs n i w) as (r & w' & Hrun & Hf & Hh)
  end.
  rewrite Hrun in *. simpl in Hex.
  assert (Hr : r = None).
  { assert (H : Ret r = Ret None); [|now injection H].
    apply Hex. intros j Hj. apply Hall. lia. }
  subst r. unfold utils.LogError, bind, emit, ret; simpl.
  eexists. split; [reflexivity|]. simpl. repeat split; try assumption.
  eexists. apply last_snoc.
Qed.

(** Every request that the loop sends is the one it was given. *)
Lemma attempts_trace client req checkStatus n i w :
  exists evs,
    trace (snd (attempts E client req checkStatus n i w))
    = (trace w ++ evs)%list
    /\ forall r, In r (requestsOf evs) -> r = req.
Proof.
  revert i w. induction n as [|n IH]; intros i w; simpl.
  - exists []. split; [now rewrite app_nil_r | intros r []].
  - unfold bind, Do, emit, ret, time.Sleep; simpl.
    assert (Hone : exists evs,
               (trace w ++ [EvDo client req i])%list = (trace w ++ evs)%list
               /\ forall r, In r (requestsOf evs) -> r = req).
    { exists [EvDo client req i]. split; [reflexivity|].
      intros r [<-|[]]. reflexivity. }
    assert (Hmore : exists evs,
               trace (snd (attempts E client req checkStatus n (i + 1)
                             {| files := files w; handles := handles w;
                                trace := ((trace w ++ [EvDo client req i])
                                          ++ [EvSleep])%list |}))
               = (trace w ++ evs)%list
               /\ forall r, In r (requestsOf evs) -> r = req).
    { match goal with
      | |- context [attempts E client req _ n ?j ?W] =>
          destruct (IH j W) as (evs & -> & Hevs)
      end.
      exists ([EvDo client req i; EvSleep] ++ evs)%list. simpl. split.
      - now rewrite <- !List.app_assoc.
      - intros r [<-|Hr]; [reflexivity | now apply Hevs]. }
    destruct (clientDo E client req i) as [e|resp]; [exact Hmore|].
    destruct checkStatus; simpl; [|exact Hone].
    destruct (StatusCode resp =? 200); [exact Hone | exact Hmore].
Qed.

Lemma requestsOf_app (evs1 evs2 : list Event) :
  requestsOf (evs1 ++ evs2) = (requestsOf evs1 ++ requestsOf evs2)%list.
Proof. unfold requestsOf. now rewrite flat_map_app. Qed.

(** Every request that [CallRequest] sends is [buildRequest]. *)
Lemma CallRequest_requests method url timeout cookies additionalHeaders params
    checkStatus w evs :
  trace (snd (CallRequest E method url timeout cookies additionalHeaders params
                          checkStatus w)) = (trace w ++ evs)%list ->
  forall r, In r (requestsOf evs) ->
            r = buildRequest E method url cookies additionalHeaders params.
Proof.
  unfold CallRequest.
  destruct (NewRequestErr E method url) as [e|].
  { simpl. intros H r Hr.
    assert (evs = []) as ->; [|destruct Hr].
    apply (app_inv_head (trace w)). now rewrite app_nil_r. }
  unfold bind.
  match goal with
  | |- context [attempts E ?c ?rq ?cs ?n ?i w] =>
      destruct (attempts_trace c rq cs n i w) as (evs' & Htr & Hevs);
      destruct (attempts E c rq cs n i w) as [[[resp|]|a] w'] eqn:Hrun
  end; simpl in *; rewrite Htr; intros H r Hr.
  - apply app_inv_head in H. subst evs'. now apply Hevs.
  - rewrite <- List.app_assoc in H. apply app_inv_head in H. subst evs.
    rewrite requestsOf_app in Hr. simpl in Hr. rewrite app_nil_r in Hr.
    now apply Hevs.
  - apply app_inv_head in H. subst evs'. now apply Hevs.
Qed.

(** A response comes out of the loop only after a request went out. *)
Lemma attempts_sent client req checkStatus n i w resp w' :
  attempts E client req checkStatus n i w = (Ret (Some resp), w') ->
  exists evs, trace w' = (trace w ++ EvDo client req i :: evs)%list.
Proof.
  destruct n as [|n]; simpl; [discriminate|].
  unfold bind, Do, emit, ret, time.Sleep; simpl.
  assert (Hmore : attempts E client req checkStatus n (i + 1)
                    {| files := files w; handles := handles w;
                       trace := ((trace w ++ [EvDo client req i])
                                 ++ [EvSleep])%list |}
                  = (Ret (Some resp), w') ->
                  exists evs,
                    trace w' = (trace w ++ EvDo client req i :: evs)%list).
  { intros H.
    match type of H with
    | attempts E client req _ n ?j ?W = _ =>
        destruct (attempts_trace client req checkStatus n j W) as (evs & Htr & _)
    end.
    rewrite H in Htr. simpl in Htr. exists (EvSleep :: evs).
    rewrite Htr, <- !List.app_assoc. reflexivity. }
  destruct (clientDo E client req i) as [e|r]; [exact Hmore|].
  destruct checkStatus; simpl.
  - destruct (StatusCode r =? 200); [|exact Hmore].
    intros H. injection H as _ <-. now exists [].
  - intros H. injection H as _ <-. now exists [].
Qed.

(** A dispatch that succeeded sent its first request, and left the files
    as they were. *)
Lemma CallRequest_dispatched method url timeout cookies additionalHeaders
    params checkStatus w res err w1 :
  CallRequest E method url timeout cookies additionalHeaders params
              checkStatus w = (Ret (Some res, err), w1) ->
  files w1 = files w /\ handles w1 = handles w
  /\ exists evs,
       trace w1
       = (trace w
          ++ EvDo {| Timeout := time.wrap64 (timeout * time.Second) |}
               (buildRequest E method url cookies additionalHeaders params) 1
             :: evs)%list.
Proof.
  intros Hcall.
  pose proof (CallRequest_files method url timeout cookies additionalHeaders
                params checkStatus w) as [Hf Hh].
  rewrite Hcall in Hf, Hh. simpl in Hf, Hh.
  split; [exact Hf | split; [exact Hh|]].
  unfold CallRequest in Hcall.
  destruct (NewRequestErr E method url); [discriminate|].
  unfold bind in Hcall.
  match type of Hcall with
  | context [attempts E ?c ?rq ?cs ?n ?i w] =>
      destruct (attempts E c rq cs n i w) as [[[resp|]|a] w'] eqn:Hrun
  end; simpl in Hcall.
  - injection Hcall as _ _ <-. exact (attempts_sent _ _ _ _ _ _ _ _ Hrun).
  - discriminate.
  - discriminate.
Qed.

End Dispatcher.

(** ** The downloader *)

Section Downloader.

Variable E : Env.

(** The path for a destination with an extension: its own extension
    lower-cased, whatever the response. *)
Lemma resolvePath_file filePath res w :
  filepath.Ext filePath <> "" ->
  resolvePath E filePath res w
  = (Ret (utils.RemoveExtFromFilename filePath
          +:+ strings.ToLower (unicodeLower E) (filepath.Ext filePath)),
     after w [EvMkdirAll (filepath.Dir filePath)]).
Proof.
  intros Hext. unfold resolvePath.
  destruct (String.eqb_spec (filepath.Ext filePath) ""); [contradiction|].
  reflexivity.
Qed.

(** The path for a destination without extension: the directory joined
    with the name drawn from the unescaped URL of the response. *)
Lemma resolvePath_directory filePath res w u :
  filepath.Ext filePath = "" ->
  url.PathUnescape (RequestURL res) = Some u ->
  resolvePath E filePath res w
  = (Ret (filepath.Join filePath
            (utils.RemoveExtFromFilename (utils.GetLastPartOfURL u)
             +:+ strings.ToLower (unicodeLower E)
                   (filepath.Ext (utils.GetLastPartOfURL u)))),
     after w [EvMkdirAll filePath]).
Proof.
  intros Hext Hu. unfold resolvePath. rewrite Hext, Hu. reflexivity.
Qed.

Lemma resolvePath_files filePath res w :
  files (snd (resolvePath E filePath res w)) = files w
  /\ handles (snd (resolvePath E filePath res w)) = handles w.
Proof.
  unfold resolvePath.
  destruct (String.eqb (filepath.Ext filePath) ""); [|now split].
  unfold bind, os.MkdirAll, emit, panic, ret; simpl.
  destruct (url.PathUnescape (RequestURL res)); now split.
Qed.

(** In both branches the path is resolved after one [os.MkdirAll]. *)
Lemma resolvePath_trace filePath res w o w' :
  resolvePath E filePath res w = (o, w') ->
  exists dir, w' = after w [EvMkdirAll dir].
Proof.
  unfold resolvePath, bind, os.MkdirAll, emit, panic, ret.
  destruct (String.eqb (filepath.Ext filePath) ""); simpl.
  - destruct (url.PathUnescape (RequestURL res));
      intros H; injection H as _ <-; now eexists.
  - intros H; injection H as _ <-; now eexists.
Qed.

(** A file that is present and not empty: the download is skipped. *)
Lemma writeBody_present fileURL filePath res w b bs :
  files w !! filePath = Some (b :: bs) ->
  writeBody E fileURL filePath res w = (Ret None, w).
Proof.
  intros H. unfold writeBody, bind, utils.CheckIfFileIsEmpty. now rewrite H.
Qed.

(** A file that is absent or empty, and a body that streams to its end. *)
Lemma writeBody_written fileURL filePath res w :
  files w !! filePath = None \/ files w !! filePath = Some [] ->
  createErr E filePath = None ->
  BodyErr res = None ->
  writeBody E fileURL filePath res w
  = (Ret None, {| files := <[filePath := Body res]> (files w);
                  handles := handles w; trace := trace w |}).
Proof.
  intros Hfile Hcreate Hbody.
  unfold writeBody, bind, utils.CheckIfFileIsEmpty, os.Create, io.Copy,
    os.Close, ret.
  assert (Hempty : match files w !! filePath with
                   | Some (_ :: _) => false
                   | _ => true
                   end = true) by (destruct Hfile as [-> | ->]; reflexivity).
  rewrite Hempty, Hcreate, Hbody. simpl. now rewrite insert_insert_eq.
Qed.

(** A file that is absent or empty, and a body whose stream breaks. *)
Lemma writeBody_broken fileURL filePath res w n e :
  files w !! filePath = None \/ files w !! filePath = Some [] ->
  createErr E filePath = None ->
  BodyErr res = Some (n, e) ->
  writeBody E fileURL filePath res w
  = (Ret None,
     {| files := match removeErr E filePath with
                 | Some _ => <[filePath := firstn n (Body res)]> (files w)
                 | None => delete filePath (files w)
                 end;
        handles := handles w;
        trace := (trace w
                  ++ [EvLog (Some e)
                        ("failed to download " +:+ fileURL +:+ " due to " +:+ e)
                        false])%list |}).
Proof.
  intros Hfile Hcreate Hbody.
  unfold writeBody, bind, utils.CheckIfFileIsEmpty, os.Create, io.Copy,
    os.Close, os.Remove, utils.LogError, emit, ret, bind.
  assert (Hempty : match files w !! filePath with
                   | Some (_ :: _) => false
                   | _ => true
                   end = true) by (destruct Hfile as [-> | ->]; reflexivity).
  rewrite Hempty, Hcreate, Hbody. simpl.
  destruct (removeErr E filePath); simpl;
    now rewrite ?insert_insert_eq, ?delete_insert_eq.
Qed.

(** Whatever happens, [writeBody] leaves alone every file that is present
    and not empty. *)
Lemma writeBody_keeps fileURL filePath res w p b bs :
  files w !! p = Some (b :: bs) ->
  files (snd (writeBody E fileURL filePath res w)) !! p = Some (b :: bs).
Proof.
  intros Hp.
  unfold writeBody, bind, utils.CheckIfFileIsEmpty, os.Create, io.Copy,
    os.Close, os.Remove, utils.LogError, emit, ret, panic, bind.
  destruct (decide (p = filePath)) as [->|Hne].
  - now rewrite Hp.
  - destruct (files w !! filePath) as [[|c cs]|]; simpl; try assumption;
      destruct (createErr E filePath); simpl; try assumption;
      destruct (BodyErr res) as [[n e]|]; simpl;
      try destruct (removeErr E filePath); simpl;
      rewrite ?lookup_delete_ne, ?lookup_insert_ne by congruence; assumption.
Qed.

Lemma writeBody_others fileURL filePath res w q :
  q <> filePath ->
  files (snd (writeBody E fileURL filePath res w)) !! q = files w !! q.
Proof.
  intros Hne.
  unfold writeBody, bind, utils.CheckIfFileIsEmpty, os.Create, io.Copy,
    os.Close, os.Remove, utils.LogError, emit, ret, panic, bind.
  destruct (files w !! filePath) as [[|c cs]|]; simpl; try reflexivity;
    destruct (createErr E filePath); simpl; try reflexivity;
    destruct (BodyErr res) as [[n e]|]; simpl;
    try destruct (removeErr E filePath); simpl;
    rewrite ?lookup_delete_ne, ?lookup_insert_ne by congruence; reflexivity.
Qed.

(** [writeBody] returns or panics; it never exits the process. *)
Lemma writeBody_outcome fileURL filePath res w :
  match fst (writeBody E fileURL filePath res w) with
  | Ret _ | Stop (Panicked _) => True
  | Stop (Exited _) => False
  end.
Proof.
  unfold writeBody, bind, utils.CheckIfFileIsEmpty, os.Create, io.Copy,
    os.Close, os.Remove, utils.LogError, emit, ret, panic, bind.
  destruct (files w !! filePath) as [[|c cs]|]; simpl; try exact I;
    destruct (createErr E filePath); simpl; try exact I;
    destruct (BodyErr res) as [[n e]|]; simpl;
    try destruct (removeErr E filePath); exact I.
Qed.

(** [DownloadURL] after a dispatch that succeeded. *)
Lemma DownloadURL_dispatched fileURL filePath cookies headers params w res w1 :
  CallRequest E "GET" fileURL (25 * 60) cookies headers params true w
  = (Ret (Some res, None), w1) ->
  DownloadURL E fileURL filePath cookies headers params w
  = defer (emit EvBodyClose)
      (do p <- resolvePath E filePath res; writeBody E fileURL p res) w1.
Proof.
  intros H. unfold DownloadURL. unfold bind at 1. now rewrite H.
Qed.

(** ... and once the path of the file is known. *)
Lemma DownloadURL_resolved fileURL filePath cookies headers params w res w1
    p w2 :
  CallRequest E "GET" fileURL (25 * 60) cookies headers params true w
  = (Ret (Some res, None), w1) ->
  resolvePath E filePath res w1 = (Ret p, w2) ->
  DownloadURL E fileURL filePath cookies headers params w
  = (fst (writeBody E fileURL p res w2),
     after (snd (writeBody E fileURL p res w2)) [EvBodyClose]).
Proof.
  intros Hcall Hpath.
  rewrite (DownloadURL_dispatched _ _ _ _ _ _ _ _ Hcall).
  unfold defer, bind. rewrite Hpath.
  pose proof (writeBody_outcome fileURL p res w2) as Hout.
  destruct (writeBody E fileURL p res w2) as [[o|[v|c]] w3]; simpl in *;
    [reflexivity | reflexivity | contradiction].
Qed.

(** Whatever the outcome, [DownloadURL] leaves alone every file that is
    present and not empty. *)
Lemma DownloadURL_keeps fileURL filePath cookies headers params w p b bs :
  files w !! p = Some (b :: bs) ->
  files (snd (DownloadURL E fileURL filePath cookies headers params w)) !! p
  = Some (b :: bs).
Proof.
  intros Hp.
  destruct (NewRequestErr E "GET" fileURL) as [e|] eqn:Hnew.
  { unfold DownloadURL, bind, CallRequest. rewrite Hnew. exact Hp. }
  destruct (CallRequest_returns E "GET" fileURL (25 * 60) cookies headers
              params true w Hnew) as (r & w1 & Hcall & Hf & _).
  destruct r as [res|].
  - destruct (resolvePath E filePath res w1) as [o w2] eqn:Hpath.
    pose proof (resolvePath_files filePath res w1) as [Hf2 _].
    rewrite Hpath in Hf2. simpl in Hf2.
    destruct o as [p'|a].
    + rewrite (DownloadURL_resolved _ _ _ _ _ _ _ _ _ _ Hcall Hpath). simpl.
      apply writeBody_keeps. now rewrite Hf2, Hf.
    + rewrite (DownloadURL_dispatched _ _ _ _ _ _ _ _ Hcall).
      unfold defer, bind. rewrite Hpath.
      destruct a; simpl; now rewrite Hf2, Hf.
  - unfold DownloadURL. unfold bind at 1. rewrite Hcall. simpl. now rewrite Hf.
Qed.

(** Exhausted retries: [DownloadURL] reads the body of a [nil] response
    and panics, after the log entry and before any file operation. *)
Lemma DownloadURL_exhausted fileURL filePath cookies headers params w :
  NewRequestErr E "GET" fileURL = None ->
  (forall j, 1 <= j <= RETRY_COUNTER E ->
     failed true
       (clientDo E {| Timeout := time.wrap64 (25 * 60 * time.Second) |}
          (buildRequest E "GET" fileURL cookies headers params) j) = true) ->
  exists w',
    DownloadURL E fileURL filePath cookies headers params w
    = (Stop (Panicked "invalid memory address or nil pointer dereference"), w')
    /\ files w' = files w /\ handles w' = handles w
    /\ exists msg, last (trace w') = Some (EvLog None msg false).
Proof.
  intros Hnew Hall.
  destruct (CallRequest_exhausted E "GET" fileURL (25 * 60) cookies headers
              params true w Hnew Hall) as (w' & Hcall & Hf & Hh & Hlog).
  exists w'. unfold DownloadURL. unfold bind at 1. rewrite Hcall.
  now repeat split.
Qed.

End Downloader.

(** ** The claims about the dispatcher *)

(** C1 (defect of the code).  The specification has [CallRequest] return
    the transport error of the last failed attempt once the retries are
    exhausted.  With three attempts that all meet the transport error
    [dial tcp: connection refused], the code logs its non-fatal message
    with a [nil] error and returns a [nil] response with a [nil] error:
    the [err] it logs and returns is the one of [http.NewRequest]; the
    [err] of [client.Do] is declared anew inside the loop. *)
Theorem exhausted_retries_lose_the_transport_error :
  let client := {| Timeout := 10000000000 |} in
  let req := {| Method := "GET"; URL := "https://example.com/a.jpg";
                Cookies := []; Header := [("User-Agent", "Mozilla/5.0")];
                RawQuery := Unchanged |} in
  (forall i, clientDo refusing client req i
             = inl "dial tcp: connection refused")
  /\ CallRequest refusing "GET" "https://example.com/a.jpg" 10 [] ∅ ∅ true
       emptyWorld
     = (Ret (None, None),
        after emptyWorld
          [EvDo client req 1; EvSleep; EvDo client req 2; EvSleep;
           EvDo client req 3; EvSleep;
           EvLog None
             "failed to send a request to https://example.com/a.jpg after 3 retries"
             false]).
Proof. split; [reflexivity | vm_compute; reflexivity]. Qed.

(** C6.  A cookie of the cookie set is attached to the request that
    [CallRequest] sends exactly when its domain is a substring of the URL
    string; the attached cookies are the matching ones, in the order of
    the set. *)
Theorem cookie_attached_iff_domain_in_url E method url timeout cookies
    additionalHeaders params checkStatus w evs client req i :
  trace (snd (CallRequest E method url timeout cookies additionalHeaders params
                          checkStatus w)) = (trace w ++ evs)%list ->
  In (EvDo client req i) evs ->
  Cookies req
  = List.filter (fun cookie => strings.Contains url (Domain cookie)) cookies
  /\ forall cookie,
       In cookie (Cookies req)
       <-> In cookie cookies
           /\ exists a b, url = a +:+ Domain cookie +:+ b.
Proof.
  intros Htrace Hsent.
  assert (Hreq : req = buildRequest E method url cookies additionalHeaders
                         params).
  { apply (CallRequest_requests E _ _ _ _ _ _ _ _ _ Htrace).
    unfold requestsOf. apply in_flat_map.
    exists (EvDo client req i). split; [assumption | now left]. }
  subst req. simpl. split; [reflexivity|].
  intros cookie. now rewrite filter_In, Contains_spec.
Qed.

(** The cookie for [example.com] goes out to [notexample.com]. *)
Lemma cookie_attached_to_notexample :
  let url := "https://notexample.com/feed" in
  let client := {| Timeout := 10000000000 |} in
  let req := {| Method := "GET"; URL := url; Cookies := [sessionCookie];
                Header := [("User-Agent", "Mozilla/5.0")];
                RawQuery := Unchanged |} in
  trace (snd (CallRequest (serving (okResponse url)) "GET" url 10
                [sessionCookie] ∅ ∅ true emptyWorld))
  = (trace emptyWorld ++ [EvDo client req 1])%list
  /\ In sessionCookie (Cookies req).
Proof.
  intros url client req.
  assert (H1 : trace (snd (CallRequest (serving (okResponse url)) "GET" url 10
                             [sessionCookie] ∅ ∅ true emptyWorld))
               = (trace emptyWorld ++ [EvDo client req 1])%list)
    by (vm_compute; reflexivity).
  split; [exact H1|].
  apply (proj2 (cookie_attached_iff_domain_in_url
                  (serving (okResponse url)) "GET" url 10 [sessionCookie] ∅ ∅
                  true emptyWorld [EvDo client req 1] client req 1 H1
                  (or_introl eq_refl))).
  split; [now left|]. exists "https://not", "/feed". reflexivity.
Defined.

(** The values of one key after [query.Add]. *)
Lemma ValuesAdd_lookup (key value k : string)
    (query : gmap string (list string)) :
  ValuesAdd key value query !! k
  = if decide (key = k)
    then Some (default [] (query !! k) ++ [value])%list
    else query !! k.
Proof.
  unfold ValuesAdd. rewrite lookup_insert.
  destruct (decide (key = k)) as [->|]; reflexivity.
Qed.

(** The values of a key after the range over the parameters, for any
    order in which the range visits a map (each key once). *)
Lemma addParams_lookup (kvs : list (string * string))
    (query : gmap string (list string)) (k : string) :
  NoDup kvs.*1 ->
  addParams kvs query !! k
  = match (list_to_map kvs : gmap string string) !! k with
    | Some value => Some (default [] (query !! k) ++ [value])%list
    | None => query !! k
    end.
Proof.
  revert query. induction kvs as [|[k0 v0] kvs IH]; intros query Hnd.
  - reflexivity.
  - apply NoDup_cons in Hnd as [Hfresh Hnd].
    change (addParams ((k0, v0) :: kvs) query)
      with (addParams kvs (ValuesAdd k0 v0 query)).
    rewrite (IH _ Hnd), list_to_map_cons, lookup_insert, !ValuesAdd_lookup.
    destruct (decide (k0 = k)) as [->|Hne]; [|reflexivity].
    apply not_elem_of_list_to_map_1 in Hfresh. simpl in Hfresh.
    now rewrite Hfresh.
Qed.

(** With a retry counter of at least one, the request goes out. *)
Lemma CallRequest_first_request E method url timeout cookies additionalHeaders
    params checkStatus w :
  NewRequestErr E method url = None ->
  0 < RETRY_COUNTER E ->
  exists evs,
    trace (snd (CallRequest E method url timeout cookies additionalHeaders
                  params checkStatus w))
    = (trace w
       ++ EvDo {| Timeout := time.wrap64 (timeout * time.Second) |}
            (buildRequest E method url cookies additionalHeaders params) 1
          :: evs)%list.
Proof.
  intros Hnew Hpos. unfold CallRequest. rewrite Hnew. unfold bind.
  destruct (Z.to_nat (RETRY_COUNTER E)) as [|n] eqn:Hn; [lia|].
  match goal with
  | |- context [attempts E ?c ?rq ?cs (S n) 1 w] =>
      set (client := c); set (req := rq);
      assert (Hfirst : exists evs,
                trace (snd (attempts E client req cs (S n) 1 w))
                = (trace w ++ EvDo client req 1 :: evs)%list)
  end.
  { simpl. unfold bind, Do, emit, ret, time.Sleep; simpl.
    assert (Hmore : exists evs,
              trace (snd (attempts E client req checkStatus n (1 + 1)
                            {| files := files w; handles := handles w;
                               trace := ((trace w ++ [EvDo client req 1])
                                         ++ [EvSleep])%list |}))
              = (trace w ++ EvDo client req 1 :: evs)%list).
    { destruct (attempts_trace E client req checkStatus n (1 + 1)
                  {| files := files w; handles := handles w;
                     trace := ((trace w ++ [EvDo client req 1])
                               ++ [EvSleep])%list |})
        as (evs & -> & _).
      exists (EvSleep :: evs). simpl. now rewrite <- !List.app_assoc. }
    destruct (clientDo E client req 1) as [e|resp]; simpl; [exact Hmore|].
    destruct (negb checkStatus); simpl; [now exists []|].
    destruct (StatusCode resp =? 200); simpl; [now exists [] | exact Hmore]. }
  destruct Hfirst as (evs & Hevs).
  destruct (attempts E client req checkStatus (S n) 1 w) as [[[resp|]|a] w'];
    simpl in Hevs |- *; unfold utils.LogError, bind, emit, ret; simpl;
    rewrite Hevs; [now exists evs | | now exists evs].
  eexists. now rewrite <- List.app_assoc.
Qed.

(** C7 (as amended).  With a non-empty parameter map, every request that
    [CallRequest] sends carries as its query the query of the URL with
    each supplied value appended to the values of its key, in whatever
    order the range visits the map: the values the URL had for a supplied
    key stay, in front of the supplied one, and the keys that are not
    supplied keep their values.  With a retry counter of at least one
    such a request is sent. *)
Theorem params_appended_by_key E method url timeout cookies additionalHeaders
    (params : gmap string string) checkStatus w evs :
  params <> ∅ ->
  trace (snd (CallRequest E method url timeout cookies additionalHeaders params
                          checkStatus w)) = (trace w ++ evs)%list ->
  (forall client req i,
     In (EvDo client req i) evs ->
     exists query,
       RawQuery req = Encoded query
       /\ (forall kvs, kvs ≡ₚ map_to_list params ->
                       query = addParams kvs (URLQuery E url))
       /\ forall key,
            query !! key
            = match params !! key with
              | Some value =>
                  Some (default [] (URLQuery E url !! key) ++ [value])%list
              | None => URLQuery E url !! key
              end)
  /\ (NewRequestErr E method url = None -> 0 < RETRY_COUNTER E ->
      exists client req evs', evs = EvDo client req 1 :: evs').
Proof.
  intros Hne Htrace.
  assert (Hsize : (0 <? size params)%nat = true).
  { apply Nat.ltb_lt. destruct (size params) eqn:Hs; [|lia].
    now apply map_size_empty_iff in Hs. }
  assert (Horder : forall kvs, kvs ≡ₚ map_to_list params ->
            addParams (map_to_list params) (URLQuery E url)
            = addParams kvs (URLQuery E url)).
  { intros kvs Hperm.
    assert (Hnd : NoDup kvs.*1).
    { rewrite Hperm. apply NoDup_fst_map_to_list. }
    apply map_eq. intros key.
    rewrite !addParams_lookup by (assumption || apply NoDup_fst_map_to_list).
    now rewrite (list_to_map_proper _ _ Hnd Hperm). }
  split.
  - intros client req i Hsent.
    assert (Hreq : req = buildRequest E method url cookies additionalHeaders
                           params).
    { apply (CallRequest_requests E _ _ _ _ _ _ _ _ _ Htrace).
      unfold requestsOf. apply in_flat_map.
      exists (EvDo client req i). split; [assumption | now left]. }
    exists (addParams (map_to_list params) (URLQuery E url)).
    subst req. simpl. rewrite Hsize. split; [reflexivity|].
    split; [exact Horder|].
    intros key.
    rewrite addParams_lookup by apply NoDup_fst_map_to_list.
    now rewrite list_to_map_to_list.
  - intros Hnew Hpos.
    destruct (CallRequest_first_request E method url timeout cookies
                additionalHeaders params checkStatus w Hnew Hpos)
      as (evs' & Hfirst).
    rewrite Htrace in Hfirst. apply app_inv_head in Hfirst.
    eexists _, _, evs'. exact Hfirst.
Qed.

(** The URL asks for [page=1] and the caller supplies [page=2]: the
    request that goes out asks for both. *)
Lemma params_appended_to_page :
  let params : gmap string string := {[ "page" := "2" ]} in
  let url := "https://api.example.com/posts?page=1" in
  let E := serving (okResponse url) in
  let client := {| Timeout := 10000000000 |} in
  let req := {| Method := "GET"; URL := url; Cookies := [];
                Header := [("User-Agent", "Mozilla/5.0")];
                RawQuery := Encoded {[ "page" := ["1"; "2"] ]} |} in
  params <> ∅
  /\ trace (snd (CallRequest E "GET" url 10 [] ∅ params true emptyWorld))
     = (trace emptyWorld ++ [EvDo client req 1])%list
  /\ exists query,
       RawQuery req = Encoded query /\ query !! "page" = Some ["1"; "2"].
Proof.
  intros params url E client req.
  assert (H1 : params <> ∅).
  { intros H. apply (f_equal (fun m => m !! "page")) in H.
    vm_compute in H. discriminate H. }
  assert (H2 : trace (snd (CallRequest E "GET" url 10 [] ∅ params true
                             emptyWorld))
               = (trace emptyWorld ++ [EvDo client req 1])%list)
    by (vm_compute; reflexivity).
  split; [exact H1 | split; [exact H2 |]].
  destruct (params_appended_by_key E "GET" url 10 [] ∅ params true emptyWorld
              [EvDo client req 1] H1 H2) as [Hsent _].
  destruct (Hsent client req 1 (or_introl eq_refl))
    as (query & Hquery & _ & Hlookup).
  exists query. split; [exact Hquery|].
  rewrite (Hlookup "page"). vm_compute. reflexivity.
Defined.

(** C7 (as stated, refuted).  The request that [CallRequest] sends for
    the URL with [page=1] and the supplied [page=2] carries both values:
    the supplied one does not overwrite the one of the URL. *)
Lemma params_do_not_overwrite :
  let params : gmap string string := {[ "page" := "2" ]} in
  let url := "https://api.example.com/posts?page=1" in
  let E := serving (okResponse url) in
  exists client req,
    trace (snd (CallRequest E "GET" url 10 [] ∅ params true emptyWorld))
    = (trace emptyWorld ++ [EvDo client req 1])%list
    /\ RawQuery req = Encoded {[ "page" := ["1"; "2"] ]}
    /\ ~ overwritesByKey params (RawQuery req).
Proof.
  intros params url E.
  exists {| Timeout := 10000000000 |},
         {| Method := "GET"; URL := url; Cookies := [];
            Header := [("User-Agent", "Mozilla/5.0")];
            RawQuery := Encoded {[ "page" := ["1"; "2"] ]} |}.
  split; [vm_compute; reflexivity|]. split; [reflexivity|].
  intros (query & Heq & Hover).
  assert (Hpage : params !! "page" = Some "2") by (vm_compute; reflexivity).
  apply Hover in Hpage. clear Hover.
  vm_compute in Heq. injection Heq as <-.
  vm_compute in Hpage. discriminate Hpage.
Qed.

(** ** The claims about the downloader *)

(** C2 (defect of the code).  The specification has a job whose dispatch
    fails on every attempt end in a logged failure, no file, and a return
    to the caller.  With three attempts that all meet a transport error,
    [DownloadURL] logs the failure and touches no file, but it does not
    return: [CallRequest] hands back a [nil] response with a [nil] error
    (see C1), and [defer res.Body.Close()] dereferences it.  The panic is
    recovered nowhere, so it ends the process and with it the batch. *)
Theorem exhausted_retries_panic_in_DownloadURL :
  let client := {| Timeout := 1500000000000 |} in
  let req := {| Method := "GET"; URL := "https://example.com/a.jpg";
                Cookies := []; Header := [("User-Agent", "Mozilla/5.0")];
                RawQuery := Unchanged |} in
  DownloadURL refusing "https://example.com/a.jpg" "/out/" [] ∅ ∅
    (reportWorld twoBytes)
  = (Stop (Panicked "invalid memory address or nil pointer dereference"),
     after (reportWorld twoBytes)
       [EvDo client req 1; EvSleep; EvDo client req 2; EvSleep;
        EvDo client req 3; EvSleep;
        EvLog None
          "failed to send a request to https://example.com/a.jpg after 3 retries"
          false]).
Proof. vm_compute. reflexivity. Qed.

(** C5.  For a destination with an extension, the file is the supplied
    path with its own extension lower-cased, whatever the response: no
    other path changes, and that path receives the body. *)
Theorem explicit_path_keeps_own_extension E fileURL filePath cookies headers
    params w res w1 :
  filepath.Ext filePath <> "" ->
  CallRequest E "GET" fileURL (25 * 60) cookies headers params true w
  = (Ret (Some res, None), w1) ->
  let p := utils.RemoveExtFromFilename filePath
           +:+ strings.ToLower (unicodeLower E) (filepath.Ext filePath) in
  let result := DownloadURL E fileURL filePath cookies headers params w in
  (exists stem, filePath = stem +:+ filepath.Ext filePath
     /\ p = stem +:+ strings.ToLower (unicodeLower E) (filepath.Ext filePath))
  /\ (forall q, q <> p -> files (snd result) !! q = files w !! q)
  /\ (files w !! p = None \/ files w !! p = Some [] ->
      createErr E p = None -> BodyErr res = None ->
      fst result = Ret None /\ files (snd result) !! p = Some (Body res)).
Proof.
  intros Hext Hcall p result.
  destruct (CallRequest_dispatched E _ _ _ _ _ _ _ _ _ _ _ Hcall)
    as (Hf & _ & _).
  pose proof (resolvePath_file E filePath res w1 Hext) as Hpath.
  fold p in Hpath.
  pose proof (DownloadURL_resolved E _ _ _ _ _ _ _ _ _ _ Hcall Hpath) as Hrun.
  fold result in Hrun.
  split; [|split].
  - exists (utils.RemoveExtFromFilename filePath). split; [|reflexivity].
    symmetry. apply RemoveExt_Ext.
  - intros q Hq. rewrite Hrun. simpl.
    rewrite (writeBody_others E _ _ _ _ _ Hq). simpl. now rewrite Hf.
  - intros Hfile Hcreate Hbody. rewrite Hrun.
    rewrite (writeBody_written E fileURL p res _); simpl;
      rewrite ?Hf; try assumption.
    split; [reflexivity | apply lookup_insert_eq].
Qed.

(** [/out/report.PDF] is written as [/out/report.pdf], though the response
    resolves to a [.bin]. *)
Lemma report_pdf_written :
  let E := serving (okResponse "https://cdn.example.com/files/0001.bin") in
  let result := DownloadURL E "https://example.com/dl/1" "/out/report.PDF"
               [] ∅ ∅ emptyWorld in
  filepath.Ext "/out/report.PDF" <> ""
  /\ fst result = Ret None
  /\ files (snd result) !! "/out/report.pdf" = Some twoBytes.
Proof.
  intros E result.
  assert (Hext : filepath.Ext "/out/report.PDF" <> "")
    by (vm_compute; discriminate).
  assert (Hcall : CallRequest E "GET" "https://example.com/dl/1" (25 * 60)
                    [] ∅ ∅ true emptyWorld
                  = (Ret (Some (okResponse
                                  "https://cdn.example.com/files/0001.bin"),
                          None),
                     snd (CallRequest E "GET" "https://example.com/dl/1"
                            (25 * 60) [] ∅ ∅ true emptyWorld)))
    by (vm_compute; reflexivity).
  destruct (explicit_path_keeps_own_extension E _ "/out/report.PDF" _ _ _ _ _ _
              Hext Hcall) as (_ & _ & Hwritten).
  split; [exact Hext|].
  assert (H : fst result = Ret None
              /\ files (snd result)
                 !! (utils.RemoveExtFromFilename "/out/report.PDF"
                     +:+ strings.ToLower (unicodeLower E)
                           (filepath.Ext "/out/report.PDF"))
                 = Some (Body (okResponse
                                 "https://cdn.example.com/files/0001.bin"))).
  { apply Hwritten; [left|..]; vm_compute; reflexivity. }
  vm_compute in H |- *. exact H.
Defined.

(** C8 (as amended).  When the stream of the body breaks, the file that
    was being written is closed, [os.Remove] is called on it and its
    error discarded, the error of the copy is logged as non-fatal, and the
    caller gets [nil].  No file stays open and no other path changes.
    Where [os.Remove] succeeds no file is left at the path; where it
    fails, the bytes written so far stay there. *)
Theorem broken_write_is_removed_if_remove_succeeds E fileURL filePath cookies
    headers params w res w1 p w2 n e :
  CallRequest E "GET" fileURL (25 * 60) cookies headers params true w
  = (Ret (Some res, None), w1) ->
  resolvePath E filePath res w1 = (Ret p, w2) ->
  files w !! p = None \/ files w !! p = Some [] ->
  createErr E p = None ->
  BodyErr res = Some (n, e) ->
  let result := DownloadURL E fileURL filePath cookies headers params w in
  fst result = Ret None
  /\ handles (snd result) = handles w
  /\ (forall q, q <> p -> files (snd result) !! q = files w !! q)
  /\ trace (snd result)
     = (trace w2
        ++ [EvLog (Some e)
              ("failed to download " +:+ fileURL +:+ " due to " +:+ e) false;
            EvBodyClose])%list
  /\ (removeErr E p = None ->
      files (snd result) !! p = None
      /\ files (snd result) = delete p (files w))
  /\ (removeErr E p <> None ->
      files (snd result) !! p = Some (firstn n (Body res))).
Proof.
  intros Hcall Hpath Hfile Hcreate Hbody result.
  destruct (CallRequest_dispatched E _ _ _ _ _ _ _ _ _ _ _ Hcall)
    as (Hf & Hh & _).
  pose proof (resolvePath_files E filePath res w1) as [Hf2 Hh2].
  rewrite Hpath in Hf2, Hh2. simpl in Hf2, Hh2.
  pose proof (DownloadURL_resolved E _ _ _ _ _ _ _ _ _ _ Hcall Hpath) as Hrun.
  fold result in Hrun.
  assert (Hothers : forall q, q <> p ->
            files (snd result) !! q = files w !! q).
  { intros q Hq. rewrite Hrun. simpl.
    rewrite (writeBody_others E _ _ _ _ _ Hq). now rewrite Hf2, Hf. }
  rewrite (writeBody_broken E fileURL p res w2 n e) in Hrun;
    rewrite ?Hf2, ?Hf; try assumption.
  clearbody result. subst result. simpl in *. rewrite Hh2, Hh.
  split; [reflexivity|]. split; [reflexivity|]. split; [exact Hothers|].
  split; [now rewrite <- List.app_assoc|].
  destruct (removeErr E p) as [e'|]; rewrite Hf2, Hf; split;
    try (intros H; discriminate H); try (intros H; now contradiction H).
  - intros _. apply lookup_insert_eq.
  - intros _. split; [apply lookup_delete_eq | reflexivity].
Qed.

(** A body that breaks after one byte leaves nothing at [/out/report.pdf]
    when the file can be removed. *)
Lemma broken_report_removed :
  let E := serving (brokenResponse "https://cdn.example.com/files/0001.bin") in
  let result := DownloadURL E "https://example.com/dl/1" "/out/report.PDF"
                  [] ∅ ∅ emptyWorld in
  BodyErr (brokenResponse "https://cdn.example.com/files/0001.bin")
  = Some (1%nat, "unexpected EOF")
  /\ removeErr E "/out/report.pdf" = None
  /\ fst result = Ret None
  /\ files (snd result) !! "/out/report.pdf" = None.
Proof.
  intros E result.
  assert (Hcall : CallRequest E "GET" "https://example.com/dl/1" (25 * 60)
                    [] ∅ ∅ true emptyWorld
                  = (Ret (Some (brokenResponse
                                  "https://cdn.example.com/files/0001.bin"),
                          None),
                     snd (CallRequest E "GET" "https://example.com/dl/1"
                            (25 * 60) [] ∅ ∅ true emptyWorld)))
    by (vm_compute; reflexivity).
  assert (Hpath : resolvePath E "/out/report.PDF"
                    (brokenResponse "https://cdn.example.com/files/0001.bin")
                    (snd (CallRequest E "GET" "https://example.com/dl/1"
                            (25 * 60) [] ∅ ∅ true emptyWorld))
                  = (Ret "/out/report.pdf",
                     snd (resolvePath E "/out/report.PDF"
                            (brokenResponse
                               "https://cdn.example.com/files/0001.bin")
                            (snd (CallRequest E "GET"
                                    "https://example.com/dl/1" (25 * 60)
                                    [] ∅ ∅ true emptyWorld)))))
    by (vm_compute; reflexivity).
  assert (Hfile : files emptyWorld !! "/out/report.pdf" = None
                  \/ files emptyWorld !! "/out/report.pdf" = Some [])
    by (left; vm_compute; reflexivity).
  destruct (broken_write_is_removed_if_remove_succeeds E _ _ _ _ _ _ _ _ _ _
              1%nat "unexpected EOF" Hcall Hpath Hfile eq_refl eq_refl)
    as (Hret & _ & _ & _ & Hgone & _).
  split; [reflexivity|]. split; [reflexivity|].
  split; [exact Hret | exact (proj1 (Hgone eq_refl))].
Defined.

(** C8 (as stated, refuted).  [/out/report.pdf] is there with zero bytes,
    in a directory whose entries cannot be removed.  [os.Create]
    truncates the file, the copy breaks after one byte, [os.Remove]
    fails and its error is dropped: the write has failed mid-transfer and
    a file of one byte remains at the path. *)
Lemma refused_removal_leaves_partial_file :
  let res := brokenResponse "https://cdn.example.com/files/0001.bin" in
  let result := DownloadURL (sticky res) "https://example.com/dl/1"
                  "/out/report.PDF" [] ∅ ∅ (reportWorld []) in
  BodyErr res = Some (1%nat, "unexpected EOF")
  /\ files (reportWorld []) !! "/out/report.pdf" = Some []
  /\ fst result = Ret None
  /\ files (snd result) !! "/out/report.pdf" = Some [Byte.x4a]
  /\ ~ leavesNoFile (sticky res) "https://example.com/dl/1" "/out/report.PDF"
         [] ∅ ∅ (reportWorld []) "/out/report.pdf".
Proof.
  intros res result.
  assert (Hleft : files (snd result) !! "/out/report.pdf" = Some [Byte.x4a])
    by (vm_compute; reflexivity).
  split; [reflexivity|]. split; [vm_compute; reflexivity|].
  split; [vm_compute; reflexivity|]. split; [exact Hleft|].
  intros Hnone. unfold leavesNoFile in Hnone. fold result in Hnone.
  rewrite Hleft in Hnone. discriminate Hnone.
Qed.

(** C10.  A file that is present with zero bytes does not count as a
    finished download: it is truncated and receives the body. *)
Theorem empty_file_is_overwritten E fileURL filePath cookies headers params
    w res w1 p w2 :
  CallRequest E "GET" fileURL (25 * 60) cookies headers params true w
  = (Ret (Some res, None), w1) ->
  resolvePath E filePath res w1 = (Ret p, w2) ->
  files w !! p = Some [] ->
  createErr E p = None ->
  BodyErr res = None ->
  let result := DownloadURL E fileURL filePath cookies headers params w in
  fst result = Ret None
  /\ files (snd result) !! p = Some (Body res)
  /\ files (snd result) = <[p := Body res]> (files w)
  /\ handles (snd result) = handles w.
Proof.
  intros Hcall Hpath Hfile Hcreate Hbody result.
  destruct (CallRequest_dispatched E _ _ _ _ _ _ _ _ _ _ _ Hcall)
    as (Hf & Hh & _).
  pose proof (resolvePath_files E filePath res w1) as [Hf2 Hh2].
  rewrite Hpath in Hf2, Hh2. simpl in Hf2, Hh2.
  pose proof (DownloadURL_resolved E _ _ _ _ _ _ _ _ _ _ Hcall Hpath) as Hrun.
  fold result in Hrun.
  rewrite (writeBody_written E fileURL p res w2) in Hrun;
    rewrite ?Hf2, ?Hf; try assumption; [|now right].
  rewrite Hrun. simpl. rewrite Hf2, Hf, Hh2, Hh.
  repeat split. apply lookup_insert_eq.
Qed.

(** A zero-byte [/out/report.pdf] receives the two bytes of the body. *)
Lemma empty_report_overwritten :
  let E := serving (okResponse "https://cdn.example.com/files/0001.bin") in
  let result := DownloadURL E "https://example.com/dl/1" "/out/report.PDF"
                  [] ∅ ∅ (reportWorld []) in
  files (reportWorld []) !! "/out/report.pdf" = Some []
  /\ fst result = Ret None
  /\ files (snd result) !! "/out/report.pdf" = Some twoBytes.
Proof.
  intros E result.
  assert (Hcall : CallRequest E "GET" "https://example.com/dl/1" (25 * 60)
                    [] ∅ ∅ true (reportWorld [])
                  = (Ret (Some (okResponse
                                  "https://cdn.example.com/files/0001.bin"),
                          None),
                     snd (CallRequest E "GET" "https://example.com/dl/1"
                            (25 * 60) [] ∅ ∅ true (reportWorld []))))
    by (vm_compute; reflexivity).
  assert (Hpath : resolvePath E "/out/report.PDF"
                    (okResponse "https://cdn.example.com/files/0001.bin")
                    (snd (CallRequest E "GET" "https://example.com/dl/1"
                            (25 * 60) [] ∅ ∅ true (reportWorld [])))
                  = (Ret "/out/report.pdf",
                     snd (resolvePath E "/out/report.PDF"
                            (okResponse
                               "https://cdn.example.com/files/0001.bin")
                            (snd (CallRequest E "GET"
                                    "https://example.com/dl/1" (25 * 60)
                                    [] ∅ ∅ true (reportWorld []))))))
    by (vm_compute; reflexivity).
  assert (Hfile : files (reportWorld []) !! "/out/report.pdf" = Some [])
    by (vm_compute; reflexivity).
  destruct (empty_file_is_overwritten E _ _ _ _ _ _ _ _ _ _
              Hcall Hpath Hfile eq_refl eq_refl) as (Hret & Hbody & _).
  split; [exact Hfile | split; assumption].
Defined.

(** C3 (as amended).  A file that is present and not empty is never
    rewritten by [DownloadURL], whatever the outcome of the run.  When it
    is the file of the job, the request has gone out all the same, since
    the check comes after the dispatch; once the dispatch has succeeded the
    run returns [nil] and leaves every file as it was. *)
Theorem present_file_is_kept E fileURL filePath cookies headers params w p
    b bs :
  files w !! p = Some (b :: bs) ->
  let result := DownloadURL E fileURL filePath cookies headers params w in
  files (snd result) !! p = Some (b :: bs)
  /\ forall res w1 w2,
       CallRequest E "GET" fileURL (25 * 60) cookies headers params true w
       = (Ret (Some res, None), w1) ->
       resolvePath E filePath res w1 = (Ret p, w2) ->
       fst result = Ret None
       /\ files (snd result) = files w
       /\ handles (snd result) = handles w
       /\ exists evs,
            trace (snd result)
            = (trace w
               ++ EvDo {| Timeout := time.wrap64 (25 * 60 * time.Second) |}
                    (buildRequest E "GET" fileURL cookies headers params) 1
                  :: evs)%list.
Proof.
  intros Hp result. split; [now apply DownloadURL_keeps|].
  intros res w1 w2 Hcall Hpath.
  destruct (CallRequest_dispatched E _ _ _ _ _ _ _ _ _ _ _ Hcall)
    as (Hf & Hh & evs & Htr).
  destruct (resolvePath_trace E _ _ _ _ _ Hpath) as [dir ->].
  pose proof (DownloadURL_resolved E _ _ _ _ _ _ _ _ _ _ Hcall Hpath) as Hrun.
  fold result in Hrun.
  rewrite (writeBody_present E fileURL p res _ b bs) in Hrun
    by (simpl; now rewrite Hf).
  rewrite Hrun. simpl. repeat split; try assumption.
  exists (evs ++ [EvMkdirAll dir; EvBodyClose])%list.
  rewrite Htr, <- !List.app_assoc. reflexivity.
Qed.

(** [/out/report.pdf] holds two bytes: they stay, and the request is in the
    trace. *)
Lemma present_report_kept :
  let E := serving (okResponse "https://cdn.example.com/files/0001.bin") in
  let result := DownloadURL E "https://example.com/dl/1" "/out/report.PDF"
                  [] ∅ ∅ (reportWorld twoBytes) in
  files (reportWorld twoBytes) !! "/out/report.pdf" = Some twoBytes
  /\ files (snd result) !! "/out/report.pdf" = Some twoBytes
  /\ fst result = Ret None
  /\ files (snd result) = files (reportWorld twoBytes).
Proof.
  intros E result.
  assert (Hfile : files (reportWorld twoBytes) !! "/out/report.pdf"
                  = Some (Byte.x4a :: [Byte.x46]))
    by (vm_compute; reflexivity).
  assert (Hcall : CallRequest E "GET" "https://example.com/dl/1" (25 * 60)
                    [] ∅ ∅ true (reportWorld twoBytes)
                  = (Ret (Some (okResponse
                                  "https://cdn.example.com/files/0001.bin"),
                          None),
                     snd (CallRequest E "GET" "https://example.com/dl/1"
                            (25 * 60) [] ∅ ∅ true (reportWorld twoBytes))))
    by (vm_compute; reflexivity).
  assert (Hpath : resolvePath E "/out/report.PDF"
                    (okResponse "https://cdn.example.com/files/0001.bin")
                    (snd (CallRequest E "GET" "https://example.com/dl/1"
                            (25 * 60) [] ∅ ∅ true (reportWorld twoBytes)))
                  = (Ret "/out/report.pdf",
                     snd (resolvePath E "/out/report.PDF"
                            (okResponse
                               "https://cdn.example.com/files/0001.bin")
                            (snd (CallRequest E "GET"
                                    "https://example.com/dl/1" (25 * 60)
                                    [] ∅ ∅ true (reportWorld twoBytes))))))
    by (vm_compute; reflexivity).
  destruct (present_file_is_kept E "https://example.com/dl/1"
              "/out/report.PDF" [] ∅ ∅ _ _ _ _ Hfile) as (Hkept & Hskip).
  destruct (Hskip _ _ _ Hcall Hpath) as (Hret & Hsame & _).
  split; [exact Hfile | split; [exact Hkept | split; assumption]].
Defined.

(** C3 (as stated, refuted).  [/out/report.pdf], the file of the job, is
    present with two bytes, and the run is not one that sends no request:
    [CallRequest] comes first in [DownloadURL]. *)
Lemma present_file_still_requested :
  let url := "https://cdn.example.com/files/0001.bin" in
  let E := serving (okResponse url) in
  fst (resolvePath E "/out/report.PDF" (okResponse url) (reportWorld twoBytes))
  = Ret "/out/report.pdf"
  /\ files (reportWorld twoBytes) !! "/out/report.pdf" = Some twoBytes
  /\ ~ skipsWithoutRequest E "https://example.com/dl/1" "/out/report.PDF"
         [] ∅ ∅ (reportWorld twoBytes).
Proof.
  intros url E. split; [vm_compute; reflexivity|].
  split; [vm_compute; reflexivity|].
  intros (_ & _ & Hnone). vm_compute in Hnone. discriminate Hnone.
Qed.

(** ** The last path segment *)

Lemma Contains_sep_cons (c : ascii) (s : string) :
  strings.Contains (String c s) "/"
  = filepath.isPathSeparator c || strings.Contains s "/".
Proof.
  cbn [strings.Contains strings.HasPrefix]. unfold filepath.isPathSeparator.
  now rewrite (Ascii.eqb_sym "/" c), andb_true_r.
Qed.

Lemma elements_no_separator (s : string) :
  strings.Contains s "/" = false -> filepath.elements s = [s].
Proof.
  induction s as [|c s IH]; [reflexivity|].
  rewrite Contains_sep_cons. intros H. apply orb_false_elim in H as [Hc Hs].
  simpl. now rewrite Hc, (IH Hs).
Qed.

Lemma elements_separator (s : string) :
  strings.Contains s "/" = true ->
  exists e e' es, filepath.elements s = e :: e' :: es.
Proof.
  induction s as [|c s IH]; [discriminate|].
  rewrite Contains_sep_cons. intros H. simpl.
  destruct (filepath.isPathSeparator c).
  - destruct (filepath.elements s) as [|e es] eqn:He.
    + destruct s; simpl in He; [discriminate|].
      destruct (filepath.isPathSeparator a); [discriminate|].
      destruct (filepath.elements s); discriminate.
    + now exists "", e, es.
  - destruct (IH H) as (e & e' & es & ->). now exists (String c e), e', es.
Qed.

(** The last element of a path, one character at a time. *)
Lemma last_element_cons (c : ascii) (s : string) :
  List.last (filepath.elements (String c s)) ""
  = if strings.Contains s "/" then List.last (filepath.elements s) ""
    else if filepath.isPathSeparator c then s
    else String c s.
Proof.
  simpl.
  destruct (strings.Contains s "/") eqn:Hs.
  - destruct (elements_separator s Hs) as (e & e' & es & ->).
    now destruct (filepath.isPathSeparator c).
  - rewrite (elements_no_separator s Hs).
    now destruct (filepath.isPathSeparator c).
Qed.

Lemma last_element_no_separator (s : string) :
  strings.Contains (List.last (filepath.elements s) "") "/" = false.
Proof.
  induction s as [|c s IH]; [reflexivity|].
  rewrite last_element_cons.
  destruct (strings.Contains s "/") eqn:Hs; [exact IH|].
  destruct (filepath.isPathSeparator c) eqn:Hc; [exact Hs|].
  now rewrite Contains_sep_cons, Hc, Hs.
Qed.

Lemma last_element_suffix (s : string) :
  exists pre, s = pre +:+ List.last (filepath.elements s) "".
Proof.
  induction s as [|c s [pre Hs]]; [now exists ""|].
  rewrite last_element_cons.
  destruct (strings.Contains s "/").
  - exists (String c pre). now rewrite string_app_cons, <- Hs.
  - destruct (filepath.isPathSeparator c);
      [now exists (String c "") | now exists ""].
Qed.

Lemma fromSeparator_suffix (s : string) :
  exists pre, s = pre +:+ utils.fromSeparator s.
Proof.
  induction s as [|c s [pre Hs]]; [now exists ""|].
  simpl. destruct (filepath.isPathSeparator c); [now exists ""|].
  exists (String c pre). now rewrite string_app_cons, <- Hs.
Qed.

Lemma afterScheme_suffix (u rest : string) :
  utils.afterScheme u = Some rest -> exists pre, u = pre +:+ rest.
Proof.
  induction u as [|c u IH]; [discriminate|].
  cbn [utils.afterScheme].
  destruct (utils.isSchemeChar c).
  - intros H. destruct (IH H) as [pre ->]. now exists (String c pre).
  - destruct (Ascii.eqb_spec c ":") as [->|Hc]; [|discriminate].
    destruct u as [|a [|b u]]; try discriminate.
    destruct (Ascii.eqb_spec a "/") as [->|Ha]; [|discriminate].
    destruct (Ascii.eqb_spec b "/") as [->|Hb]; [|discriminate].
    intros H. injection H as <-. now exists "://".
Qed.

(** The last path segment ends the URL as it stands before its query and
    fragment, and holds no separator. *)
Lemma GetLastPartOfURL_segment_of_path (u : string) :
  strings.Contains (utils.GetLastPartOfURL u) "/" = false
  /\ exists pre, utils.beforeQuery u = pre +:+ utils.GetLastPartOfURL u.
Proof.
  unfold utils.GetLastPartOfURL. split; [apply last_element_no_separator|].
  destruct (last_element_suffix (utils.pathOf u)) as [pre2 Hlast].
  unfold utils.pathOf in *.
  destruct (utils.afterScheme (utils.beforeQuery u)) as [rest|] eqn:Hscheme.
  - destruct (afterScheme_suffix _ _ Hscheme) as [pre0 H0].
    destruct (fromSeparator_suffix rest) as [pre1 H1].
    exists (pre0 +:+ pre1 +:+ pre2).
    rewrite H0 at 1. rewrite H1 at 1. rewrite Hlast at 1.
    now rewrite !string_app_assoc.
  - exists pre2. exact Hlast.
Qed.

(** The part of a URL before its query and fragment holds neither [?]
    nor [#]. *)
Lemma beforeQuery_plain (u : string) :
  strings.Contains (utils.beforeQuery u) "?" = false
  /\ strings.Contains (utils.beforeQuery u) "#" = false.
Proof.
  induction u as [|c u [IHq IHf]]; [now split|].
  cbn [utils.beforeQuery].
  destruct (Ascii.eqb_spec c "?") as [->|Hq]; [now split|].
  destruct (Ascii.eqb_spec c "#") as [->|Hf]; [now split|].
  cbn [orb strings.Contains strings.HasPrefix].
  rewrite IHq, IHf, !andb_true_r, !orb_false_r.
  split; apply Ascii.eqb_neq; congruence.
Qed.

(** ** Unescaping a URL without escapes *)

Lemma PathUnescape_no_percent (s : string) :
  strings.Contains s "%" = false -> url.PathUnescape s = Some s.
Proof.
  induction s as [|c s IH]; [reflexivity|].
  cbn [strings.Contains strings.HasPrefix url.PathUnescape].
  intros H. apply orb_false_elim in H as [Hc Hs].
  rewrite andb_true_r in Hc. rewrite Ascii.eqb_sym in Hc.
  rewrite Hc, (IH Hs). reflexivity.
Qed.

(** C4 (as amended).  For a destination without extension, the name of
    the file is drawn from the response URL unescaped as a whole: the last
    path segment of the unescaped URL, with its extension lower-cased.
    The segment holds no separator and ends the unescaped URL as it
    stands before its query and fragment; for a URL without escapes it is
    the last path segment of the URL itself.  The file is the directory
    joined with this name: no other path changes, and that path receives
    the body. *)
Theorem directory_name_from_unescaped_url E fileURL filePath cookies headers
    params w res w1 u :
  filepath.Ext filePath = "" ->
  CallRequest E "GET" fileURL (25 * 60) cookies headers params true w
  = (Ret (Some res, None), w1) ->
  url.PathUnescape (RequestURL res) = Some u ->
  let name := utils.GetLastPartOfURL u in
  let p := filepath.Join filePath
             (utils.RemoveExtFromFilename name
              +:+ strings.ToLower (unicodeLower E) (filepath.Ext name)) in
  let result := DownloadURL E fileURL filePath cookies headers params w in
  (exists stem, name = stem +:+ filepath.Ext name
     /\ p = filepath.Join filePath
              (stem +:+ strings.ToLower (unicodeLower E) (filepath.Ext name)))
  /\ (strings.Contains name "/" = false
      /\ exists pre, utils.beforeQuery u = pre +:+ name)
  /\ (strings.Contains (RequestURL res) "%" = false ->
      name = utils.GetLastPartOfURL (RequestURL res))
  /\ (forall q, q <> p -> files (snd result) !! q = files w !! q)
  /\ (files w !! p = None \/ files w !! p = Some [] ->
      createErr E p = None -> BodyErr res = None ->
      fst result = Ret None /\ files (snd result) !! p = Some (Body res)).
Proof.
  intros Hext Hcall Hu name p result.
  destruct (CallRequest_dispatched E _ _ _ _ _ _ _ _ _ _ _ Hcall)
    as (Hf & _ & _).
  pose proof (resolvePath_directory E filePath res w1 u Hext Hu) as Hpath.
  fold name in Hpath. fold p in Hpath.
  pose proof (DownloadURL_resolved E _ _ _ _ _ _ _ _ _ _ Hcall Hpath) as Hrun.
  fold result in Hrun.
  split; [|split; [|split; [|split]]].
  - exists (utils.RemoveExtFromFilename name). split; [|reflexivity].
    symmetry. apply RemoveExt_Ext.
  - apply GetLastPartOfURL_segment_of_path.
  - intros Hplain. rewrite (PathUnescape_no_percent _ Hplain) in Hu.
    injection Hu as <-. reflexivity.
  - intros q Hq. rewrite Hrun. simpl.
    rewrite (writeBody_others E _ _ _ _ _ Hq). simpl. now rewrite Hf.
  - intros Hfile Hcreate Hbody. rewrite Hrun.
    rewrite (writeBody_written E fileURL p res _); simpl;
      rewrite ?Hf; try assumption.
    split; [reflexivity | apply lookup_insert_eq].
Qed.

(** [My%20File.final.JPG] under [/out/] is written as
    [/out/My File.final.jpg]. *)
Lemma my_file_written :
  let requestURL := "https://cdn.example.com/media/My%20File.final.JPG" in
  let E := serving (okResponse requestURL) in
  let result := DownloadURL E "https://example.com/dl/3" "/out/"
                  [] ∅ ∅ emptyWorld in
  filepath.Ext "/out/" = ""
  /\ url.PathUnescape requestURL
     = Some "https://cdn.example.com/media/My File.final.JPG"
  /\ fst result = Ret None
  /\ files (snd result) !! "/out/My File.final.jpg" = Some twoBytes.
Proof.
  intros requestURL E result.
  assert (Hext : filepath.Ext "/out/" = "") by (vm_compute; reflexivity).
  assert (Hu : url.PathUnescape (RequestURL (okResponse requestURL))
               = Some "https://cdn.example.com/media/My File.final.JPG")
    by (vm_compute; reflexivity).
  assert (Hcall : CallRequest E "GET" "https://example.com/dl/3" (25 * 60)
                    [] ∅ ∅ true emptyWorld
                  = (Ret (Some (okResponse requestURL), None),
                     snd (CallRequest E "GET" "https://example.com/dl/3"
                            (25 * 60) [] ∅ ∅ true emptyWorld)))
    by (vm_compute; reflexivity).
  destruct (directory_name_from_unescaped_url E _ "/out/" _ _ _ _ _ _ _
              Hext Hcall Hu) as (_ & _ & _ & _ & Hwritten).
  split; [exact Hext | split; [exact Hu|]].
  assert (H : fst result = Ret None
              /\ files (snd result)
                 !! filepath.Join "/out/"
                      (utils.RemoveExtFromFilename
                         (utils.GetLastPartOfURL
                            "https://cdn.example.com/media/My File.final.JPG")
                       +:+ strings.ToLower (unicodeLower E)
                             (filepath.Ext
                                (utils.GetLastPartOfURL
                                   "https://cdn.example.com/media/My File.final.JPG")))
                 = Some (Body (okResponse requestURL))).
  { apply Hwritten; [left|..]; vm_compute; reflexivity. }
  vm_compute in H |- *. exact H.
Defined.

(** C4 (as stated, refuted).  For the response URL [.../a%2Fb.JPG] the
    specified name is that of the last segment [a%2Fb.JPG], unescaped:
    [a/b.jpg].  The code unescapes first and then takes the last segment,
    [b.JPG]: the file is [/out/b.jpg]. *)
Lemma encoded_separator_changes_the_name :
  let requestURL := "https://cdn.example.com/media/a%2Fb.JPG" in
  let E := serving (okResponse requestURL) in
  specFilename E requestURL = Some "a/b.jpg"
  /\ fst (resolvePath E "/out/" (okResponse requestURL) emptyWorld)
     = Ret "/out/b.jpg"
  /\ ~ followsSpecFilename E "/out/" (okResponse requestURL) emptyWorld.
Proof.
  intros requestURL E.
  split; [vm_compute; reflexivity|]. split; [vm_compute; reflexivity|].
  intros (name & Hspec & Hpath).
  vm_compute in Hspec. injection Hspec as <-.
  vm_compute in Hpath. discriminate Hpath.
Qed.

(** ** The coordinator *)

Section Coordinator.

Variable E : Env.
Variable cookies : list Cookie.
Variables headers params : gmap string string.

Lemma inStage_split (P : Stage -> bool) (ws1 ws2 : list Worker) (wk : Worker) :
  inStage P (ws1 ++ wk :: ws2)
  = (inStage P ws1 + (if P (stage wk) then 1 else 0) + inStage P ws2)%nat.
Proof.
  unfold inStage. rewrite List.filter_app, List.length_app. simpl.
  destruct (P (stage wk)); simpl; lia.
Qed.

Lemma inStage_app (P : Stage -> bool) (ws1 ws2 : list Worker) :
  inStage P (ws1 ++ ws2) = (inStage P ws1 + inStage P ws2)%nat.
Proof. unfold inStage. now rewrite List.filter_app, List.length_app. Qed.

Lemma inStage_fetching_le (ws : list Worker) :
  (inStage isFetching ws <= inStage holdsSlot ws)%nat.
Proof.
  induction ws as [|wk ws IH]; [reflexivity|].
  unfold inStage in *. simpl. destruct (stage wk); simpl; lia.
Qed.

(** Workers none of which the wait group counts: each has panicked and
    run its [wg.Done()], none has ticked, and each holds its slot. *)
Lemma inStage_all_dying (ws : list Worker) :
  inStage inWaitGroup ws = 0%nat ->
  Forall (fun wk => exists v, stage wk = Dying v) ws
  /\ inStage notTicked ws = 0%nat
  /\ inStage isPanicked ws = length ws
  /\ inStage holdsSlot ws = length ws.
Proof.
  induction ws as [|wk ws IH]; [now repeat split|].
  unfold inStage in *. simpl.
  destruct (stage wk) eqn:Hst; simpl; try discriminate.
  intros H. destruct (IH H) as (Hall & Hn & Hp & Hh).
  repeat split; [|assumption|now f_equal..].
  constructor; [eauto | assumption].
Qed.

Lemma coherent_start (urls : list (gmap string string)) (maxConcurrency : Z)
    (w : World) :
  coherent (length urls) (DownloadURLsParallel urls maxConcurrency w).
Proof.
  unfold coherent, DownloadURLsParallel, inStage; simpl.
  repeat split; try reflexivity; try lia.
Qed.

Ltac split_workers :=
  repeat match goal with
  | H : workers _ = (_ ++ _ :: _)%list |- _ => rewrite H in *; clear H
  end;
  rewrite ?inStage_split, ?inStage_app, ?List.length_app in *;
  repeat match goal with
  | H : stage ?wk = _ |- _ => rewrite H in *; clear H
  end;
  cbn [length inStage List.filter stage setStage jobWorker notTicked holdsSlot
       isFetching isPanicked inWaitGroup] in *.

Lemma coherent_step (K : nat) (s s' : System) :
  coherent K s -> step E cookies headers params s s' -> coherent K s'.
Proof.
  intros (Hwg & Hq & Hcap & Htot & Hcount & Hret & Hpos) Hstep.
  unfold coherent.
  destruct Hstep; cbn [started setWorld setBar setWg setQueueLen
    setQueueClosed setMain setWorkers setCrashed world bar wg queueCap
    queueLen queueClosed main workers crashed utils.Add utils.total
    utils.count pending] in *;
    try match goal with H : main _ = _ |- _ => rewrite H in * end;
    cbn [pending length] in *; split_workers;
    repeat split; try discriminate; try lia;
    try (intros Hr; specialize (Hret Hr); lia).
Qed.

(** Every state the coordinator reaches is coherent. *)
Lemma coherent_reachable (urls : list (gmap string string))
    (maxConcurrency : Z) (w : World) (s : System) :
  rtc (step E cookies headers params)
      (DownloadURLsParallel urls maxConcurrency w) s ->
  coherent (length urls) s.
Proof.
  apply (rtc_ind_r (coherent (length urls))).
  - apply coherent_start.
  - intros s1 s2 _ Hstep Hs1. exact (coherent_step _ _ _ Hs1 Hstep).
Qed.

(** When the call returns, the workers that are left have panicked and
    run their [wg.Done()], and the bar has counted every other job. *)
Lemma returned_count (urls : list (gmap string string)) (maxConcurrency : Z)
    (w : World) (s : System) :
  rtc (step E cookies headers params)
      (DownloadURLsParallel urls maxConcurrency w) s ->
  main s = Returned ->
  utils.count (bar s) + Z.of_nat (length (workers s))
  = Z.of_nat (length urls)
  /\ Forall (fun wk => exists v, stage wk = Dying v) (workers s)
  /\ queueLen s = length (workers s)
  /\ wg s = 0.
Proof.
  intros Hrun Hmain.
  destruct (coherent_reachable _ _ _ _ Hrun)
    as (Hwg & Hq & _ & _ & Hcount & Hret & _).
  specialize (Hret Hmain).
  destruct (inStage_all_dying _ Hret) as (Hall & Hn & Hp & Hh).
  rewrite Hmain, Hn, Hp in Hcount. simpl in Hcount.
  repeat split; [lia | assumption | lia | lia].
Qed.

(** At no point are more downloads in flight than the queue has slots, and
    it has no more slots than the limit or the number of jobs. *)
Lemma in_flight_bounded (urls : list (gmap string string)) (maxConcurrency : Z)
    (w : World) (s : System) :
  rtc (step E cookies headers params)
      (DownloadURLsParallel urls maxConcurrency w) s ->
  (inStage isFetching (workers s) <= queueCap s)%nat
  /\ queueCap s = Z.to_nat (Z.min maxConcurrency (Z.of_nat (length urls))).
Proof.
  intros Hrun. split.
  - destruct (coherent_reachable _ _ _ _ Hrun) as (_ & Hq & Hcap & _).
    pose proof (inStage_fetching_le (workers s)). lia.
  - revert s Hrun.
    apply (rtc_ind_r (fun s => queueCap s
             = Z.to_nat (Z.min maxConcurrency (Z.of_nat (length urls))))).
    + unfold DownloadURLsParallel; simpl.
      destruct (Z.ltb_spec (Z.of_nat (length urls)) maxConcurrency);
        f_equal; lia.
    + intros s1 s2 _ Hstep <-. destruct Hstep; reflexivity.
Qed.

(** Where the download of every job returns, no worker panics and the
    process does not die. *)
Lemma returning_jobs_never_panic (urls : list (gmap string string))
    (maxConcurrency : Z) (w : World) (s : System) :
  0 <= maxConcurrency ->
  Forall (fun u => returnsOn E cookies headers params (jobWorker u)) urls ->
  rtc (step E cookies headers params)
      (DownloadURLsParallel urls maxConcurrency w) s ->
  crashed s = None
  /\ Forall (fun wk => isPanicked (stage wk) = false
                       /\ returnsOn E cookies headers params wk) (workers s)
  /\ Forall (fun u => returnsOn E cookies headers params (jobWorker u))
            (pending (main s)).
Proof.
  intros Hmax Hreturn.
  apply (rtc_ind_r (fun s =>
           crashed s = None
           /\ Forall (fun wk => isPanicked (stage wk) = false
                                /\ returnsOn E cookies headers params wk)
                     (workers s)
           /\ Forall (fun u => returnsOn E cookies headers params (jobWorker u))
                     (pending (main s)))).
  - unfold DownloadURLsParallel; simpl.
    split; [|split; [constructor | exact Hreturn]].
    destruct (Z.ltb_spec (Z.of_nat (length urls)) maxConcurrency);
      [destruct (Z.ltb_spec (Z.of_nat (length urls)) 0)
      |destruct (Z.ltb_spec maxConcurrency 0)]; try reflexivity; lia.
  - intros s1 s2 _ Hstep (Hc & Hall & Hpend).
    destruct Hstep; cbn [started setWorld setBar setWg setQueueLen
      setQueueClosed setMain setWorkers setCrashed bar workers main crashed
      pending] in *;
      try match goal with
      | H : workers _ = (_ ++ _ :: _)%list |- _ =>
          rewrite H in Hall;
          apply Forall_app in Hall as [Hws1 Hall];
          apply Forall_cons in Hall as [[Hwk Hwp] Hws2]
      end;
      try match goal with
      | H : DownloadURL E _ _ _ _ _ ?w0 = (Stop _, _) |- _ =>
          destruct (Hwp w0) as (err' & w'' & Herr); congruence
      end;
      try match goal with
      | H : stage ?wk = _, Hwk : isPanicked (stage ?wk) = false |- _ =>
          rewrite H in Hwk; try discriminate Hwk
      end;
      (split; [assumption|]);
      try (split; [|assumption];
           first [ apply Forall_app; split; [assumption|];
                   first [ apply Forall_cons; split; [now split | assumption]
                         | assumption ]
                 | assumption ]).
    + match goal with H : main _ = _ |- _ => rewrite H in Hpend end.
      apply Forall_cons in Hpend as [Hu Hrest].
      split; [|exact Hrest].
      apply Forall_app. split; [assumption|]. now repeat constructor.
    + match goal with H : main _ = _ |- _ => rewrite H in Hpend end.
      apply Forall_cons in Hpend as [Hu Hrest].
      split; [|exact Hrest].
      apply Forall_app. split; [|now repeat constructor].
      apply Forall_app. split; [assumption|].
      apply Forall_cons. split; [now split | assumption].
    + split; [assumption | constructor].
    + split; [assumption | constructor].
Qed.

Lemma workersLeft_app (ws1 ws2 : list Worker) :
  workersLeft (ws1 ++ ws2) = (workersLeft ws1 + workersLeft ws2)%nat.
Proof. induction ws1 as [|wk ws1 IH]; simpl; lia. Qed.

(** Every step that does not end the process takes one off the steps
    that are left. *)
Lemma step_workLeft (s s' : System) :
  step E cookies headers params s s' ->
  crashed s' = None -> (workLeft s' < workLeft s)%nat.
Proof.
  intros Hstep. unfold workLeft.
  destruct Hstep; cbn [started setWorld setBar setWg setQueueLen
    setQueueClosed setMain setWorkers setCrashed main workers crashed] in *;
    try match goal with H : main _ = _ |- _ => rewrite H end;
    try match goal with H : workers _ = _ |- _ => rewrite H end;
    rewrite ?workersLeft_app; cbn [workersLeft pending length];
    repeat match goal with H : stage _ = _ |- _ => rewrite H; clear H end;
    cbn [stage setStage jobWorker stageWeight];
    intros Hc; try discriminate; try lia; destruct (main s); lia.
Qed.

(** A state with work left can take a step, as long as the queue has a
    slot for the jobs that are pending: nothing deadlocks. *)
Lemma coherent_progress (K : nat) (s : System) :
  coherent K s -> crashed s = None -> main s <> Returned ->
  (0 < queueCap s)%nat \/ pending (main s) = [] ->
  exists s', step E cookies headers params s s'.
Proof.
  intros (Hwg & Hq & Hcap & _) Hc Hmain Hslot.
  destruct (workers s) as [|wk ws] eqn:Hws.
  - unfold inStage in Hq, Hwg. simpl in Hq, Hwg.
    destruct (main s) as [[|u rest]| |] eqn:Hm.
    + eexists. now apply step_close.
    + eexists. apply (step_start _ _ _ _ s u rest); try assumption.
      destruct Hslot as [Hslot|Hslot]; [lia | discriminate].
    + eexists. now apply step_return.
    + contradiction.
  - change (wk :: ws) with ([] ++ wk :: ws)%list in Hws.
    destruct (stage wk) eqn:Hst.
    + destruct (DownloadURL E (fileUrl wk) (filePath wk) cookies headers
                  params (world s)) as [[err|[v|code]] w'] eqn:Hrun.
      * eexists. exact (step_fetch _ _ _ _ s [] wk ws err w' Hc Hws Hst Hrun).
      * eexists. exact (step_panic _ _ _ _ s [] wk ws v w' Hc Hws Hst Hrun).
      * eexists. exact (step_exit _ _ _ _ s [] wk ws code w' Hc Hws Hst Hrun).
    + eexists. exact (step_tick _ _ _ _ s [] wk ws Hc Hws Hst).
    + eexists. apply (step_release _ _ _ _ s [] wk ws Hc Hws Hst).
      rewrite Hq. unfold inStage. simpl. rewrite Hst. simpl. lia.
    + eexists. exact (step_done _ _ _ _ s [] wk ws Hc Hws Hst).
    + eexists. exact (step_unwind _ _ _ _ s [] wk ws v Hc Hws Hst).
    + eexists. exact (step_die _ _ _ _ s [] wk ws v Hc Hws Hst).
Qed.

Lemma step_queueCap (s s' : System) :
  step E cookies headers params s s' -> queueCap s' = queueCap s.
Proof. intros Hstep. destruct Hstep; reflexivity. Qed.

(** From a coherent state the call runs on until it returns or the
    process dies. *)
Lemma coherent_terminates (n K : nat) (s : System) :
  (workLeft s <= n)%nat -> coherent K s ->
  (0 < queueCap s)%nat \/ K = 0%nat ->
  exists s', rtc (step E cookies headers params) s s'
             /\ (main s' = Returned \/ crashed s' <> None).
Proof.
  revert s. induction n as [|n IH]; intros s Hn Hs Hslot.
  { exists s. split; [apply rtc_refl|]. left.
    unfold workLeft in Hn. destruct (main s); [lia | lia | reflexivity]. }
  destruct (crashed s) as [a|] eqn:Hc.
  { exists s. split; [apply rtc_refl|]. right. now rewrite Hc. }
  assert (Hm : main s = Returned \/ main s <> Returned)
    by (destruct (main s); [right | right | left]; congruence).
  destruct Hm as [Hm|Hm].
  { exists s. split; [apply rtc_refl | now left]. }
  destruct (coherent_progress K s Hs Hc Hm) as [s1 Hstep].
  { destruct Hslot as [Hslot| ->]; [now left|]. right.
    destruct Hs as (_ & _ & _ & _ & Hcount & _ & Hpos).
    destruct (pending (main s)); [reflexivity | simpl in Hcount; lia]. }
  destruct (crashed s1) as [a|] eqn:Hc1.
  { exists s1. split; [now apply rtc_once|]. right. now rewrite Hc1. }
  destruct (IH s1) as (s' & Hrun & Hend).
  - pose proof (step_workLeft s s1 Hstep Hc1). lia.
  - exact (coherent_step K s s1 Hs Hstep).
  - now rewrite (step_queueCap s s1 Hstep).
  - exists s'. split; [eapply rtc_l; eassumption | exact Hend].
Qed.

End Coordinator.

(** * Further properties of the package *)

(** ** The retry loop, event by event *)

Lemma after_after (w : World) (evs1 evs2 : list Event) :
  after (after w evs1) evs2 = after w (evs1 ++ evs2).
Proof. unfold after. simpl. now rewrite <- List.app_assoc. Qed.

Lemma after_nil (w : World) : after w [] = w.
Proof. destruct w. unfold after. simpl. now rewrite app_nil_r. Qed.

Lemma requestsOf_attemptEvents client req k i :
  requestsOf (attemptEvents client req k i) = repeat req k.
Proof.
  revert i. induction k as [|k IH]; intros i; [reflexivity|].
  simpl. now rewrite IH.
Qed.

Lemma sleepsOf_attemptEvents client req k i :
  sleepsOf (attemptEvents client req k i) = k.
Proof.
  revert i. induction k as [|k IH]; intros i; [reflexivity|].
  unfold sleepsOf in *. simpl. now rewrite IH.
Qed.

Section RetryLoop.

Variable E : Env.
Variable client : Client.
Variable req : Request.
Variable checkStatus : bool.

(** One failed attempt: the request, the sleep, and the next attempt. *)
Lemma attempts_failed_once n i w :
  failed checkStatus (clientDo E client req i) = true ->
  attempts E client req checkStatus (S n) i w
  = attempts E client req checkStatus n (i + 1)
      (after w [EvDo client req i; EvSleep]).
Proof.
  intros Hfail. simpl. unfold bind, Do, emit, ret, time.Sleep. simpl.
  assert (Hw : forall fs hs,
             {| files := fs; handles := hs;
                trace := ((trace w ++ [EvDo client req i]) ++ [EvSleep])%list |}
             = {| files := fs; handles := hs;
                  trace := (trace w ++ [EvDo client req i; EvSleep])%list |}).
  { intros fs hs. now rewrite <- List.app_assoc. }
  unfold after.
  destruct (clientDo E client req i) as [e|resp]; simpl in Hfail.
  - f_equal. apply Hw.
  - destruct checkStatus; [|discriminate]. simpl in *.
    destruct (StatusCode resp =? 200); [discriminate|]. f_equal. apply Hw.
Qed.

(** One attempt that is answered by a response the caller accepts. *)
Lemma attempts_answered n i w resp :
  clientDo E client req i = inr resp ->
  failed checkStatus (inr resp) = false ->
  attempts E client req checkStatus (S n) i w
  = (Ret (Some resp), after w [EvDo client req i]).
Proof.
  intros Hdo Hok. simpl. unfold bind, Do, emit, ret. simpl. rewrite Hdo.
  simpl in Hok. destruct checkStatus; simpl in *; [|reflexivity].
  destruct (StatusCode resp =? 200); [reflexivity | discriminate].
Qed.

(** [k] failed attempts in a row. *)
Lemma attempts_failed_prefix k n i w :
  (forall j, i <= j < i + Z.of_nat k ->
             failed checkStatus (clientDo E client req j) = true) ->
  attempts E client req checkStatus (k + n) i w
  = attempts E client req checkStatus n (i + Z.of_nat k)
      (after w (attemptEvents client req k i)).
Proof.
  revert i w. induction k as [|k IH]; intros i w Hall.
  - simpl. now rewrite Z.add_0_r, after_nil.
  - change (S k + n)%nat with (S (k + n)).
    rewrite attempts_failed_once by (apply Hall; lia).
    rewrite IH by (intros j Hj; apply Hall; lia).
    rewrite after_after. simpl. f_equal. lia.
Qed.

(** What the result of the loop says of the attempts: a response is the
    answer to the first attempt that did not fail, and no response means
    that every attempt failed. *)
Lemma attempts_result n i w :
  match fst (attempts E client req checkStatus n i w) with
  | Ret (Some resp) =>
      exists k, (k < n)%nat
        /\ (forall j, i <= j < i + Z.of_nat k ->
                      failed checkStatus (clientDo E client req j) = true)
        /\ clientDo E client req (i + Z.of_nat k) = inr resp
        /\ failed checkStatus (inr resp) = false
  | Ret None =>
      forall j, i <= j < i + Z.of_nat n ->
                failed checkStatus (clientDo E client req j) = true
  | Stop _ => False
  end.
Proof.
  revert i w. induction n as [|n IH]; intros i w.
  - simpl. intros j Hj. lia.
  - destruct (failed checkStatus (clientDo E client req i)) eqn:Hfail.
    + rewrite (attempts_failed_once _ _ _ Hfail).
      specialize (IH (i + 1) (after w [EvDo client req i; EvSleep])).
      destruct (fst (attempts E client req checkStatus n (i + 1)
                       (after w [EvDo client req i; EvSleep])))
        as [[resp|]|a]; [| |exact IH].
      * destruct IH as (k & Hk & Hfailed & Hdo & Hok).
        exists (S k). split; [lia|]. split; [|split; [|exact Hok]].
        -- intros j Hj. destruct (Z.eq_dec j i) as [->|Hne];
             [exact Hfail | apply Hfailed; lia].
        -- rewrite <- Hdo. f_equal. lia.
      * intros j Hj. destruct (Z.eq_dec j i) as [->|Hne];
          [exact Hfail | apply IH; lia].
    + destruct (clientDo E client req i) as [e|resp] eqn:Hdo;
        [discriminate|].
      rewrite (attempts_answered _ _ _ _ Hdo Hfail). simpl.
      exists 0%nat. split; [lia|]. split; [intros j Hj; lia|].
      rewrite Z.add_0_r. now split.
Qed.

End RetryLoop.

Section RetryEvents.

Variable E : Env.

(** The events of the whole loop: those of some failed attempts, then
    either the request that is answered or nothing. *)
Lemma attempts_events client req checkStatus n i w :
  exists evs k,
    snd (attempts E client req checkStatus n i w) = after w evs
    /\ (k <= n)%nat /\ requestsOf evs = repeat req k.
Proof.
  pose proof (attempts_result E client req checkStatus n i w) as Hres.
  destruct (fst (attempts E client req checkStatus n i w))
    as [[resp|]|a]; [| |contradiction].
  - destruct Hres as (k & Hk & Hfailed & Hdo & Hok).
    replace n with (k + S (n - k - 1))%nat by lia.
    rewrite (attempts_failed_prefix E client req checkStatus k _ i w Hfailed).
    rewrite (attempts_answered E client req checkStatus _ _ _ _ Hdo Hok).
    simpl. rewrite after_after.
    eexists _, (S k). split; [reflexivity|]. split; [lia|].
    rewrite requestsOf_app, requestsOf_attemptEvents. simpl.
    now rewrite <- repeat_cons.
  - replace n with (n + 0)%nat by lia.
    rewrite (attempts_failed_prefix E client req checkStatus n 0 i w)
      by (intros j Hj; apply Hres; lia).
    simpl. eexists _, n. split; [reflexivity|]. split; [lia|].
    apply requestsOf_attemptEvents.
Qed.

(** [CallRequest] once the request is built, by the result of the loop. *)
Lemma CallRequest_built method url timeout cookies additionalHeaders params
    checkStatus w :
  NewRequestErr E method url = None ->
  CallRequest E method url timeout cookies additionalHeaders params
              checkStatus w
  = match attempts E {| Timeout := time.wrap64 (timeout * time.Second) |}
            (buildRequest E method url cookies additionalHeaders params)
            checkStatus (Z.to_nat (RETRY_COUNTER E)) 1 w with
    | (Ret (Some resp), w') => (Ret (Some resp, None), w')
    | (Ret None, w') =>
        (Ret (None, None),
         after w' [EvLog None
                     ("failed to send a request to " +:+ url +:+ " after "
                      +:+ pretty (RETRY_COUNTER E) +:+ " retries") false])
    | (Stop a, w') => (Stop a, w')
    end.
Proof.
  intros Hnew. unfold CallRequest. rewrite Hnew. unfold bind.
  destruct (attempts E _ _ checkStatus (Z.to_nat (RETRY_COUNTER E)) 1 w)
    as [[[resp|]|a] w']; reflexivity.
Qed.

End RetryEvents.

(** ** Further properties of the dispatcher *)

(** X1.  The first attempt that is answered acceptably ends the retries:
    when the attempts [1..k] fail and attempt [k+1 <= RETRY_COUNTER] is
    answered (with status 200 where the status is checked), [CallRequest]
    returns that response with a [nil] error after exactly [k+1] requests
    and [k] sleeps; nothing is slept after the answer and nothing is
    logged. *)
Theorem first_answer_ends_the_retries E method url timeout cookies
    additionalHeaders params checkStatus w (k : nat) resp :
  let client := {| Timeout := time.wrap64 (timeout * time.Second) |} in
  let req := buildRequest E method url cookies additionalHeaders params in
  NewRequestErr E method url = None ->
  Z.of_nat k < RETRY_COUNTER E ->
  (forall j, 1 <= j <= Z.of_nat k ->
             failed checkStatus (clientDo E client req j) = true) ->
  clientDo E client req (Z.of_nat k + 1) = inr resp ->
  failed checkStatus (inr resp) = false ->
  CallRequest E method url timeout cookies additionalHeaders params
              checkStatus w
  = (Ret (Some resp, None),
     after w (attemptEvents client req k 1
              ++ [EvDo client req (Z.of_nat k + 1)])%list).
Proof.
  intros client req Hnew Hk Hfailed Hdo Hok.
  rewrite (CallRequest_built E _ _ _ _ _ _ _ _ Hnew).
  fold client. fold req.
  replace (Z.to_nat (RETRY_COUNTER E))
    with (k + S (Z.to_nat (RETRY_COUNTER E) - k - 1))%nat by lia.
  rewrite (attempts_failed_prefix E client req checkStatus k _ 1 w)
    by (intros j Hj; apply Hfailed; lia).
  rewrite (attempts_answered E client req checkStatus _ _ _ resp);
    [|rewrite <- Hdo; f_equal; lia | exact Hok].
  rewrite after_after.
  now replace (1 + Z.of_nat k) with (Z.of_nat k + 1) by lia.
Qed.

(** A timeout, a 503, then the answer: three requests and two sleeps. *)
Lemma third_attempt_answers :
  let url := "https://example.com/a.jpg" in
  let res := okResponse url in
  let client := {| Timeout := time.wrap64 (10 * time.Second) |} in
  let req := buildRequest (flaky res) "GET" url [] ∅ ∅ in
  Z.of_nat 2 < RETRY_COUNTER (flaky res)
  /\ CallRequest (flaky res) "GET" url 10 [] ∅ ∅ true emptyWorld
     = (Ret (Some res, None),
        after emptyWorld
          [EvDo client req 1; EvSleep; EvDo client req 2; EvSleep;
           EvDo client req 3]).
Proof.
  intros url res client req.
  assert (Hk : Z.of_nat 2 < RETRY_COUNTER (flaky res)) by (cbv; reflexivity).
  split; [exact Hk|].
  apply (first_answer_ends_the_retries (flaky res) "GET" url 10 [] ∅ ∅ true
           emptyWorld 2 res eq_refl Hk); [|reflexivity|reflexivity].
  intros j Hj. assert (Hj' : j = 1 \/ j = 2) by lia.
  destruct Hj' as [-> | ->]; reflexivity.
Defined.

(** X2.  When every attempt fails, [CallRequest] has sent exactly
    [RETRY_COUNTER] requests (none for a counter of zero or less) and
    slept as many times: it sleeps after the last failed attempt too,
    before it logs the failure and returns. *)
Theorem exhausted_retries_sleep_after_each_attempt E method url timeout
    cookies additionalHeaders params checkStatus w :
  let client := {| Timeout := time.wrap64 (timeout * time.Second) |} in
  let req := buildRequest E method url cookies additionalHeaders params in
  let n := Z.to_nat (RETRY_COUNTER E) in
  NewRequestErr E method url = None ->
  (forall j, 1 <= j <= RETRY_COUNTER E ->
             failed checkStatus (clientDo E client req j) = true) ->
  exists msg,
    CallRequest E method url timeout cookies additionalHeaders params
                checkStatus w
    = (Ret (None, None),
       after w (attemptEvents client req n 1 ++ [EvLog None msg false])%list)
    /\ requestsOf (attemptEvents client req n 1 ++ [EvLog None msg false])
       = repeat req n
    /\ sleepsOf (attemptEvents client req n 1 ++ [EvLog None msg false]) = n
    /\ (0 < n -> exists evs,
          attemptEvents client req n 1 = (evs ++ [EvSleep])%list)%nat.
Proof.
  intros client req n Hnew Hall.
  eexists. split; [|split; [|split]].
  - rewrite (CallRequest_built E _ _ _ _ _ _ _ _ Hnew).
    fold client. fold req. fold n.
    replace n with (n + 0)%nat at 1 by lia.
    rewrite (attempts_failed_prefix E client req checkStatus n 0 1 w)
      by (intros j Hj; apply Hall; lia).
    simpl. rewrite after_after. reflexivity.
  - rewrite requestsOf_app, requestsOf_attemptEvents. simpl.
    apply app_nil_r.
  - unfold sleepsOf. rewrite List.filter_app, List.length_app.
    fold (sleepsOf (attemptEvents client req n 1)).
    rewrite sleepsOf_attemptEvents. simpl. lia.
  - intros Hn. clear Hall. generalize 1 as i.
    induction n as [|m IH]; [lia|]. intros i.
    destruct m as [|m].
    + now exists [EvDo client req i].
    + destruct (IH ltac:(lia) (i + 1)) as [evs Hevs].
      exists (EvDo client req i :: EvSleep :: evs).
      change (attemptEvents client req (S (S m)) i)
        with (EvDo client req i :: EvSleep
              :: attemptEvents client req (S m) (i + 1)).
      now rewrite Hevs.
Qed.

(** Three refused attempts: three requests, three sleeps, one log entry. *)
Lemma three_refusals_three_sleeps :
  let url := "https://example.com/a.jpg" in
  let client := {| Timeout := time.wrap64 (10 * time.Second) |} in
  let req := buildRequest refusing "GET" url [] ∅ ∅ in
  NewRequestErr refusing "GET" url = None
  /\ exists msg,
       CallRequest refusing "GET" url 10 [] ∅ ∅ true emptyWorld
       = (Ret (None, None),
          after emptyWorld
            [EvDo client req 1; EvSleep; EvDo client req 2; EvSleep;
             EvDo client req 3; EvSleep; EvLog None msg false]).
Proof.
  intros url client req. split; [reflexivity|].
  destruct (exhausted_retries_sleep_after_each_attempt refusing "GET" url 10
              [] ∅ ∅ true emptyWorld eq_refl (fun j _ => eq_refl))
    as (msg & Hrun & _).
  exists msg. exact Hrun.
Defined.

(** X3.  What [CallRequest] returns once the request is built tells what
    the attempts did.  The error is [nil].  A response is the answer to
    the first attempt that did not fail, one of the attempts
    [1..RETRY_COUNTER], and has status 200 where the status is checked;
    no response means that every one of these attempts failed. *)
Theorem response_is_first_acceptable_answer E method url timeout cookies
    additionalHeaders params checkStatus w r err w' :
  let client := {| Timeout := time.wrap64 (timeout * time.Second) |} in
  let req := buildRequest E method url cookies additionalHeaders params in
  NewRequestErr E method url = None ->
  CallRequest E method url timeout cookies additionalHeaders params
              checkStatus w = (Ret (r, err), w') ->
  err = None
  /\ match r with
     | Some resp =>
         exists i, 1 <= i <= RETRY_COUNTER E
           /\ (forall j, 1 <= j < i ->
                         failed checkStatus (clientDo E client req j) = true)
           /\ clientDo E client req i = inr resp
           /\ (checkStatus = true -> StatusCode resp = 200)
     | None =>
         forall j, 1 <= j <= RETRY_COUNTER E ->
                   failed checkStatus (clientDo E client req j) = true
     end.
Proof.
  intros client req Hnew Hcall.
  rewrite (CallRequest_built E _ _ _ _ _ _ _ _ Hnew) in Hcall.
  fold client in Hcall. fold req in Hcall.
  pose proof (attempts_result E client req checkStatus
                (Z.to_nat (RETRY_COUNTER E)) 1 w) as Hres.
  destruct (attempts E client req checkStatus (Z.to_nat (RETRY_COUNTER E)) 1 w)
    as [[[resp|]|a] w'']; simpl in Hres; [| |contradiction].
  - injection Hcall as <- <- _. split; [reflexivity|].
    destruct Hres as (k & Hk & Hfailed & Hdo & Hok).
    exists (1 + Z.of_nat k). split; [lia|].
    split; [intros j Hj; apply Hfailed; lia|]. split; [exact Hdo|].
    intros ->. simpl in Hok. apply negb_false_iff in Hok.
    now apply Z.eqb_eq.
  - injection Hcall as <- <- _. split; [reflexivity|].
    intros j Hj. apply Hres. lia.
Qed.

(** The response that the flaky host ends up giving is the third answer,
    with status 200. *)
Lemma flaky_response_has_status_200 :
  let url := "https://example.com/a.jpg" in
  let res := okResponse url in
  let client := {| Timeout := time.wrap64 (10 * time.Second) |} in
  let req := buildRequest (flaky res) "GET" url [] ∅ ∅ in
  NewRequestErr (flaky res) "GET" url = None
  /\ exists i, 1 <= i <= 3
       /\ clientDo (flaky res) client req i = inr res
       /\ StatusCode res = 200.
Proof.
  intros url res client req. split; [reflexivity|].
  assert (Hcall : CallRequest (flaky res) "GET" url 10 [] ∅ ∅ true emptyWorld
                  = (Ret (Some res, None),
                     snd (CallRequest (flaky res) "GET" url 10 [] ∅ ∅ true
                            emptyWorld)))
    by (vm_compute; reflexivity).
  destruct (response_is_first_acceptable_answer (flaky res) "GET" url 10
              [] ∅ ∅ true emptyWorld _ _ _ eq_refl Hcall)
    as (_ & i & Hi & _ & Hdo & Hstatus).
  exists i. split; [exact Hi|]. split; [exact Hdo | now apply Hstatus].
Defined.

(** X4.  Whatever the environment answers, [CallRequest] sends at most
    [RETRY_COUNTER] requests, and every one of them is the request it
    built at lines 22-49: the same method, URL, cookies, headers and
    query on every attempt. *)
Theorem requests_never_exceed_the_counter E method url timeout cookies
    additionalHeaders params checkStatus w evs :
  trace (snd (CallRequest E method url timeout cookies additionalHeaders params
                          checkStatus w)) = (trace w ++ evs)%list ->
  exists k, (k <= Z.to_nat (RETRY_COUNTER E))%nat
    /\ requestsOf evs
       = repeat (buildRequest E method url cookies additionalHeaders params) k.
Proof.
  intros Htrace.
  destruct (NewRequestErr E method url) as [e|] eqn:Hnew.
  { unfold CallRequest in Htrace. rewrite Hnew in Htrace. simpl in Htrace.
    exists 0%nat. split; [lia|].
    assert (evs = []) as ->; [|reflexivity].
    apply (app_inv_head (trace w)). now rewrite app_nil_r. }
  rewrite (CallRequest_built E _ _ _ _ _ _ _ _ Hnew) in Htrace.
  match type of Htrace with
  | context [attempts E ?c ?rq ?cs ?n ?i w] =>
      destruct (attempts_events E c rq cs n i w) as (evs' & k & Hsnd & Hk & Hreq);
      destruct (attempts E c rq cs n i w) as [[[resp|]|a] w'']
  end; simpl in Hsnd; subst w''; simpl in Htrace.
  - apply app_inv_head in Htrace. subst evs'. eauto.
  - rewrite <- List.app_assoc in Htrace. apply app_inv_head in Htrace.
    subst evs. exists k. split; [exact Hk|].
    rewrite requestsOf_app, Hreq. simpl. apply app_nil_r.
  - apply app_inv_head in Htrace. subst evs'. eauto.
Qed.

(** The refusing host sees three requests, no more. *)
Lemma refusing_host_sees_three_requests :
  let url := "https://example.com/a.jpg" in
  let evs := trace (snd (CallRequest refusing "GET" url 10 [] ∅ ∅ true
                           emptyWorld)) in
  trace (snd (CallRequest refusing "GET" url 10 [] ∅ ∅ true emptyWorld))
  = (trace emptyWorld ++ evs)%list
  /\ exists k, (k <= 3)%nat
       /\ requestsOf evs = repeat (buildRequest refusing "GET" url [] ∅ ∅) k.
Proof.
  intros url evs. split; [reflexivity|].
  exact (requests_never_exceed_the_counter refusing "GET" url 10 [] ∅ ∅ true
           emptyWorld evs eq_refl).
Defined.

(** ** Further properties of the downloader *)

Section DownloaderFacts.

Variable E : Env.

Lemma writeBody_handles fileURL filePath res w :
  handles (snd (writeBody E fileURL filePath res w)) = handles w.
Proof.
  unfold writeBody, bind, utils.CheckIfFileIsEmpty, os.Create, io.Copy,
    os.Close, os.Remove, utils.LogError, emit, ret, panic, bind.
  destruct (files w !! filePath) as [[|c cs]|]; simpl; try reflexivity;
    destruct (createErr E filePath) as [ce|]; simpl; try reflexivity;
    destruct (BodyErr res) as [[n e]|]; simpl; try reflexivity;
    destruct (removeErr E filePath); reflexivity.
Qed.

(** [writeBody] returns [nil] or panics. *)
Lemma writeBody_returns_nil fileURL filePath res w :
  fst (writeBody E fileURL filePath res w) = Ret None
  \/ exists v, fst (writeBody E fileURL filePath res w) = Stop (Panicked v).
Proof.
  unfold writeBody, bind, utils.CheckIfFileIsEmpty, os.Create, io.Copy,
    os.Close, os.Remove, utils.LogError, emit, ret, panic, bind.
  destruct (files w !! filePath) as [[|c cs]|]; simpl; try (now left);
    destruct (createErr E filePath) as [ce|]; simpl; try (right; now eexists);
    destruct (BodyErr res) as [[n e]|]; simpl; try (now left);
    destruct (removeErr E filePath); now left.
Qed.

(** A file that [writeBody] leaves with some content either had it
    before, or holds the whole body of the response, or holds the part of
    it that was written before the stream broke, [os.Remove] having
    failed. *)
Lemma writeBody_content fileURL filePath res w p content :
  files (snd (writeBody E fileURL filePath res w)) !! p = Some content ->
  files w !! p = Some content
  \/ (p = filePath /\ BodyErr res = None /\ content = Body res)
  \/ (p = filePath /\ removeErr E filePath <> None
      /\ exists n e, BodyErr res = Some (n, e)
                     /\ content = firstn n (Body res)).
Proof.
  unfold writeBody, bind, utils.CheckIfFileIsEmpty, os.Create, io.Copy,
    os.Close, os.Remove, utils.LogError, emit, ret, panic, bind.
  destruct (decide (p = filePath)) as [->|Hne].
  - destruct (files w !! filePath) as [[|c cs]|] eqn:Hfile; simpl;
      destruct (createErr E filePath) as [ce|]; simpl;
      destruct (BodyErr res) as [[n e]|]; simpl;
      try destruct (removeErr E filePath) as [re|] eqn:Hremove; simpl;
      rewrite ?lookup_delete_eq, ?lookup_insert_eq, ?Hfile;
      intros H; try discriminate H;
      first [ left; exact H
            | right; left; injection H as <-; now repeat split
            | right; right; injection H as <-;
              split; [reflexivity|]; split; [discriminate|];
              now exists n, e ].
  - destruct (files w !! filePath) as [[|c cs]|]; simpl; try (now left);
      destruct (createErr E filePath) as [ce|]; simpl; try (now left);
      destruct (BodyErr res) as [[n e]|]; simpl;
      try destruct (removeErr E filePath); simpl;
      rewrite ?lookup_delete_ne, ?lookup_insert_ne by congruence; now left.
Qed.

(** The run of [DownloadURL], by the three ways the dispatch can end. *)
Lemma DownloadURL_cases fileURL filePath cookies headers params w :
  let result := DownloadURL E fileURL filePath cookies headers params w in
  (exists e, NewRequestErr E "GET" fileURL = Some e
             /\ result = (Ret (Some e), w))
  \/ (exists w1,
        CallRequest E "GET" fileURL (25 * 60) cookies headers params true w
        = (Ret (None, None), w1)
        /\ result
           = (Stop (Panicked
                      "invalid memory address or nil pointer dereference"),
              w1))
  \/ (exists res w1,
        CallRequest E "GET" fileURL (25 * 60) cookies headers params true w
        = (Ret (Some res, None), w1)
        /\ ((exists p w2,
               resolvePath E filePath res w1 = (Ret p, w2)
               /\ result
                  = (fst (writeBody E fileURL p res w2),
                     after (snd (writeBody E fileURL p res w2))
                       [EvBodyClose]))
            \/ (exists v w2,
                  resolvePath E filePath res w1 = (Stop (Panicked v), w2)
                  /\ result = (Stop (Panicked v), after w2 [EvBodyClose])))).
Proof.
  intros result. unfold result.
  destruct (NewRequestErr E "GET" fileURL) as [e|] eqn:Hnew.
  { left. exists e. split; [reflexivity|].
    unfold DownloadURL, bind, CallRequest. now rewrite Hnew. }
  right.
  destruct (CallRequest_returns E "GET" fileURL (25 * 60) cookies headers
              params true w Hnew) as ([res|] & w1 & Hcall & _).
  - right. exists res, w1. split; [exact Hcall|].
    destruct (resolvePath E filePath res w1) as [[p|[v|c]] w2] eqn:Hpath.
    + left. exists p, w2. split; [reflexivity|].
      exact (DownloadURL_resolved E _ _ _ _ _ _ _ _ _ _ Hcall Hpath).
    + right. exists v, w2. split; [reflexivity|].
      rewrite (DownloadURL_dispatched E _ _ _ _ _ _ _ _ Hcall).
      unfold defer, bind. now rewrite Hpath.
    + exfalso. revert Hpath.
      unfold resolvePath, bind, os.MkdirAll, emit, panic, ret.
      destruct (String.eqb (filepath.Ext filePath) ""); simpl;
        [destruct (url.PathUnescape (RequestURL res))|]; discriminate.
  - left. exists w1. split; [exact Hcall|].
    unfold DownloadURL. unfold bind at 1. now rewrite Hcall.
Qed.

End DownloaderFacts.

(** X5.  [DownloadURL] returns a non-[nil] error in one case only: when
    [http.NewRequest] rejects the URL.  It then returns that error and
    has done nothing: no request, no directory, no file, no log entry.
    Every other failure ends in [nil] or in a panic. *)
Theorem only_a_rejected_url_is_reported E fileURL filePath cookies headers
    params w e :
  fst (DownloadURL E fileURL filePath cookies headers params w) = Ret (Some e)
  <-> NewRequestErr E "GET" fileURL = Some e
      /\ DownloadURL E fileURL filePath cookies headers params w
         = (Ret (Some e), w).
Proof.
  split; [|intros [_ ->]; reflexivity].
  intros Hret.
  destruct (DownloadURL_cases E fileURL filePath cookies headers params w)
    as [(e' & Hnew & Hrun)|[(w1 & _ & Hrun)|(res & w1 & _ & Hrest)]].
  - rewrite Hrun in Hret |- *. injection Hret as ->. now split.
  - rewrite Hrun in Hret. discriminate.
  - destruct Hrest as [(p & w2 & _ & Hrun)|(v & w2 & _ & Hrun)];
      rewrite Hrun in Hret; simpl in Hret; [|discriminate].
    destruct (writeBody_returns_nil E fileURL p res w2) as [H|[v H]];
      rewrite H in Hret; discriminate.
Qed.

(** The URL [:] has no scheme: the error comes back and the world is as
    it was. *)
Lemma colon_url_is_reported :
  let E := hostile (okResponse ":") in
  DownloadURL E ":" "/out/" [] ∅ ∅ (reportWorld twoBytes)
  = (Ret (Some "missing protocol scheme"), reportWorld twoBytes).
Proof.
  intros E.
  apply (proj1 (only_a_rejected_url_is_reported E ":" "/out/" [] ∅ ∅
                  (reportWorld twoBytes) "missing protocol scheme")).
  vm_compute. reflexivity.
Defined.

(** X6.  What [DownloadURL] leaves on disk is never the body of a
    rejected answer, and a partial download only where [os.Remove] has
    failed: a file that holds some content after the run either held it
    before, or holds bytes of a response with status 200 that one of the
    attempts [1..RETRY_COUNTER] received; these are the whole body when
    the stream held, and the bytes written before the stream broke when
    the file could not be removed. *)
Theorem partial_files_need_a_failed_removal E fileURL filePath cookies headers
    params w p content :
  let client := {| Timeout := time.wrap64 (25 * 60 * time.Second) |} in
  let req := buildRequest E "GET" fileURL cookies headers params in
  files (snd (DownloadURL E fileURL filePath cookies headers params w)) !! p
  = Some content ->
  files w !! p = Some content
  \/ exists res i,
       1 <= i <= RETRY_COUNTER E
       /\ clientDo E client req i = inr res
       /\ StatusCode res = 200
       /\ ((BodyErr res = None /\ content = Body res)
           \/ (removeErr E p <> None
               /\ exists n e, BodyErr res = Some (n, e)
                              /\ content = firstn n (Body res))).
Proof.
  intros client req Hp.
  destruct (DownloadURL_cases E fileURL filePath cookies headers params w)
    as [(e' & Hnew & Hrun)|[(w1 & Hcall & Hrun)|(res & w1 & Hcall & Hrest)]].
  - rewrite Hrun in Hp. now left.
  - rewrite Hrun in Hp. simpl in Hp.
    pose proof (CallRequest_files E "GET" fileURL (25 * 60) cookies headers
                  params true w) as [Hf _].
    rewrite Hcall in Hf. simpl in Hf. rewrite Hf in Hp. now left.
  - destruct (CallRequest_dispatched E _ _ _ _ _ _ _ _ _ _ _ Hcall)
      as (Hf & _ & _).
    destruct Hrest as [(p' & w2 & Hpath & Hrun)|(v & w2 & Hpath & Hrun)];
      pose proof (resolvePath_files E filePath res w1) as [Hf2 _];
      rewrite Hpath in Hf2; simpl in Hf2;
      rewrite Hrun in Hp; simpl in Hp; [|left; now rewrite <- Hf, <- Hf2].
    assert (Hsent : exists i, 1 <= i <= RETRY_COUNTER E
                     /\ clientDo E client req i = inr res
                     /\ StatusCode res = 200).
    { assert (Hnew : NewRequestErr E "GET" fileURL = None).
      { destruct (NewRequestErr E "GET" fileURL) eqn:Hn; [|reflexivity].
        unfold CallRequest in Hcall. rewrite Hn in Hcall. discriminate. }
      rewrite (CallRequest_built E _ _ _ _ _ _ _ _ Hnew) in Hcall.
      fold client in Hcall. fold req in Hcall.
      pose proof (attempts_result E client req true
                    (Z.to_nat (RETRY_COUNTER E)) 1 w) as Hres.
      destruct (attempts E client req true (Z.to_nat (RETRY_COUNTER E)) 1 w)
        as [[[resp|]|a] w'']; simpl in Hres; try discriminate.
      injection Hcall as <- _.
      destruct Hres as (k & Hk & _ & Hdo & Hok).
      exists (1 + Z.of_nat k). split; [lia|]. split; [exact Hdo|].
      simpl in Hok. apply negb_false_iff in Hok. now apply Z.eqb_eq. }
    destruct Hsent as (i & Hi & Hdo & Hstatus).
    apply writeBody_content in Hp
      as [Hp|[(-> & Hbody & ->)|(-> & Hremove & n & e & Hbody & ->)]].
    + left. now rewrite <- Hf, <- Hf2.
    + right. exists res, i. repeat split; try assumption; try lia.
      now left.
    + right. exists res, i. repeat split; try assumption; try lia.
      right. split; [exact Hremove|]. now exists n, e.
Qed.

(** In a directory whose entries cannot be removed, the one byte that was
    written before the stream broke stays in [/out/report.pdf]. *)
Lemma sticky_directory_keeps_the_first_byte :
  let res := brokenResponse "https://cdn.example.com/files/0001.bin" in
  let E := sticky res in
  let result := DownloadURL E "https://example.com/dl/1" "/out/report.PDF"
                  [] ∅ ∅ (reportWorld []) in
  files (snd result) !! "/out/report.pdf" = Some [Byte.x4a]
  /\ (files (reportWorld []) !! "/out/report.pdf" = Some [Byte.x4a]
      \/ exists res i,
           1 <= i <= RETRY_COUNTER E
           /\ clientDo E {| Timeout := time.wrap64 (25 * 60 * time.Second) |}
                (buildRequest E "GET" "https://example.com/dl/1" [] ∅ ∅) i
              = inr res
           /\ StatusCode res = 200
           /\ ((BodyErr res = None /\ [Byte.x4a] = Body res)
               \/ (removeErr E "/out/report.pdf" <> None
                   /\ exists n e, BodyErr res = Some (n, e)
                                  /\ [Byte.x4a] = firstn n (Body res)))).
Proof.
  intros res E result.
  assert (Hp : files (snd result) !! "/out/report.pdf" = Some [Byte.x4a])
    by (vm_compute; reflexivity).
  split; [exact Hp|].
  exact (partial_files_need_a_failed_removal E "https://example.com/dl/1"
           "/out/report.PDF" [] ∅ ∅ (reportWorld []) "/out/report.pdf"
           [Byte.x4a] Hp).
Defined.

(** X7.  A run of [DownloadURL] changes at most one file, whatever its
    outcome: every path but one holds after the run what it held
    before. *)
Theorem at_most_one_file_changes E fileURL filePath cookies headers params w :
  exists p, forall q,
    q <> p ->
    files (snd (DownloadURL E fileURL filePath cookies headers params w)) !! q
    = files w !! q.
Proof.
  destruct (DownloadURL_cases E fileURL filePath cookies headers params w)
    as [(e' & Hnew & Hrun)|[(w1 & Hcall & Hrun)|(res & w1 & Hcall & Hrest)]].
  - exists "". intros q _. now rewrite Hrun.
  - exists "". intros q _. rewrite Hrun. simpl.
    pose proof (CallRequest_files E "GET" fileURL (25 * 60) cookies headers
                  params true w) as [Hf _].
    rewrite Hcall in Hf. simpl in Hf. now rewrite Hf.
  - destruct (CallRequest_dispatched E _ _ _ _ _ _ _ _ _ _ _ Hcall)
      as (Hf & _ & _).
    destruct Hrest as [(p' & w2 & Hpath & Hrun)|(v & w2 & Hpath & Hrun)];
      pose proof (resolvePath_files E filePath res w1) as [Hf2 _];
      rewrite Hpath in Hf2; simpl in Hf2.
    + exists p'. intros q Hq. rewrite Hrun. simpl.
      rewrite (writeBody_others E _ _ _ _ _ Hq). now rewrite Hf2, Hf.
    + exists "". intros q _. rewrite Hrun. simpl. now rewrite Hf2, Hf.
Qed.

(** X8.  [DownloadURL] gives back what it takes, on every path: the
    number of open files is after the run what it was before, whether the
    run returns or panics; and once the dispatch has succeeded the body
    of the response is closed as the last thing the run does, be it a
    skip, a write, a broken write or a panic. *)
Theorem files_and_body_are_closed E fileURL filePath cookies headers params w :
  let result := DownloadURL E fileURL filePath cookies headers params w in
  handles (snd result) = handles w
  /\ forall res w1,
       CallRequest E "GET" fileURL (25 * 60) cookies headers params true w
       = (Ret (Some res, None), w1) ->
       last (trace (snd result)) = Some EvBodyClose.
Proof.
  intros result. unfold result.
  destruct (DownloadURL_cases E fileURL filePath cookies headers params w)
    as [(e' & Hnew & Hrun)|[(w1 & Hcall & Hrun)|(res & w1 & Hcall & Hrest)]].
  - rewrite Hrun. split; [reflexivity|]. intros res w1 Hcall.
    unfold CallRequest in Hcall. rewrite Hnew in Hcall. discriminate.
  - rewrite Hrun. simpl.
    pose proof (CallRequest_files E "GET" fileURL (25 * 60) cookies headers
                  params true w) as [_ Hh].
    rewrite Hcall in Hh. split; [exact Hh|]. intros res w2 Hcall'.
    rewrite Hcall in Hcall'. discriminate.
  - destruct (CallRequest_dispatched E _ _ _ _ _ _ _ _ _ _ _ Hcall)
      as (_ & Hh & _).
    destruct Hrest as [(p' & w2 & Hpath & Hrun)|(v & w2 & Hpath & Hrun)];
      pose proof (resolvePath_files E filePath res w1) as [_ Hh2];
      rewrite Hpath in Hh2; simpl in Hh2; rewrite Hrun; simpl.
    + rewrite writeBody_handles, Hh2, Hh.
      split; [reflexivity|]. intros _ _ _. apply last_snoc.
    + rewrite Hh2, Hh. split; [reflexivity|]. intros _ _ _. apply last_snoc.
Qed.

(** After the broken write the body is closed and no file is open. *)
Lemma broken_write_closes_everything :
  let E := serving (brokenResponse "https://cdn.example.com/files/0001.bin") in
  let result := DownloadURL E "https://example.com/dl/1" "/out/report.PDF"
                  [] ∅ ∅ emptyWorld in
  handles (snd result) = 0%nat
  /\ last (trace (snd result)) = Some EvBodyClose.
Proof.
  intros E result.
  assert (Hcall : CallRequest E "GET" "https://example.com/dl/1" (25 * 60)
                    [] ∅ ∅ true emptyWorld
                  = (Ret (Some (brokenResponse
                                  "https://cdn.example.com/files/0001.bin"),
                          None),
                     snd (CallRequest E "GET" "https://example.com/dl/1"
                            (25 * 60) [] ∅ ∅ true emptyWorld)))
    by (vm_compute; reflexivity).
  destruct (files_and_body_are_closed E "https://example.com/dl/1"
              "/out/report.PDF" [] ∅ ∅ emptyWorld) as [Hh Hclose].
  split; [exact Hh | exact (Hclose _ _ Hcall)].
Defined.

(** X9.  When [os.Create] fails for a file that is absent or empty,
    [DownloadURL] panics with the error of [os.Create] (line 109): the
    disk is as it was, the body of the response is closed on the way out
    by the deferred call, and nothing is logged. *)
Theorem create_failure_panics E fileURL filePath cookies headers params
    w res w1 p w2 e :
  CallRequest E "GET" fileURL (25 * 60) cookies headers params true w
  = (Ret (Some res, None), w1) ->
  resolvePath E filePath res w1 = (Ret p, w2) ->
  files w !! p = None \/ files w !! p = Some [] ->
  createErr E p = Some e ->
  DownloadURL E fileURL filePath cookies headers params w
  = (Stop (Panicked e), after w2 [EvBodyClose])
  /\ files w2 = files w.
Proof.
  intros Hcall Hpath Hfile Hcreate.
  destruct (CallRequest_dispatched E _ _ _ _ _ _ _ _ _ _ _ Hcall)
    as (Hf & _ & _).
  pose proof (resolvePath_files E filePath res w1) as [Hf2 _].
  rewrite Hpath in Hf2. simpl in Hf2.
  split; [|now rewrite Hf2, Hf].
  rewrite (DownloadURL_resolved E _ _ _ _ _ _ _ _ _ _ Hcall Hpath).
  assert (Hempty : match files w2 !! p with
                   | Some (_ :: _) => false
                   | _ => true
                   end = true)
    by (rewrite Hf2, Hf; destruct Hfile as [-> | ->]; reflexivity).
  unfold writeBody, bind, utils.CheckIfFileIsEmpty, os.Create, panic.
  now rewrite Hempty, Hcreate.
Qed.

(** No permission to create [/out/report.pdf]: the run panics. *)
Lemma permission_denied_panics :
  let E := hostile (okResponse "https://cdn.example.com/files/0001.bin") in
  createErr E "/out/report.pdf" = Some "permission denied"
  /\ fst (DownloadURL E "https://example.com/dl/1" "/out/report.PDF"
            [] ∅ ∅ emptyWorld)
     = Stop (Panicked "permission denied").
Proof.
  intros E. split; [reflexivity|].
  assert (Hcall : CallRequest E "GET" "https://example.com/dl/1" (25 * 60)
                    [] ∅ ∅ true emptyWorld
                  = (Ret (Some (okResponse
                                  "https://cdn.example.com/files/0001.bin"),
                          None),
                     snd (CallRequest E "GET" "https://example.com/dl/1"
                            (25 * 60) [] ∅ ∅ true emptyWorld)))
    by (vm_compute; reflexivity).
  assert (Hpath : resolvePath E "/out/report.PDF"
                    (okResponse "https://cdn.example.com/files/0001.bin")
                    (snd (CallRequest E "GET" "https://example.com/dl/1"
                            (25 * 60) [] ∅ ∅ true emptyWorld))
                  = (Ret "/out/report.pdf",
                     snd (resolvePath E "/out/report.PDF"
                            (okResponse
                               "https://cdn.example.com/files/0001.bin")
                            (snd (CallRequest E "GET"
                                    "https://example.com/dl/1" (25 * 60)
                                    [] ∅ ∅ true emptyWorld)))))
    by (vm_compute; reflexivity).
  assert (Hfile : files emptyWorld !! "/out/report.pdf" = None
                  \/ files emptyWorld !! "/out/report.pdf" = Some [])
    by (left; vm_compute; reflexivity).
  destruct (create_failure_panics E _ _ _ _ _ _ _ _ _ _ "permission denied"
              Hcall Hpath Hfile eq_refl) as [Hrun _].
  now rewrite Hrun.
Defined.

(** X10.  For a destination without extension, a response URL that
    [url.PathUnescape] rejects makes [DownloadURL] panic (line 89) after
    [os.MkdirAll] has been called for the destination: the directory is
    made for a file that never comes.  No file changes, and the body of
    the response is closed on the way out. *)
Theorem malformed_escape_panics_after_MkdirAll E fileURL filePath cookies
    headers params w res w1 :
  filepath.Ext filePath = "" ->
  CallRequest E "GET" fileURL (25 * 60) cookies headers params true w
  = (Ret (Some res, None), w1) ->
  url.PathUnescape (RequestURL res) = None ->
  DownloadURL E fileURL filePath cookies headers params w
  = (Stop (Panicked "invalid URL escape"),
     after w1 [EvMkdirAll filePath; EvBodyClose])
  /\ files w1 = files w.
Proof.
  intros Hext Hcall Hu.
  destruct (CallRequest_dispatched E _ _ _ _ _ _ _ _ _ _ _ Hcall)
    as (Hf & _ & _).
  split; [|exact Hf].
  rewrite (DownloadURL_dispatched E _ _ _ _ _ _ _ _ Hcall).
  unfold defer, bind, resolvePath, os.MkdirAll, emit, panic.
  rewrite Hext, Hu. simpl. unfold after. simpl.
  now rewrite <- List.app_assoc.
Qed.

(** The query [?rate=100%] cannot be unescaped: the run panics with
    [/out/] made. *)
Lemma percent_in_query_panics :
  let requestURL := "https://cdn.example.com/media/a.jpg?rate=100%" in
  let E := serving (okResponse requestURL) in
  url.PathUnescape requestURL = None
  /\ fst (DownloadURL E "https://example.com/a.jpg" "/out/" [] ∅ ∅ emptyWorld)
     = Stop (Panicked "invalid URL escape")
  /\ In (EvMkdirAll "/out/")
        (trace (snd (DownloadURL E "https://example.com/a.jpg" "/out/"
                       [] ∅ ∅ emptyWorld))).
Proof.
  intros requestURL E.
  assert (Hu : url.PathUnescape (RequestURL (okResponse requestURL)) = None)
    by (vm_compute; reflexivity).
  assert (Hcall : CallRequest E "GET" "https://example.com/a.jpg" (25 * 60)
                    [] ∅ ∅ true emptyWorld
                  = (Ret (Some (okResponse requestURL), None),
                     snd (CallRequest E "GET" "https://example.com/a.jpg"
                            (25 * 60) [] ∅ ∅ true emptyWorld)))
    by (vm_compute; reflexivity).
  assert (Hext : filepath.Ext "/out/" = "") by (vm_compute; reflexivity).
  destruct (malformed_escape_panics_after_MkdirAll E _ _ _ _ _ _ _ _
              Hext Hcall Hu) as [Hrun _].
  split; [exact Hu|]. rewrite Hrun. split; [reflexivity|].
  simpl. right. left. reflexivity.
Defined.

(** X11.  [DownloadURL] aborts in three ways and no other: on the [nil]
    response of exhausted retries, on a response URL that cannot be
    unescaped when the destination has no extension, and on the error of
    [os.Create].  It never exits the process: the log entries it writes
    are not fatal. *)
Theorem download_aborts_in_three_ways E fileURL filePath cookies headers
    params w a :
  fst (DownloadURL E fileURL filePath cookies headers params w) = Stop a ->
  a = Panicked "invalid memory address or nil pointer dereference"
  \/ (filepath.Ext filePath = "" /\ a = Panicked "invalid URL escape")
  \/ exists p e, createErr E p = Some e /\ a = Panicked e.
Proof.
  destruct (DownloadURL_cases E fileURL filePath cookies headers params w)
    as [(e' & _ & Hrun)|[(w1 & _ & Hrun)|(res & w1 & _ & Hrest)]].
  - rewrite Hrun. discriminate.
  - rewrite Hrun. intros H. injection H as <-. now left.
  - destruct Hrest as [(p & w2 & _ & Hrun)|(v & w2 & Hpath & Hrun)];
      rewrite Hrun; simpl; intros H; right.
    + right. exists p. revert H.
      unfold writeBody, bind, utils.CheckIfFileIsEmpty, os.Create, io.Copy,
        os.Close, os.Remove, utils.LogError, emit, ret, panic, bind.
      destruct (files w2 !! p) as [[|c cs]|]; simpl; try discriminate;
        destruct (createErr E p) as [ce|]; simpl;
        try (intros H; injection H as <-; now exists ce);
        destruct (BodyErr res) as [[n e]|]; simpl; try discriminate;
        destruct (removeErr E p); discriminate.
    + left. injection H as <-. revert Hpath.
      unfold resolvePath, bind, os.MkdirAll, emit, panic, ret.
      destruct (String.eqb_spec (filepath.Ext filePath) "") as [Hext|_];
        simpl; [|discriminate].
      destruct (url.PathUnescape (RequestURL res)); [discriminate|].
      intros H. injection H as <- _. now split.
Qed.

(** The host that refuses every connection: the abort is the first of the
    three. *)
Lemma refused_download_aborts_on_nil :
  let a := Panicked "invalid memory address or nil pointer dereference" in
  a = Panicked "invalid memory address or nil pointer dereference"
  \/ (filepath.Ext "/out/" = "" /\ a = Panicked "invalid URL escape")
  \/ exists p e, createErr refusing p = Some e /\ a = Panicked e.
Proof.
  intros a.
  assert (Hrun : fst (DownloadURL refusing "https://example.com/a.jpg" "/out/"
                        [] ∅ ∅ emptyWorld) = Stop a)
    by (vm_compute; reflexivity).
  exact (download_aborts_in_three_ways refusing "https://example.com/a.jpg"
           "/out/" [] ∅ ∅ emptyWorld a Hrun).
Defined.

(** ** The coordinator, on every schedule *)

Section Schedules.

Variable E : Env.
Variable cookies : list Cookie.
Variables headers params : gmap string string.

Lemma step_uncrashed (s s' : System) :
  step E cookies headers params s s' -> crashed s = None.
Proof. now destruct 1. Qed.

(** Once the process has died no goroutine takes another step. *)
Lemma crashed_is_final (s s' : System) :
  crashed s <> None -> rtc (step E cookies headers params) s s' -> s' = s.
Proof.
  intros Hc Hrun. destruct (rtc_inv _ _ Hrun) as [->|(s1 & Hstep & _)];
    [reflexivity|].
  apply step_uncrashed in Hstep. contradiction.
Qed.

(** A step leaves the files that are present and not empty. *)
Lemma step_keeps (s s' : System) p b bs :
  step E cookies headers params s s' ->
  files (world s) !! p = Some (b :: bs) ->
  files (world s') !! p = Some (b :: bs).
Proof.
  intros Hstep Hp.
  destruct Hstep; cbn [started setWorld setBar setWg setQueueLen
    setQueueClosed setMain setWorkers setCrashed world]; try exact Hp;
    match goal with
    | H : DownloadURL _ _ _ _ _ _ _ = (_, ?w') |- _ =>
        change w' with (snd (@pair (Outcome (option Error)) World
                               (fst (DownloadURL E (fileUrl wk) (filePath wk)
                                       cookies headers params (world s))) w'))
    end.
  all: pose proof (DownloadURL_keeps E (fileUrl wk) (filePath wk) cookies
                     headers params (world s) p b bs Hp) as Hkeep;
    match goal with
    | H : DownloadURL _ _ _ _ _ _ _ = _ |- _ => rewrite H in Hkeep
    end; exact Hkeep.
Qed.

(** The write of the body sends no request. *)
Lemma writeBody_requests fileURL filePath res w :
  requestCount (snd (writeBody E fileURL filePath res w)) = requestCount w.
Proof.
  unfold requestCount, writeBody, bind, utils.CheckIfFileIsEmpty, os.Create,
    io.Copy, os.Close, os.Remove, utils.LogError, emit, ret, panic, bind.
  destruct (files w !! filePath) as [[|c cs]|]; simpl; try reflexivity;
    destruct (createErr E filePath) as [ce|]; simpl; try reflexivity;
    destruct (BodyErr res) as [[n e]|]; simpl; try reflexivity;
    destruct (removeErr E filePath); simpl;
    now rewrite requestsOf_app, List.length_app, Nat.add_0_r.
Qed.

Lemma CallRequest_requestCount method url timeout additionalHeaders
    checkStatus w :
  (requestCount (snd (CallRequest E method url timeout cookies
                        additionalHeaders params checkStatus w))
   <= requestCount w + Z.to_nat (RETRY_COUNTER E))%nat.
Proof.
  destruct (NewRequestErr E method url) as [e|] eqn:Hnew.
  { unfold CallRequest. rewrite Hnew. simpl. lia. }
  rewrite (CallRequest_built E _ _ _ _ _ _ _ _ Hnew).
  match goal with
  | |- context [attempts E ?c ?rq ?cs ?n ?i w] =>
      destruct (attempts_events E c rq cs n i w) as (evs & k & Hsnd & Hk & Hreq);
      destruct (attempts E c rq cs n i w) as [[[resp|]|a] w']
  end; simpl in Hsnd; subst w'; unfold requestCount, after; simpl;
    rewrite ?requestsOf_app, ?List.length_app, Hreq, repeat_length; simpl; lia.
Qed.

(** A download sends at most [RETRY_COUNTER] requests. *)
Lemma DownloadURL_requestCount fileURL filePath w :
  (requestCount (snd (DownloadURL E fileURL filePath cookies headers params w))
   <= requestCount w + Z.to_nat (RETRY_COUNTER E))%nat.
Proof.
  pose proof (CallRequest_requestCount "GET" fileURL (25 * 60) headers true w)
    as Hcall.
  assert (Hclose : forall w0, requestCount (after w0 [EvBodyClose])
                              = requestCount w0).
  { intros w0. unfold requestCount, after. simpl.
    now rewrite requestsOf_app, List.length_app, Nat.add_0_r. }
  destruct (DownloadURL_cases E fileURL filePath cookies headers params w)
    as [(e' & _ & Hrun)|[(w1 & Hc & Hrun)|(res & w1 & Hc & Hrest)]];
    [rewrite Hrun; simpl; lia | rewrite Hrun; now rewrite Hc in Hcall |].
  rewrite Hc in Hcall. simpl in Hcall.
  assert (Hdir : forall o w2, resolvePath E filePath res w1 = (o, w2) ->
                              requestCount w2 = requestCount w1).
  { intros o w2 Hpath.
    destruct (resolvePath_trace E _ _ _ _ _ Hpath) as (dir & ->).
    unfold requestCount, after. simpl.
    now rewrite requestsOf_app, List.length_app, Nat.add_0_r. }
  destruct Hrest as [(p & w2 & Hpath & Hrun)|(v & w2 & Hpath & Hrun)];
    rewrite Hrun; simpl; rewrite Hclose, ?writeBody_requests,
      (Hdir _ _ Hpath); exact Hcall.
Qed.

Ltac count_workers :=
  repeat match goal with
  | H : workers _ = (_ ++ _ :: _)%list |- _ => rewrite H in *; clear H
  end;
  rewrite ?inStage_split, ?inStage_app, ?List.length_app in *;
  repeat match goal with
  | H : stage ?wk = _ |- _ => rewrite H in *; clear H
  end;
  cbn [length inStage List.filter stage setStage jobWorker notTicked holdsSlot
       isFetching] in *.

(** The requests of a batch, by the jobs that have been through
    [DownloadURL]. *)
Lemma batch_requests (urls : list (gmap string string)) (maxConcurrency : Z)
    (w : World) (s : System) :
  rtc (step E cookies headers params)
      (DownloadURLsParallel urls maxConcurrency w) s ->
  (crashed s = None ->
   requestCount (world s)
   + Z.to_nat (RETRY_COUNTER E)
     * (length (pending (main s)) + inStage isFetching (workers s))
   <= requestCount w + Z.to_nat (RETRY_COUNTER E) * length urls)%nat
  /\ (requestCount (world s)
      <= requestCount w + Z.to_nat (RETRY_COUNTER E) * length urls)%nat.
Proof.
  apply (rtc_ind_r (fun s =>
    (crashed s = None ->
     requestCount (world s)
     + Z.to_nat (RETRY_COUNTER E)
       * (length (pending (main s)) + inStage isFetching (workers s))
     <= requestCount w + Z.to_nat (RETRY_COUNTER E) * length urls)%nat
    /\ (requestCount (world s)
        <= requestCount w + Z.to_nat (RETRY_COUNTER E) * length urls)%nat)).
  - unfold DownloadURLsParallel, inStage. simpl. split; [intros _|]; nia.
  - intros s1 s2 _ Hstep [Hopen Hall].
    pose proof (step_uncrashed _ _ Hstep) as Hc. specialize (Hopen Hc).
    destruct Hstep;
      try match goal with
      | H : DownloadURL _ ?fu ?fp _ _ _ ?w0 = (_, ?w') |- _ =>
          let Hn := fresh "Hn" in
          pose proof (DownloadURL_requestCount fu fp w0) as Hn;
          rewrite H in Hn; simpl in Hn
      end;
      cbn [started setWorld setBar setWg setQueueLen setQueueClosed setMain
           setWorkers setCrashed world main workers crashed pending] in *;
      try match goal with H : main _ = _ |- _ => rewrite H in * end;
      cbn [pending length] in *; count_workers;
      (split; [intros Hc'; try discriminate Hc'|]); nia.
Qed.

(** The length of a run, by the statements the call has left. *)
Lemma nsteps_workLeft (n : nat) (s s' : System) :
  nsteps (step E cookies headers params) n s s' -> (n <= workLeft s)%nat.
Proof.
  induction 1 as [s|n s s1 s2 Hstep Hrest IH]; [lia|].
  destruct (crashed s1) as [a|] eqn:Hc1.
  - assert (n = 0%nat) as ->.
    { destruct Hrest as [|n s1 s1' s2 Hstep' _]; [reflexivity|].
      apply step_uncrashed in Hstep'. congruence. }
    pose proof (step_uncrashed _ _ Hstep) as Hc.
    unfold workLeft.
    destruct Hstep; cbn [started setWorld setBar setWg setQueueLen
      setQueueClosed setMain setWorkers setCrashed crashed] in Hc1;
      try congruence.
    all: match goal with H : workers _ = _ |- _ => rewrite H end;
      rewrite workersLeft_app; cbn [workersLeft];
      match goal with H : stage _ = _ |- _ => rewrite H end;
      cbn [stageWeight]; lia.
  - pose proof (step_workLeft E cookies headers params s s1 Hstep Hc1). lia.
Qed.

(** Once the loop is over the queue is closed. *)
Lemma closed_after_loop (urls : list (gmap string string))
    (maxConcurrency : Z) (w : World) (s : System) :
  rtc (step E cookies headers params)
      (DownloadURLsParallel urls maxConcurrency w) s ->
  main s = Waiting \/ main s = Returned -> queueClosed s = true.
Proof.
  apply (rtc_ind_r (fun s =>
    main s = Waiting \/ main s = Returned -> queueClosed s = true)).
  - unfold DownloadURLsParallel. simpl. intros [H|H]; discriminate H.
  - intros s1 s2 _ Hstep Hq.
    destruct Hstep; cbn [started setWorld setBar setWg setQueueLen
      setQueueClosed setMain setWorkers setCrashed main queueClosed] in *;
      try exact Hq; try reflexivity;
      try (intros [Hm|Hm]; discriminate Hm).
    intros _. apply Hq. now left.
Qed.

End Schedules.

(** The run of [oneJob] under a limit of four, when its download returns:
    the job is started, downloaded, counted, its slot is released and its
    goroutine ends; the queue is closed and the call returns. *)
Lemma one_job_returns (E : Env) (w : World) (err : option Error) :
  fst (DownloadURL E "https://example.com/a.jpg" "/out/" [] ∅ ∅ w) = Ret err ->
  nsteps (step E [] ∅ ∅) 7 (DownloadURLsParallel oneJob 4 w)
         (oneJobReturned E w).
Proof.
  intros Hret.
  pose (u := {[ "url" := "https://example.com/a.jpg";
                "filepath" := "/out/" ]} : gmap string string).
  pose (wk := jobWorker u).
  assert (Hurl : fileUrl wk = "https://example.com/a.jpg")
    by (vm_compute; reflexivity).
  assert (Hpath : filePath wk = "/out/") by (vm_compute; reflexivity).
  pose (w' := snd (DownloadURL E "https://example.com/a.jpg" "/out/"
                     [] ∅ ∅ w)).
  pose (s0 := DownloadURLsParallel oneJob 4 w).
  pose (s1 := started u [] 1 [] s0).
  pose (s2 := setWorld w' (setWorkers [setStage Ticking wk] s1)).
  pose (s3 := setBar (utils.Add (bar s2) 1)
                (setWorkers [setStage Releasing wk] s2)).
  pose (s4 := setQueueLen 0 (setWorkers [setStage Finishing wk] s3)).
  pose (s5 := setWg 0 (setWorkers [] s4)).
  pose (s6 := setMain Waiting (setQueueClosed true s5)).
  apply (nsteps_l _ _ _ s1).
  { apply (step_start E [] ∅ ∅ s0 u []);
      [reflexivity | reflexivity | cbv; lia]. }
  apply (nsteps_l _ _ _ s2).
  { apply (step_fetch E [] ∅ ∅ s1 [] wk [] err w');
      [reflexivity | reflexivity | reflexivity |].
    rewrite Hurl, Hpath. change (world s1) with w. unfold w'.
    destruct (DownloadURL E "https://example.com/a.jpg" "/out/" [] ∅ ∅ w)
      as [o w1].
    simpl in Hret. now subst o. }
  apply (nsteps_l _ _ _ s3).
  { apply (step_tick E [] ∅ ∅ s2 [] (setStage Ticking wk) []); reflexivity. }
  apply (nsteps_l _ _ _ s4).
  { apply (step_release E [] ∅ ∅ s3 [] (setStage Releasing wk) []);
      [reflexivity | reflexivity | reflexivity | cbv; lia]. }
  apply (nsteps_l _ _ _ s5).
  { apply (step_done E [] ∅ ∅ s4 [] (setStage Finishing wk) []); reflexivity. }
  apply (nsteps_l _ _ _ s6).
  { apply (step_close E [] ∅ ∅ s5); reflexivity. }
  apply (nsteps_l _ _ _ (oneJobReturned E w)); [|apply nsteps_O].
  apply (step_return E [] ∅ ∅ s6); reflexivity.
Qed.

(** The download of [oneJob] returns when the host serves the file. *)
Lemma served_job_returns (w : World) :
  fst (DownloadURL (serving (okResponse
                               "https://cdn.example.com/files/0001.bin"))
         "https://example.com/a.jpg" "/out/" [] ∅ ∅ w) = Ret None.
Proof.
  set (E := serving (okResponse "https://cdn.example.com/files/0001.bin")).
  assert (Hserved : fst (CallRequest E "GET" "https://example.com/a.jpg"
                           (25 * 60) [] ∅ ∅ true w)
                    = Ret (Some (okResponse
                                   "https://cdn.example.com/files/0001.bin"),
                           None))
    by (vm_compute; reflexivity).
  destruct (DownloadURL_cases E "https://example.com/a.jpg" "/out/" [] ∅ ∅ w)
    as [(e' & Hnew & _)|[(w1 & Hcall & _)|(res & w1 & Hcall & Hrest)]].
  - discriminate Hnew.
  - rewrite Hcall in Hserved. discriminate Hserved.
  - rewrite Hcall in Hserved. simpl in Hserved. injection Hserved as ->.
    assert (Hdir : fst (resolvePath E "/out/"
                          (okResponse "https://cdn.example.com/files/0001.bin")
                          w1) = Ret "/out/0001.bin")
      by (vm_compute; reflexivity).
    destruct Hrest as [(p & w2 & Hpath & ->)|(v & w2 & Hpath & _)];
      rewrite Hpath in Hdir; [|discriminate Hdir].
    simpl.
    destruct (writeBody_returns_nil E "https://example.com/a.jpg" p
                (okResponse "https://cdn.example.com/files/0001.bin") w2)
      as [H|[v H]]; [exact H|].
    exfalso. revert H.
    unfold writeBody, bind, utils.CheckIfFileIsEmpty, os.Create, io.Copy,
      os.Close, os.Remove, utils.LogError, emit, ret, panic, bind.
    destruct (files w2 !! p) as [[|c cs]|]; simpl; discriminate.
Qed.

(** The run of [oneJob] under a limit of four, when its download
    panics: the job is started, its download panics, the deferred
    [wg.Done()] runs; the queue is closed and the call returns, before
    the process has died. *)
Lemma panicked_job_returns (E : Env) (w : World) (v : string) :
  fst (DownloadURL E "https://example.com/a.jpg" "/out/" [] ∅ ∅ w)
  = Stop (Panicked v) ->
  rtc (step E [] ∅ ∅) (DownloadURLsParallel oneJob 4 w)
      (oneJobAbandoned E w v).
Proof.
  intros Hpanic.
  pose (u := {[ "url" := "https://example.com/a.jpg";
                "filepath" := "/out/" ]} : gmap string string).
  pose (wk := jobWorker u).
  assert (Hurl : fileUrl wk = "https://example.com/a.jpg")
    by (vm_compute; reflexivity).
  assert (Hpath : filePath wk = "/out/") by (vm_compute; reflexivity).
  pose (w' := snd (DownloadURL E "https://example.com/a.jpg" "/out/"
                     [] ∅ ∅ w)).
  pose (s0 := DownloadURLsParallel oneJob 4 w).
  pose (s1 := started u [] 1 [] s0).
  pose (s2 := setWorld w' (setWorkers [setStage (Panicking v) wk] s1)).
  pose (s3 := setWg 0 (setWorkers [setStage (Dying v) wk] s2)).
  pose (s4 := setMain Waiting (setQueueClosed true s3)).
  apply (rtc_l _ _ s1).
  { apply (step_start E [] ∅ ∅ s0 u []);
      [reflexivity | reflexivity | cbv; lia]. }
  apply (rtc_l _ _ s2).
  { apply (step_panic E [] ∅ ∅ s1 [] wk [] v w');
      [reflexivity | reflexivity | reflexivity |].
    rewrite Hurl, Hpath. change (world s1) with w. unfold w'.
    destruct (DownloadURL E "https://example.com/a.jpg" "/out/" [] ∅ ∅ w)
      as [o w1].
    simpl in Hpanic. now subst o. }
  apply (rtc_l _ _ s3).
  { apply (step_unwind E [] ∅ ∅ s2 [] (setStage (Panicking v) wk) [] v);
      reflexivity. }
  apply (rtc_l _ _ s4).
  { apply (step_close E [] ∅ ∅ s3); reflexivity. }
  apply (rtc_l _ _ (oneJobAbandoned E w v)); [|apply rtc_refl].
  apply (step_return E [] ∅ ∅ s4); reflexivity.
Qed.

(** The download of [oneJob] panics when the response URL cannot be
    unescaped. *)
Lemma unescapable_job_panics (w : World) :
  fst (DownloadURL
         (serving (okResponse "https://cdn.example.com/media/a.jpg?rate=100%"))
         "https://example.com/a.jpg" "/out/" [] ∅ ∅ w)
  = Stop (Panicked "invalid URL escape").
Proof. vm_compute. reflexivity. Qed.

(** ** The claim about the coordinator *)

(** C9 (as amended).  The bar starts at 0 of [K].  In every state the
    batch reaches, each job is pending, or in its download or before its
    tick, or panicked, or counted: a job is counted once, when its
    [DownloadURL] has returned, with an error or without.  When the call
    returns the count is [K] less the jobs whose download panicked; such
    a worker runs its deferred [wg.Done()] and so lets the call return
    before the process dies.  Where the download of every job returns
    and the limit is at least one, no schedule blocks or dies: each ends,
    within [5 * K + 2] steps, with the call returned and the count at
    [K]. *)
Theorem returned_jobs_are_counted E cookies headers params
    (urls : list (gmap string string)) maxConcurrency w :
  0 < maxConcurrency ->
  let start := DownloadURLsParallel urls maxConcurrency w in
  let K := Z.of_nat (length urls) in
  (utils.total (bar start) = K /\ utils.count (bar start) = 0)
  /\ (forall s,
        rtc (step E cookies headers params) start s ->
        utils.total (bar s) = K
        /\ utils.count (bar s) + Z.of_nat (inStage notTicked (workers s))
           + Z.of_nat (inStage isPanicked (workers s))
           + Z.of_nat (length (pending (main s))) = K
        /\ (main s = Returned ->
            utils.count (bar s) = K - Z.of_nat (length (workers s))
            /\ Forall (fun wk => exists v, stage wk = Dying v) (workers s)))
  /\ (Forall (fun u => returnsOn E cookies headers params (jobWorker u)) urls ->
      (forall s,
         rtc (step E cookies headers params) start s ->
         crashed s = None
         /\ (main s = Returned -> utils.count (bar s) = K)
         /\ (main s <> Returned ->
             exists s', step E cookies headers params s s')
         /\ exists s', rtc (step E cookies headers params) s s'
                       /\ main s' = Returned /\ utils.count (bar s') = K)
      /\ forall n s,
           nsteps (step E cookies headers params) n start s ->
           (n <= 5 * length urls + 2)%nat).
Proof.
  intros Hmax start K. split; [now split|].
  assert (Hcap : forall s, rtc (step E cookies headers params) start s ->
            (0 < queueCap s)%nat \/ length urls = 0%nat).
  { intros s Hrun.
    destruct (in_flight_bounded E cookies headers params _ _ _ _ Hrun)
      as [_ Hslots].
    destruct urls as [|u urls]; [now right | left].
    simpl length in Hslots. lia. }
  split.
  - intros s Hrun.
    destruct (coherent_reachable E cookies headers params _ _ _ _ Hrun)
      as (_ & _ & _ & Htot & Hcount & _).
    split; [exact Htot|]. split; [exact Hcount|].
    intros Hret.
    destruct (returned_count E cookies headers params _ _ _ _ Hrun Hret)
      as (Hk & Hall & _).
    split; [unfold K; lia | exact Hall].
  - intros Hreturn.
    assert (Hcounted : forall s,
              rtc (step E cookies headers params) start s ->
              crashed s = None
              /\ (main s = Returned -> utils.count (bar s) = K)).
    { intros s Hrun.
      destruct (returning_jobs_never_panic E cookies headers params urls
                  maxConcurrency w s ltac:(lia) Hreturn Hrun)
        as (Hc & Hall & _).
      split; [exact Hc|]. intros Hret.
      destruct (returned_count E cookies headers params _ _ _ _ Hrun Hret)
        as (Hk & Hdying & _).
      destruct (workers s) as [|wk ws]; [simpl in Hk; unfold K; lia|].
      apply Forall_cons in Hall as [[Hwk _] _].
      apply Forall_cons in Hdying as [[v Hv] _].
      rewrite Hv in Hwk. discriminate Hwk. }
    split.
    + intros s Hrun. destruct (Hcounted s Hrun) as [Hc Hk].
      pose proof (coherent_reachable E cookies headers params _ _ _ _ Hrun)
        as Hs.
      split; [exact Hc|]. split; [exact Hk|]. split.
      * intros Hmain.
        apply (coherent_progress E cookies headers params (length urls) s Hs
                 Hc Hmain).
        destruct (Hcap s Hrun) as [Hslot|Hnone]; [now left | right].
        destruct Hs as (_ & _ & _ & _ & Hcount & _ & Hpos).
        destruct (pending (main s)); [reflexivity | simpl in Hcount; lia].
      * destruct (coherent_terminates E cookies headers params (workLeft s)
                    (length urls) s (le_n _) Hs (Hcap s Hrun))
          as (s' & Hrest & Hend).
        assert (Hrun' : rtc (step E cookies headers params) start s')
          by (etransitivity; eassumption).
        destruct (Hcounted s' Hrun') as [Hc' Hk'].
        exists s'. split; [exact Hrest|].
        destruct Hend as [Hret|Hcrash]; [|contradiction].
        split; [exact Hret | exact (Hk' Hret)].
    + intros n s Hrun.
      pose proof (nsteps_workLeft E cookies headers params n _ _ Hrun) as Hn.
      unfold workLeft, start, DownloadURLsParallel in Hn. simpl in Hn. lia.
Qed.

(** One job, at most four at a time, served by the host: the call
    returns with the job counted. *)
Lemma one_job_is_counted :
  let E := serving (okResponse "https://cdn.example.com/files/0001.bin") in
  let start := DownloadURLsParallel oneJob 4 emptyWorld in
  0 < 4
  /\ Forall (fun u => returnsOn E [] ∅ ∅ (jobWorker u)) oneJob
  /\ rtc (step E [] ∅ ∅) start (oneJobReturned E emptyWorld)
  /\ utils.total (bar start) = 1
  /\ utils.count (bar (oneJobReturned E emptyWorld)) = 1.
Proof.
  intros E start.
  assert (Hmax : 0 < 4) by lia.
  assert (Hreturn : Forall (fun u => returnsOn E [] ∅ ∅ (jobWorker u)) oneJob).
  { repeat constructor. intros w.
    exists None,
           (snd (DownloadURL E "https://example.com/a.jpg" "/out/" [] ∅ ∅ w)).
    pose proof (served_job_returns w) as Hret. fold E in Hret.
    change (fileUrl (jobWorker _)) with
      (default "" (({[ "url" := "https://example.com/a.jpg";
                       "filepath" := "/out/" ]} : gmap string string)
                   !! "url")).
    change (filePath (jobWorker _)) with
      (default "" (({[ "url" := "https://example.com/a.jpg";
                       "filepath" := "/out/" ]} : gmap string string)
                   !! "filepath")).
    assert (Hu : default "" (({[ "url" := "https://example.com/a.jpg";
                                 "filepath" := "/out/" ]}
                              : gmap string string) !! "url")
                 = "https://example.com/a.jpg") by (vm_compute; reflexivity).
    assert (Hp : default "" (({[ "url" := "https://example.com/a.jpg";
                                 "filepath" := "/out/" ]}
                              : gmap string string) !! "filepath")
                 = "/out/") by (vm_compute; reflexivity).
    rewrite Hu, Hp.
    destruct (DownloadURL E "https://example.com/a.jpg" "/out/" [] ∅ ∅ w)
      as [o w1].
    simpl in Hret |- *. now subst o. }
  assert (Hrun : rtc (step E [] ∅ ∅) start (oneJobReturned E emptyWorld))
    by exact (rtc_nsteps_2 _ _ _
                (one_job_returns E emptyWorld None
                   (served_job_returns emptyWorld))).
  destruct (returned_jobs_are_counted E [] ∅ ∅ oneJob 4 emptyWorld Hmax)
    as ((Htot & _) & _ & Hall).
  destruct (Hall Hreturn) as [Hstates _].
  destruct (Hstates _ Hrun) as (_ & Hk & _).
  split; [exact Hmax|]. split; [exact Hreturn|]. split; [exact Hrun|].
  split; [exact Htot | exact (Hk eq_refl)].
Defined.

(** C9 (as stated, refuted).  The response URL of the job carries a
    malformed escape in its query, [?rate=100%]: [url.PathUnescape] fails
    and [DownloadURL] panics with the error, as line 89 has it.  The
    worker skips [bar.Add(1)], runs its deferred [wg.Done()], and the
    call returns from [wg.Wait()]: it has returned, and the bar, created
    for one job, is at 0. *)
Lemma panicked_job_returns_uncounted :
  let E := serving (okResponse
                      "https://cdn.example.com/media/a.jpg?rate=100%") in
  let start := DownloadURLsParallel oneJob 4 emptyWorld in
  let s := oneJobAbandoned E emptyWorld "invalid URL escape" in
  utils.total (bar start) = 1
  /\ rtc (step E [] ∅ ∅) start s
  /\ main s = Returned /\ crashed s = None
  /\ utils.count (bar s) = 0
  /\ ~ countsEveryJob E [] ∅ ∅ oneJob 4 emptyWorld.
Proof.
  intros E start s.
  assert (Hrun : rtc (step E [] ∅ ∅) start s)
    by exact (panicked_job_returns E emptyWorld "invalid URL escape"
                (unescapable_job_panics emptyWorld)).
  split; [reflexivity|]. split; [exact Hrun|].
  split; [reflexivity|]. split; [reflexivity|]. split; [reflexivity|].
  intros Hcounts. specialize (Hcounts s Hrun eq_refl). discriminate Hcounts.
Qed.

(** ** Further properties of the coordinator *)

(** X12.  At no point of a batch are more goroutines between the send on
    [queue] and the receive from it than the limit allows or than there
    are jobs; the downloads in flight are among them.  So no more than
    [maxConcurrency] calls of [DownloadURL] run at once. *)
Theorem downloads_in_flight_never_exceed_the_limit E cookies headers params
    (urls : list (gmap string string)) maxConcurrency w s :
  rtc (step E cookies headers params)
      (DownloadURLsParallel urls maxConcurrency w) s ->
  (inStage isFetching (workers s) <= inStage holdsSlot (workers s))%nat
  /\ (inStage holdsSlot (workers s) <= Z.to_nat maxConcurrency)%nat
  /\ (inStage holdsSlot (workers s) <= length urls)%nat.
Proof.
  intros Hrun.
  destruct (coherent_reachable E cookies headers params _ _ _ _ Hrun)
    as (_ & Hq & Hcap & _).
  destruct (in_flight_bounded E cookies headers params _ _ _ _ Hrun)
    as [_ Hslots].
  split; [apply inStage_fetching_le|]. lia.
Qed.

(** One job under a limit of four: once started, it is the one download
    in flight. *)
Lemma one_download_in_flight :
  let u := {[ "url" := "https://example.com/a.jpg"; "filepath" := "/out/" ]} in
  let start := DownloadURLsParallel oneJob 4 emptyWorld in
  let s := started u [] 1 [] start in
  (inStage isFetching (workers s) <= inStage holdsSlot (workers s))%nat
  /\ (inStage holdsSlot (workers s) <= Z.to_nat 4)%nat
  /\ (inStage holdsSlot (workers s) <= length oneJob)%nat.
Proof.
  intros u start s.
  assert (Hrun : rtc (step refusing [] ∅ ∅) start s).
  { apply rtc_once. apply (step_start refusing [] ∅ ∅ start u []);
      [reflexivity | reflexivity | cbv; lia]. }
  exact (downloads_in_flight_never_exceed_the_limit refusing [] ∅ ∅ oneJob 4
           emptyWorld s Hrun).
Defined.

(** X13.  When [DownloadURLsParallel] returns, the wait group is at zero
    and the queue is closed, and the only goroutines of the batch that
    are left are workers whose download panicked: each has run its
    deferred [wg.Done()], is about to bring the process down, and has
    left its token in the queue.  Where no download panicked, no
    goroutine is left and the queue is empty. *)
Theorem returned_call_leaves_only_dying_workers E cookies headers params
    (urls : list (gmap string string)) maxConcurrency w s :
  rtc (step E cookies headers params)
      (DownloadURLsParallel urls maxConcurrency w) s ->
  main s = Returned ->
  wg s = 0 /\ queueClosed s = true
  /\ Forall (fun wk => exists v, stage wk = Dying v) (workers s)
  /\ queueLen s = length (workers s)
  /\ (inStage isPanicked (workers s) = 0%nat ->
      workers s = [] /\ queueLen s = 0%nat).
Proof.
  intros Hrun Hmain.
  destruct (returned_count E cookies headers params _ _ _ _ Hrun Hmain)
    as (_ & Hall & Hq & Hwg).
  pose proof (closed_after_loop E cookies headers params _ _ _ _ Hrun
                (or_intror Hmain)) as Hclosed.
  repeat split; try assumption.
  - destruct (workers s) as [|wk ws]; [reflexivity|].
    apply Forall_cons in Hall as [[v Hv] _].
    unfold inStage in H. simpl in H. rewrite Hv in H. discriminate H.
  - destruct (workers s) as [|wk ws]; [exact Hq|].
    apply Forall_cons in Hall as [[v Hv] _].
    unfold inStage in H. simpl in H. rewrite Hv in H. discriminate H.
Qed.

(** The call for [oneJob] has returned after the panic of its download:
    the worker is left, dying, with its token in the queue. *)
Lemma abandoned_job_leaves_a_dying_worker :
  let E := serving (okResponse
                      "https://cdn.example.com/media/a.jpg?rate=100%") in
  let s := oneJobAbandoned E emptyWorld "invalid URL escape" in
  wg s = 0 /\ queueClosed s = true
  /\ Forall (fun wk => exists v, stage wk = Dying v) (workers s)
  /\ queueLen s = 1%nat.
Proof.
  intros E s.
  assert (Hrun : rtc (step E [] ∅ ∅)
                     (DownloadURLsParallel oneJob 4 emptyWorld) s)
    by exact (panicked_job_returns E emptyWorld "invalid URL escape"
                (unescapable_job_panics emptyWorld)).
  destruct (returned_call_leaves_only_dying_workers E [] ∅ ∅ oneJob 4
              emptyWorld s Hrun eq_refl) as (Hwg & Hclosed & Hall & Hq & _).
  repeat split; assumption.
Defined.

(** X14.  A negative limit, which the cap of line 130 leaves as it is,
    makes [make(chan struct{}, maxConcurrency)] panic: the call dies
    before its loop, no job is started and the world is untouched. *)
Theorem negative_limit_panics_before_the_loop E cookies headers params
    (urls : list (gmap string string)) maxConcurrency w s :
  maxConcurrency < 0 ->
  rtc (step E cookies headers params)
      (DownloadURLsParallel urls maxConcurrency w) s ->
  s = DownloadURLsParallel urls maxConcurrency w
  /\ crashed s = Some (Panicked "makechan: size out of range")
  /\ world s = w /\ workers s = [] /\ main s = Looping urls.
Proof.
  intros Hneg Hrun.
  assert (Hc : crashed (DownloadURLsParallel urls maxConcurrency w)
               = Some (Panicked "makechan: size out of range")).
  { unfold DownloadURLsParallel. simpl.
    destruct (Z.ltb_spec (Z.of_nat (length urls)) maxConcurrency); [lia|].
    destruct (Z.ltb_spec maxConcurrency 0); [reflexivity | lia]. }
  assert (Hs : s = DownloadURLsParallel urls maxConcurrency w).
  { apply (crashed_is_final E cookies headers params _ _); [|exact Hrun].
    rewrite Hc. discriminate. }
  subst s. now repeat split.
Qed.

(** A limit of -1 for [oneJob]. *)
Lemma minus_one_panics_before_the_loop :
  let start := DownloadURLsParallel oneJob (-1) emptyWorld in
  start = DownloadURLsParallel oneJob (-1) emptyWorld
  /\ crashed start = Some (Panicked "makechan: size out of range")
  /\ world start = emptyWorld /\ workers start = []
  /\ main start = Looping oneJob.
Proof.
  intros start.
  assert (Hneg : -1 < 0) by lia.
  exact (negative_limit_panics_before_the_loop refusing [] ∅ ∅ oneJob (-1)
           emptyWorld start Hneg (rtc_refl _ _)).
Defined.

(** X15.  With a limit of zero and a job to do, the queue is unbuffered
    and has no receiver: the first send of the loop never goes through.
    No step is possible from the first state; the call neither returns
    nor panics, and no download starts. *)
Theorem zero_limit_blocks_the_first_send E cookies headers params
    (urls : list (gmap string string)) w s :
  urls <> [] ->
  rtc (step E cookies headers params) (DownloadURLsParallel urls 0 w) s ->
  s = DownloadURLsParallel urls 0 w
  /\ main s = Looping urls /\ crashed s = None
  /\ workers s = [] /\ world s = w.
Proof.
  intros Hurls Hrun.
  assert (Hstart : crashed (DownloadURLsParallel urls 0 w) = None
                   /\ queueCap (DownloadURLsParallel urls 0 w) = 0%nat).
  { unfold DownloadURLsParallel. simpl.
    destruct (Z.ltb_spec (Z.of_nat (length urls)) 0); [lia|].
    now split. }
  destruct Hstart as [Hc Hcap].
  assert (Hs : s = DownloadURLsParallel urls 0 w).
  { destruct (rtc_inv _ _ Hrun) as [<-|(s1 & Hstep & _)]; [reflexivity|].
    exfalso. remember (DownloadURLsParallel urls 0 w) as s0 eqn:Hs0.
    assert (Hws : workers s0 = []) by now subst s0.
    assert (Hmain : main s0 = Looping urls) by now subst s0.
    assert (Hlen : queueLen s0 = 0%nat) by now subst s0.
    destruct Hstep;
      try match goal with
      | Hw : workers _ = (?ws1 ++ _)%list |- _ =>
          rewrite Hws in Hw; destruct ws1; discriminate Hw
      end.
    - lia.
    - congruence.
    - congruence. }
  subst s. now repeat split.
Qed.

(** [oneJob] with a limit of zero. *)
Lemma one_job_blocks_without_slots :
  let start := DownloadURLsParallel oneJob 0 emptyWorld in
  start = DownloadURLsParallel oneJob 0 emptyWorld
  /\ main start = Looping oneJob /\ crashed start = None
  /\ workers start = [] /\ world start = emptyWorld.
Proof.
  intros start.
  assert (Hurls : oneJob <> []) by discriminate.
  exact (zero_limit_blocks_the_first_send refusing [] ∅ ∅ oneJob emptyWorld
           start Hurls (rtc_refl _ _)).
Defined.

(** X16.  With a limit of at least one the coordinator never blocks:
    whatever the schedule has done, as long as the process has not died
    and the call has not returned, some goroutine can take a step. *)
Theorem positive_limit_never_blocks E cookies headers params
    (urls : list (gmap string string)) maxConcurrency w s :
  0 < maxConcurrency ->
  rtc (step E cookies headers params)
      (DownloadURLsParallel urls maxConcurrency w) s ->
  crashed s = None -> main s <> Returned ->
  exists s', step E cookies headers params s s'.
Proof.
  intros Hmax Hrun Hc Hmain.
  pose proof (coherent_reachable E cookies headers params _ _ _ _ Hrun) as Hs.
  destruct (in_flight_bounded E cookies headers params _ _ _ _ Hrun)
    as [_ Hslots].
  apply (coherent_progress E cookies headers params (length urls) s Hs Hc
           Hmain).
  destruct urls as [|u urls]; [right | left; simpl in Hslots; lia].
  destruct Hs as (_ & _ & _ & _ & Hcount & _ & Hpos).
  pose proof (Nat2Z.is_nonneg (inStage notTicked (workers s))).
  destruct (pending (main s)); [reflexivity | simpl in Hcount; lia].
Qed.

(** [oneJob] under a limit of four: the first state can take a step. *)
Lemma one_job_can_start :
  exists s', step refusing [] ∅ ∅
               (DownloadURLsParallel oneJob 4 emptyWorld) s'.
Proof.
  assert (Hmax : 0 < 4) by lia.
  assert (Hmain : main (DownloadURLsParallel oneJob 4 emptyWorld) <> Returned)
    by discriminate.
  exact (positive_limit_never_blocks refusing [] ∅ ∅ oneJob 4 emptyWorld
           _ Hmax (rtc_refl _ _) eq_refl Hmain).
Defined.

(** X17.  No schedule runs on for ever: a run of [DownloadURLsParallel]
    for [K] jobs has at most [5 * K + 2] steps, five for each job (its
    start, download, tick, release and end) and two for the close of the
    queue and the return. *)
Theorem every_run_ends_within_five_steps_a_job E cookies headers params
    (urls : list (gmap string string)) maxConcurrency w n s :
  nsteps (step E cookies headers params) n
         (DownloadURLsParallel urls maxConcurrency w) s ->
  (n <= 5 * length urls + 2)%nat.
Proof.
  intros Hrun.
  pose proof (nsteps_workLeft E cookies headers params n _ _ Hrun) as Hn.
  unfold workLeft, DownloadURLsParallel in Hn. simpl in Hn. lia.
Qed.

(** The run of [oneJob] takes the seven steps. *)
Lemma one_job_takes_seven_steps : (7 <= 5 * length oneJob + 2)%nat.
Proof.
  exact (every_run_ends_within_five_steps_a_job
           (serving (okResponse "https://cdn.example.com/files/0001.bin"))
           [] ∅ ∅ oneJob 4 emptyWorld 7 _
           (one_job_returns _ emptyWorld None
              (served_job_returns emptyWorld))).
Defined.

(** X18.  A batch of [K] jobs sends at most [K * RETRY_COUNTER] requests,
    on every schedule and whether it returns or dies of a panic. *)
Theorem batch_requests_are_bounded E cookies headers params
    (urls : list (gmap string string)) maxConcurrency w s :
  rtc (step E cookies headers params)
      (DownloadURLsParallel urls maxConcurrency w) s ->
  (requestCount (world s)
   <= requestCount w + length urls * Z.to_nat (RETRY_COUNTER E))%nat.
Proof.
  intros Hrun.
  destruct (batch_requests E cookies headers params _ _ _ _ Hrun) as [_ H].
  lia.
Qed.

(** [oneJob], served at the first attempt, has cost at most three
    requests. *)
Lemma one_job_costs_at_most_three_requests :
  let E := serving (okResponse "https://cdn.example.com/files/0001.bin") in
  (requestCount (world (oneJobReturned E emptyWorld))
   <= requestCount emptyWorld + length oneJob * Z.to_nat (RETRY_COUNTER E))%nat.
Proof.
  intros E.
  exact (batch_requests_are_bounded E [] ∅ ∅ oneJob 4 emptyWorld _
           (rtc_nsteps_2 _ _ _
              (one_job_returns E emptyWorld None
                 (served_job_returns emptyWorld)))).
Defined.

(** X19.  A batch never rewrites a finished download: a file that is
    present and not empty when [DownloadURLsParallel] is called holds the
    same bytes in every state the batch reaches, whatever the jobs, the
    responses and the schedule. *)
Theorem batch_keeps_finished_downloads E cookies headers params
    (urls : list (gmap string string)) maxConcurrency w s p b bs :
  rtc (step E cookies headers params)
      (DownloadURLsParallel urls maxConcurrency w) s ->
  files w !! p = Some (b :: bs) ->
  files (world s) !! p = Some (b :: bs).
Proof.
  intros Hrun Hp. revert s Hrun.
  apply (rtc_ind_r (fun s => files (world s) !! p = Some (b :: bs)));
    [exact Hp|].
  intros s1 s2 _ Hstep Hs1.
  exact (step_keeps E cookies headers params s1 s2 p b bs Hstep Hs1).
Qed.

(** [/out/report.pdf] holds two bytes when the batch starts, and holds
    them when the batch has returned. *)
Lemma report_survives_the_batch :
  let E := serving (okResponse "https://cdn.example.com/files/0001.bin") in
  files (world (oneJobReturned E (reportWorld twoBytes))) !! "/out/report.pdf"
  = Some twoBytes.
Proof.
  intros E.
  assert (Hp : files (reportWorld twoBytes) !! "/out/report.pdf"
               = Some (Byte.x4a :: [Byte.x46]))
    by (vm_compute; reflexivity).
  exact (batch_keeps_finished_downloads E [] ∅ ∅ oneJob 4
           (reportWorld twoBytes) _ "/out/report.pdf" Byte.x4a [Byte.x46]
           (rtc_nsteps_2 _ _ _
              (one_job_returns E (reportWorld twoBytes) None
                 (served_job_returns (reportWorld twoBytes))))
           Hp).
Defined.

(** X20.  A batch without jobs does nothing and returns: for a limit that
    is not negative, no state it reaches has a goroutine, a changed world
    or a moved bar, and from each of them the call goes on to return. *)
Theorem empty_batch_returns_untouched E cookies headers params
    maxConcurrency w s :
  0 <= maxConcurrency ->
  rtc (step E cookies headers params)
      (DownloadURLsParallel [] maxConcurrency w) s ->
  (world s = w /\ workers s = [] /\ crashed s = None
   /\ utils.count (bar s) = 0)
  /\ exists s', rtc (step E cookies headers params) s s'
                /\ main s' = Returned /\ world s' = w.
Proof.
  intros Hmax Hrun.
  assert (Hinv : forall s0,
             rtc (step E cookies headers params)
                 (DownloadURLsParallel [] maxConcurrency w) s0 ->
             world s0 = w /\ workers s0 = [] /\ crashed s0 = None
             /\ utils.count (bar s0) = 0).
  { apply (rtc_ind_r (fun s0 => world s0 = w /\ workers s0 = []
                                /\ crashed s0 = None
                                /\ utils.count (bar s0) = 0)).
    - unfold DownloadURLsParallel.
      cbn [world workers crashed bar utils.count utils.GetProgressBar length].
      change (Z.of_nat 0) with 0.
      repeat split.
      destruct (Z.ltb_spec 0 maxConcurrency); [reflexivity|].
      destruct (Z.ltb_spec maxConcurrency 0); [lia | reflexivity].
    - intros s1 s2 Hrun1 Hstep (Hw & Hws & Hc & Hbar).
      pose proof (coherent_reachable E cookies headers params _ _ _ _ Hrun1)
        as (_ & _ & _ & _ & Hcount & _ & Hpos).
      pose proof (Nat2Z.is_nonneg (inStage notTicked (workers s1))).
      destruct Hstep;
        try match goal with
        | Hx : workers _ = (?ws1 ++ _)%list |- _ =>
            rewrite Hws in Hx; destruct ws1; discriminate Hx
        end;
        try match goal with
        | Hm : main _ = Looping (_ :: _) |- _ =>
            rewrite Hm in Hcount; simpl in Hcount; lia
        end;
        now repeat split. }
  split; [exact (Hinv s Hrun)|].
  pose proof (coherent_reachable E cookies headers params _ _ _ _ Hrun) as Hs.
  destruct (coherent_terminates E cookies headers params (workLeft s) 0 s
              (le_n _) Hs (or_intror eq_refl)) as (s' & Hrest & Hend).
  exists s'. split; [exact Hrest|].
  destruct (Hinv s' ltac:(etransitivity; eassumption)) as (Hw & _ & Hc & _).
  destruct Hend as [Hret|Hcrash]; [now split | contradiction].
Qed.

(** No job, a limit of three, the empty world. *)
Lemma no_job_no_change :
  let start := DownloadURLsParallel [] 3 emptyWorld in
  (world start = emptyWorld /\ workers start = [] /\ crashed start = None
   /\ utils.count (bar start) = 0)
  /\ exists s', rtc (step refusing [] ∅ ∅) start s'
                /\ main s' = Returned /\ world s' = emptyWorld.
Proof.
  intros start.
  assert (Hmax : 0 <= 3) by lia.
  exact (empty_batch_returns_untouched refusing [] ∅ ∅ 3 emptyWorld start
           Hmax (rtc_refl _ _)).
Defined.
